(* ===== verification/_CoqProject ===== *)
-Q . S2P
Prelude.v
Json.v
Sha1.v
Identity.v
Store.v
Concurrency.v
Node.v
Wire.v
Truncation.v
Network.v
Ring.v
Server.v
Join.v
Topology.v
Response.v
System.v
Lifecycle.v
