(* ===== verification/Prelude.v ===== *)
(** * A verification library for the Chordify node ([src/node.py])

    The program is one Python class, [ChordNode], and its entry point.
    A process started as [python node.py ip port [bootstrap_ip
    bootstrap_port]] derives its id from its address (SHA-1).  It either
    becomes its own successor (bootstrap node) or runs [join] against a
    bootstrap address: [find_successor] of its id, then [update_predecessor]
    sent to the successor it learned.  It then binds a TCP server.  Each
    connection carries one JSON request: [insert], [query] or [delete] on
    the node's local dict, [find_successor], which answers or forwards the
    request to the successor, or [update_predecessor].  The answer is one
    JSON response, or the connection is closed when the handler raises.

    ** Files, and what of the source each models

    - [Prelude.v] (this file): Python exceptions as values ([py_exc]),
      the result monad [res] with its [≫=], the scope [py_scope], the hint
      databases [chord] and [chord_rw], shared lemmas on strings and [res].
    - [Json.v]: the values [json.loads] produces ([json], a nested
      inductive with its induction principle [json_ind']), the Python
      operations the node applies to them ([py_get], [py_getitem],
      [py_lt], [py_le], [py_eq_int], [py_eq_str], [str], [repr], [int] of a
      str), and [json.dumps] with its default separators and
      [ensure_ascii].
    - [Sha1.v]: SHA-1 (FIPS 180-4) on 32-bit words as [Z] with explicit
      wrap-around ([Sha1.digest]).
    - [Identity.v]: [generate_id] (src/node.py:46-49) and the key hash of
      lines 199, 205, 212: [str.encode()], [hexdigest], [int(., 16)] and
      [% 2**160].
    - [Store.v]: [insert], [query], [delete] (src/node.py:197-216) on the
      node's [data_store] ([gmap Z json]), with an abstract store keyed by
      raw strings ([AbsStore]).
    - [Concurrency.v]: the store handlers as threads of the accept loop
      (src/node.py:68-71) sharing [data_store], one atomic dict operation
      ([in], subscript, store, [del]) per step, run under any schedule.
    - [Node.v]: the node's attributes (a record, [successor] optional
      because the attribute exists only once set), [find_successor]'s local
      decision (src/node.py:116-133), [update_predecessor] (139-143).
    - [Wire.v]: [json.loads] (CPython's scanner: strict strings, no
      floats, duplicate keys keep the last value), [bytes.decode()],
      [recv(1024)], and the sizes of encoded messages.
    - [Truncation.v]: what [recv(1024)] does to a longer message: the
      scanner's fuel monotonicity and extension lemmas, and that a proper
      prefix of an object's encoding never parses.
    - [Network.v]: the network as the map from bound [(ip, port)] to
      node state; [send_request] (146-156), [process_request] (176-195)
      and [handle_request] (161-173).  Connections are synchronous: the
      caller's [send_request] runs the callee's [handle_request], so a
      forwarded [find_successor] recurses through the network.
    - [Server.v]: the accept loops of all nodes (68-71) together: handler
      threads bound to the node that accepted them, each step one atomic
      dict action on that node's [data_store]; a store request is
      [Server.spawn], a schedule [Server.run].
    - [Ring.v]: the shape the protocol gives the network ([Ring.star]:
      every successor is a hub, a node that is its own successor) and
      routing in such networks.
    - [Join.v]: [join] (79-112), [start_server]'s [bind] (51-76), the
      constructor (13-31) and the entry point [main] (239-258).
    - [Topology.v]: runs of the whole system as a step relation (process
      starts and client connections) from the empty network, and the
      global theorems.
    - [Response.v]: the typing discipline of runs: well-formed stored
      values and successors ([Response.typed]) and answers that are status
      dicts ([Response.status_response]), for every handler, [join] and
      every reachable network.
    - [System.v]: one step relation for every run of the whole system
      ([System.sstep]): process starts, atomic connections, store
      handler threads spawned from decoded requests
      ([System.read_request], [System.store_op_of]) and their steps,
      in any interleaving.
    - [Lifecycle.v]: the SIGINT handler (src/node.py:34, 41-43):
      [Lifecycle.exit] is [os._exit(0)] of the process listening at an
      address (its entry, its store and its handler threads vanish), and
      [Lifecycle.lstep] adds it to the steps of [System.sstep], at any
      point of a run.

    ** What the theorems show

    - Reachable networks: every reachable network, whatever its IP
      strings, is a star ([Topology.reachable_star], by induction over the steps, with the
      frame lemma [handle_request_keeps_skel]: no request changes an
      address, id or successor).  Hence [find_successor] always terminates
      within one forward and answers the hub, i.e. the bootstrap node,
      whatever the key ([Topology.reachable_find_successor]).  The
      two-node ring of the specification never arises
      ([Topology.reachable_no_two_node_ring]); built by hand it routes
      some targets forever ([Topology.two_node_ring_diverges]).
    - Typing: [json.loads] only builds dicts with distinct keys; in every
      reachable network stored values and successors are well-formed and
      every answer is [json.dumps] of a dict whose first entry is
      ["status"] (["success"] or ["error"])
      ([Response.reachable_answers_status]), so [send_request] always
      returns such a dict ([Response.reachable_send_request_status]).
    - Join: in a star, [join] sets the successor to what the bootstrap
      node answers and makes that hub record the new node as predecessor
      ([Join.join_links]); [join] runs before the node listens, so a
      joiner told that it is its own successor never receives its own
      announcement and starts as a bootstrap node
      ([Join.join_before_listen]); the answer to the announcement is never
      looked at, so a refused [update_predecessor] still leaves the
      successor set ([Join.join_ignores_announce]); the command line's
      error exits ([Join.main_errors]).
    - Store: insert/query and delete/query round trips, errors on non-str
      keys, and refinement of the dict keyed by raw strings on every
      sequence of operations whose keys the hash separates
      ([Store.store_refines_abstract]).
    - Threads: store requests on distinct keys behave, under any
      schedule, as if each ran alone
      ([Concurrency.interleaving_as_if_alone]); on one key the
      test-then-act handlers race: a concurrent [delete] makes a second
      [delete] or a [query] raise [KeyError] and drop its connection
      ([delete_delete_race], [query_delete_race]).  Across the whole
      network, store requests on distinct (node, key) pairs served by the
      threads of all nodes behave as if alone
      ([Server.system_as_if_alone]).  In every state of a run of
      the whole system, threads half-way included, the network is a star,
      stored values and successors are well-formed and every answer a
      thread has sent is a status dict ([System.reachable_system_safe]).
    - Process exit: with processes exiting on SIGINT at any point, every
      listening node stays bound to its own address with its
      [generate_id] id, the typing holds and no handler thread outlives
      its process ([Lifecycle.reachable_lifecycle_safe]); no step changes
      the successor of a node that keeps listening
      ([Lifecycle.lstep_keeps_successor]), so a dead successor is never
      repaired, and a node whose successor died answers [find_successor]
      with [success] naming the dead node for ids up to its id, and with
      the refused forward's error dict otherwise
      ([Lifecycle.dead_successor_answers]).
    - Routing decision: every branch of [find_successor]: the
      self-successor test, the plain numeric interval test (which never
      holds across the wrap-around of the identifier circle), its
      errors.
    - Wire and dispatcher: [json.loads] inverts [json.dumps] on
      well-formed values and a message of at most 1024 bytes arrives intact
      ([Wire.message_delivered]); a longer request is cut, never parses,
      and is dropped without an answer ([Network.long_request_dropped]);
      unknown commands (["shutdown"] included, although the docstring of
      [process_request] lists it) are answered with an error dict; an
      empty message, a byte that never occurs in UTF-8, or a document
      starting with a character that starts no JSON value is dropped
      ([Network.handle_malformed]), exactly the inputs CPython rejects
      too: the model's decoder and scanner also fail beyond the model
      (floats, code points above U+00FF), so the theorem is not stated
      for every input on which they fail.
    - Identity: the id is the big-endian value of the 20-byte digest
      (so [% 2**160] is the identity).

    ** Bounds and fuel

    - [Network.handle_request] takes fuel, one unit per connection in a
      forwarding chain; [None] is fuel exhausted.  More fuel never changes
      an answer ([handle_request_serve_le]), so [None] for every fuel is an
      endless chain, and the answers in reachable networks need fuel 2.
    - [loads] runs its mutually recursive scanner with fuel
      [2 * length + 2], enough for any document ([jsize_dumps]); [z_dec]
      uses [Pos.size_nat] divisions by ten, enough for every digit.
    - [Ring.short_ip]: the star shape holds for IP strings of any length:
      an answer too long for the caller's [recv(1024)] is cut, never
      parses and becomes an error dict.  The theorems that name the
      answers exactly ([Topology.reachable_find_successor],
      [Join.join_links]) assume IP strings of at most 45 characters (the
      longest textual IPv6 address).  With ids below [2^160] (49 digits)
      and ports below 65536, every protocol message then fits in one
      [recv(1024)] ([fs_success_fits], [update_request_fits]).

    ** Not modelled

    - Threads beyond the store handlers: [find_successor] (with its
      forwarding connection) and [update_predecessor] are handled
      atomically.  The first reads only [successor], which no handler
      writes; the second is a single attribute store of [predecessor],
      which no handler reads (the last writer wins).  [join] completes
      before the server starts, so no handler interleaves with it.
    - Socket behaviour beyond the checks the code depends on:
      - a message arrives in one [recv], with no partial reads;
      - no timeouts;
      - every IP string can be bound (no [EADDRNOTAVAIL]);
      - the only connection error is refusal of an unbound address.
    - Process I/O: the keep-alive loop (37-38) only sleeps until the
      signal, which [Lifecycle.lstep] lets arrive at any point; the
      [print]s and [traceback] are console output.  A SIGINT that arrives
      before [signal.signal] has run (during [join]) raises
      [KeyboardInterrupt] in the constructor instead: such a process has
      not started listening, so it changes no network.  One that arrives
      between lines 31 and 34 ends only the main thread; the non-daemon
      server thread keeps listening, as a node of [Lifecycle.lstep] that
      never exits.
    - JSON floats and code points of 256 and above.
    - Dead code: [join_network] (232-235) is never called; the body of
      the commented-out [shutdown] (219-230) follows [delete]'s last
      [return] and is unreachable.

    ** Plan

    Next:
    - the routing handlers as threads too: [find_successor]'s forwarding
      connection as a thread blocked on its callee, so that forwarding
      chains interleave with store handlers step by step.
      *)

From stdpp Require Export base list gmap strings.
From Stdlib Require Export ZArith Lia Ascii.

(** ** Python exceptions

    Every failure of the node is a Python exception: its class name and the
    text [str(e)] that [send_request] copies into its error response. *)
Record py_exc := PyExc { exc_type : string; exc_msg : string }.

(** ** The result of a Python computation: a value or a raised exception *)
Inductive res (A : Type) : Type :=
| Ok (a : A)
| Raise (e : py_exc).
Arguments Ok {A} a.
Arguments Raise {A} e.

#[export] Instance res_ret : MRet res := @Ok.
#[export] Instance res_bind : MBind res := fun A B f m =>
  match m with Ok a => f a | Raise e => Raise e end.
#[export] Instance res_fmap : FMap res := fun A B f m =>
  match m with Ok a => Ok (f a) | Raise e => Raise e end.

Declare Scope py_scope.
Delimit Scope py_scope with py.
Open Scope py_scope.

(** [raise! C msg] is Python's [raise C(msg)]. *)
Notation "'raise!' C msg" := (Raise (PyExc C msg))
  (at level 10, C at next level, msg at next level) : py_scope.

(** The exception classes the node raises or catches. *)
Definition TypeError := "TypeError".
Definition KeyError := "KeyError".
Definition AttributeError := "AttributeError".
Definition JSONDecodeError := "JSONDecodeError".
Definition UnicodeDecodeError := "UnicodeDecodeError".
Definition ConnectionRefusedError := "ConnectionRefusedError".
Definition OverflowError := "OverflowError".
Definition ValueError := "ValueError".

(** ** Generic lemmas on [res] *)
Create HintDb chord discriminated.
Create Rewrite HintDb chord_rw.

Lemma res_bind_Ok {A B} (a : A) (f : A -> res B) : (Ok a ≫= f) = f a.
Proof. reflexivity. Qed.

Lemma res_bind_Raise {A B} (e : py_exc) (f : A -> res B) : (Raise e ≫= f) = Raise e.
Proof. reflexivity. Qed.

Lemma res_bind_Ok_inv {A B} (m : res A) (f : A -> res B) (b : B) :
  (m ≫= f) = Ok b -> exists a, m = Ok a /\ f a = Ok b.
Proof. destruct m; simpl; [eauto | discriminate]. Qed.

Lemma res_bind_Raise_inv {A B} (m : res A) (f : A -> res B) (e : py_exc) :
  (m ≫= f) = Raise e -> m = Raise e \/ exists a, m = Ok a /\ f a = Raise e.
Proof. destruct m; simpl; [right; eauto | left; congruence]. Qed.

#[export] Hint Rewrite @res_bind_Ok @res_bind_Raise : chord_rw.

(** [res_inv] decomposes hypotheses of the shape [(m ≫= f) = Ok b]. *)
Ltac res_inv :=
  repeat match goal with
  | H : (_ ≫= _) = Ok _ |- _ =>
      apply res_bind_Ok_inv in H; destruct H as (? & ? & ?)
  | H : Ok _ = Ok _ |- _ => injection H as H
  | H : Ok _ = Raise _ |- _ => discriminate H
  | H : Raise _ = Ok _ |- _ => discriminate H
  end.

(** ** Generic lemmas on strings and numbers *)
(** stdpp makes [String.append] opaque to [simpl]; it is made to reduce
    again on a literal left operand, and these two equations are its
    computation rules. *)
#[global] Arguments String.append : simpl nomatch.

Lemma string_app_nil (b : string) : "" +:+ b = b.
Proof. reflexivity. Qed.

Lemma string_app_cons (x : ascii) (a b : string) :
  String x a +:+ b = String x (a +:+ b).
Proof. reflexivity. Qed.

#[export] Hint Rewrite string_app_nil string_app_cons : chord_rw.

Lemma string_app_assoc (a b c : string) :
  (a +:+ b) +:+ c = a +:+ (b +:+ c).
Proof. induction a as [|x a IH]; [done | rewrite !string_app_cons; congruence]. Qed.

Lemma string_length_app (a b : string) :
  String.length (a +:+ b) = (String.length a + String.length b)%nat.
Proof. induction a as [|x a IH]; [done | rewrite string_app_cons; simpl; lia]. Qed.

#[export] Hint Rewrite string_app_assoc string_length_app : chord_rw.

(** [case_zbools] splits every boolean comparison on [Z] in the goal into
    its two cases, and closes the cases [lia] refutes. *)
Ltac case_zbools :=
  repeat match goal with
  | |- context [Z.leb ?a ?b] => destruct (Z.leb_spec a b)
  | |- context [Z.ltb ?a ?b] => destruct (Z.ltb_spec a b)
  | |- context [Z.eqb ?a ?b] => destruct (Z.eqb_spec a b)
  end; simpl; try (exfalso; lia).

(** ** Invariants of a reflexive-transitive closure *)

(** A property that holds initially and that every step preserves holds
    of every state a run reaches (rule induction on [rtc]). *)
Lemma rtc_invariant {A} (R : relation A) (P : A -> Prop) (x y : A) :
  P x -> (forall a b, P a -> R a b -> P b) -> rtc R x y -> P y.
Proof. intros Hx Hs Hr. induction Hr as [|a b c Hab _ IH]; [done|]. by apply IH, (Hs a). Qed.
