(* ===== verification/Json.v ===== *)
(** * Python objects exchanged on the wire, and the Python operations on them

    [json] is the set of Python values that [json.loads] produces and that
    [json.dumps] accepts in [src/node.py]: [None], booleans, integers,
    strings, lists and dicts with string keys.  Floats are not modelled
    (the node never produces one).  Strings are Coq strings whose
    characters stand for the code points U+0000..U+00FF.

    The file also holds the Python semantics of the operations the node
    applies to such values: [request.get(k)], [d[k]], the comparisons
    [<], [<=], [==], [str(v)] inside f-strings, and [json.dumps]. *)

From S2P Require Import Prelude.

Local Open Scope Z_scope.
#[local] Set Warnings "-register-all".

Inductive json : Type :=
| JNull
| JBool (b : bool)
| JInt (z : Z)
| JStr (s : string)
| JList (l : list json)
| JDict (kvs : list (string * json)).

(** Structural induction through the nested lists. *)
Section json_ind'.
Variable P : json -> Prop.
Hypothesis HNull : P JNull.
Hypothesis HBool : forall b, P (JBool b).
Hypothesis HInt : forall z, P (JInt z).
Hypothesis HStr : forall s, P (JStr s).
Hypothesis HList : forall l, Forall P l -> P (JList l).
Hypothesis HDict : forall kvs, Forall (fun kv => P kv.2) kvs -> P (JDict kvs).

Fixpoint json_ind' (v : json) : P v :=
  match v with
  | JNull => HNull
  | JBool b => HBool b
  | JInt z => HInt z
  | JStr s => HStr s
  | JList l =>
      HList l ((fix go (l : list json) : Forall P l :=
                  match l with
                  | [] => Forall_nil_2 _
                  | x :: r => Forall_cons_2 _ _ _ (json_ind' x) (go r)
                  end) l)
  | JDict kvs =>
      HDict kvs ((fix go (kvs : list (string * json))
                    : Forall (fun kv => P kv.2) kvs :=
                  match kvs with
                  | [] => Forall_nil_2 _
                  | kv :: r => Forall_cons_2 _ _ _ (json_ind' kv.2) (go r)
                  end) kvs)
  end.
End json_ind'.

(** ** Characters and numbers as text *)

Definition ord (c : ascii) : Z := Z.of_N (Ascii.N_of_ascii c).
Definition chr (n : Z) : ascii := Ascii.ascii_of_N (Z.to_N n).

Definition hex_digit (n : Z) : ascii :=
  chr (if Z.ltb n 10 then 48 + n else 87 + n).

(** The value of a hex digit [0-9a-fA-F]. *)
Definition hex_val (c : ascii) : option Z :=
  let n := ord c in
  if (Z.leb 48 n && Z.leb n 57) then Some (n - 48)
  else if (Z.leb 97 n && Z.leb n 102) then Some (n - 87)
  else if (Z.leb 65 n && Z.leb n 70) then Some (n - 55)
  else None.

(** ['{0:02x}'.format(n)] and ['{0:04x}'.format(n)] for [0 <= n < 256]. *)
Definition hex2 (n : Z) : string :=
  String (hex_digit (n / 16)) (String (hex_digit (n mod 16)) EmptyString).
Definition hex4 (n : Z) : string := String "0" (String "0" (hex2 n)).

(** Decimal digits of [n >= 0], most significant first; [fuel] bounds
    the number of divisions by ten. *)
Fixpoint dec_digits (fuel : nat) (n : Z) : list Z :=
  match fuel with
  | O => [n]
  | S f => if Z.ltb n 10 then [n] else dec_digits f (n / 10) ++ [n mod 10]
  end.

Definition digit_char (d : Z) : ascii := chr (48 + d).

Fixpoint digits_str (ds : list Z) : string :=
  match ds with
  | [] => EmptyString
  | d :: r => String (digit_char d) (digits_str r)
  end.

(** [str(z)] for a Python int: decimal digits, a leading [-] if negative.
    A positive [p] has at most [Pos.size_nat p] decimal digits. *)
Definition z_dec (z : Z) : string :=
  match z with
  | Z0 => "0"
  | Zpos p => digits_str (dec_digits (Pos.size_nat p) (Zpos p))
  | Zneg p => String "-" (digits_str (dec_digits (Pos.size_nat p) (Zpos p)))
  end.

(** ** [repr] and [str] *)

Definition py_type_name (v : json) : string :=
  match v with
  | JNull => "NoneType" | JBool _ => "bool" | JInt _ => "int"
  | JStr _ => "str" | JList _ => "list" | JDict _ => "dict"
  end.

(** The double-quote and backslash characters. *)
Definition dq : ascii := "034"%char.
Definition bsl : ascii := "092"%char.

Definition has_char (c : ascii) (s : string) : bool :=
  existsb (fun d => bool_decide (d = c)) (String.list_ascii_of_string s).

(** Latin-1 code points that [str.isprintable] rejects. *)
Definition latin1_unprintable (n : Z) : bool :=
  (Z.ltb n 32) || ((Z.leb 127 n) && (Z.leb n 160)) || Z.eqb n 173.

(** [repr(s)] for a str: the quote is the apostrophe unless [s] holds an
    apostrophe and no double quote. *)
Definition repr_char (q c : ascii) : string :=
  if bool_decide (c = q) || bool_decide (c = bsl) then String bsl (String c EmptyString)
  else if bool_decide (c = "009"%char) then "\t"
  else if bool_decide (c = "010"%char) then "\n"
  else if bool_decide (c = "013"%char) then "\r"
  else if latin1_unprintable (ord c) then String "\" (String "x" (hex2 (ord c)))
  else String c EmptyString.

Fixpoint repr_chars (q : ascii) (s : string) : string :=
  match s with
  | EmptyString => EmptyString
  | String c r => repr_char q c +:+ repr_chars q r
  end.

Definition py_repr_str (s : string) : string :=
  let q := if has_char "'" s && negb (has_char dq s) then dq else "'"%char in
  String q (repr_chars q s +:+ String q EmptyString).

Fixpoint join_with (sep : string) (l : list string) : string :=
  match l with
  | [] => EmptyString
  | [x] => x
  | x :: r => x +:+ sep +:+ join_with sep r
  end.

Fixpoint py_repr (v : json) : string :=
  match v with
  | JNull => "None"
  | JBool true => "True"
  | JBool false => "False"
  | JInt z => z_dec z
  | JStr s => py_repr_str s
  | JList l => "[" +:+ join_with ", " (map py_repr l) +:+ "]"
  | JDict kvs =>
      "{" +:+ join_with ", "
        (map (fun kv => py_repr_str kv.1 +:+ ": " +:+ py_repr kv.2) kvs) +:+ "}"
  end.

(** [str(v)], i.e. what [f"{v}"] inserts. *)
Definition py_str (v : json) : string :=
  match v with JStr s => s | _ => py_repr v end.

(** ** Dict access *)

Fixpoint dict_lookup (k : string) (kvs : list (string * json)) : option json :=
  match kvs with
  | [] => None
  | (k', v) :: r => if String.eqb k' k then Some v else dict_lookup k r
  end.

(** [d.get(k)]: [None] when absent; only dicts have [get]. *)
Definition py_get (d : json) (k : string) : res json :=
  match d with
  | JDict kvs => Ok (default JNull (dict_lookup k kvs))
  | _ => raise! AttributeError
           ("'" +:+ py_type_name d +:+ "' object has no attribute 'get'")
  end.

(** [d[k]] with a str key. *)
Definition py_getitem (d : json) (k : string) : res json :=
  match d with
  | JDict kvs =>
      match dict_lookup k kvs with
      | Some v => Ok v
      | None => raise! KeyError (py_repr_str k)
      end
  | JList _ => raise! TypeError "list indices must be integers or slices, not str"
  | JStr _ => raise! TypeError "string indices must be integers, not 'str'"
  | _ => raise! TypeError ("'" +:+ py_type_name d +:+ "' object is not subscriptable")
  end.

(** ** Comparisons *)

(** The numeric value of an int or a bool ([True == 1] in Python). *)
Definition py_num (v : json) : option Z :=
  match v with
  | JInt z => Some z
  | JBool b => Some (if b then 1 else 0)
  | _ => None
  end.

Definition cmp_error (op : string) (a b : json) : py_exc :=
  PyExc TypeError ("'" +:+ op +:+ "' not supported between instances of '"
                   +:+ py_type_name a +:+ "' and '" +:+ py_type_name b +:+ "'").

(** [a < b] and [a <= b] where one side is an int: defined on numbers,
    a [TypeError] otherwise. *)
Definition py_lt (a b : json) : res bool :=
  match py_num a, py_num b with
  | Some x, Some y => Ok (Z.ltb x y)
  | _, _ => Raise (cmp_error "<" a b)
  end.

Definition py_le (a b : json) : res bool :=
  match py_num a, py_num b with
  | Some x, Some y => Ok (Z.leb x y)
  | _, _ => Raise (cmp_error "<=" a b)
  end.

(** [v == z] for an int [z]. *)
Definition py_eq_int (v : json) (z : Z) : bool :=
  match py_num v with Some x => Z.eqb x z | None => false end.

(** [v == "s"]. *)
Definition py_eq_str (v : json) (s : string) : bool :=
  match v with JStr t => String.eqb t s | _ => false end.

(** ** [int(s)] of a str, base 10

    [str.isspace] on code points below 256, the blanks [int] strips. *)
Definition py_isspace (c : ascii) : bool :=
  let n := ord c in
  ((9 <=? n) && (n <=? 13)) || ((28 <=? n) && (n <=? 32)) || (n =? 133) || (n =? 160).

Fixpoint lstrip_list (l : list ascii) : list ascii :=
  match l with
  | c :: r => if py_isspace c then lstrip_list r else l
  | [] => []
  end.

Definition py_strip (s : string) : string :=
  String.string_of_list_ascii (rev (lstrip_list (rev (lstrip_list (String.list_ascii_of_string s))))).

(** The digits of a literal, a single [_] allowed between two digits;
    [after_digit] tells whether the previous character was a digit. *)
Fixpoint dec_literal (acc : Z) (after_digit : bool) (s : string) : option Z :=
  match s with
  | EmptyString => if after_digit then Some acc else None
  | String c r =>
      if (48 <=? ord c) && (ord c <=? 57) then dec_literal (acc * 10 + (ord c - 48)) true r
      else if bool_decide (c = "_"%char) && after_digit then dec_literal acc false r
      else None
  end.

(** [int(s)]: blanks stripped, an optional sign, decimal digits with
    single underscores between them; anything else raises [ValueError].
    (The 4300-digit limit of recent CPython versions is not modelled.) *)
Definition py_int (s : string) : res Z :=
  let t := py_strip s in
  let '(sign, body) :=
    match t with
    | String "-" r => (-1, r)
    | String "+" r => (1, r)
    | _ => (1, t)
    end in
  match dec_literal 0 false body with
  | Some n => Ok (sign * n)
  | None => raise! ValueError ("invalid literal for int() with base 10: " +:+ py_repr_str s)
  end.

(** ** [json.dumps] with its defaults ([ensure_ascii=True], separators
    [", "] and [": "]). *)

Definition dumps_char (c : ascii) : string :=
  if bool_decide (c = bsl) then String bsl (String bsl EmptyString)
  else if bool_decide (c = dq) then String bsl (String dq EmptyString)
  else if bool_decide (c = "010"%char) then "\n"
  else if bool_decide (c = "013"%char) then "\r"
  else if bool_decide (c = "009"%char) then "\t"
  else if bool_decide (c = "008"%char) then "\b"
  else if bool_decide (c = "012"%char) then "\f"
  else if Z.ltb (ord c) 32 || Z.leb 127 (ord c) then "\u" +:+ hex4 (ord c)
  else String c EmptyString.

Fixpoint dumps_chars (s : string) : string :=
  match s with
  | EmptyString => EmptyString
  | String c r => dumps_char c +:+ dumps_chars r
  end.

Definition dumps_str (s : string) : string :=
  String dq (dumps_chars s +:+ String dq EmptyString).

Fixpoint dumps (v : json) : string :=
  match v with
  | JNull => "null"
  | JBool true => "true"
  | JBool false => "false"
  | JInt z => z_dec z
  | JStr s => dumps_str s
  | JList l => "[" +:+ join_with ", " (map dumps l) +:+ "]"
  | JDict kvs =>
      "{" +:+ join_with ", " (map (fun kv => dumps_str kv.1 +:+ ": " +:+ dumps kv.2) kvs)
      +:+ "}"
  end.

(** ** Response dicts built by the node *)
Definition status_success := ("status", JStr "success").
Definition status_error := ("status", JStr "error").

Definition success_message (m : string) : json :=
  JDict [status_success; ("message", JStr m)].
Definition error_message (m : string) : json :=
  JDict [status_error; ("message", JStr m)].

(** ** Well-formed values and their size *)

(** Every dict the node handles is a Python dict: its keys are distinct. *)
Fixpoint wf_json (v : json) : Prop :=
  match v with
  | JList l =>
      (fix go (l : list json) : Prop :=
         match l with [] => True | x :: r => wf_json x /\ go r end) l
  | JDict kvs =>
      NoDup (map fst kvs) /\
      (fix go (kvs : list (string * json)) : Prop :=
         match kvs with [] => True | kv :: r => wf_json kv.2 /\ go r end) kvs
  | _ => True
  end.

(** The same check as a boolean, for messages of a known shape. *)
Fixpoint wf_jsonb (v : json) : bool :=
  match v with
  | JList l =>
      (fix go (l : list json) : bool :=
         match l with [] => true | x :: r => wf_jsonb x && go r end) l
  | JDict kvs =>
      bool_decide (NoDup (map fst kvs)) &&
      (fix go (kvs : list (string * json)) : bool :=
         match kvs with [] => true | kv :: r => wf_jsonb kv.2 && go r end) kvs
  | _ => true
  end.

(** The number of scanner calls [json.loads] makes on [dumps v]. *)
Fixpoint jsize (v : json) : nat :=
  match v with
  | JList l => 2 + list_sum (map (fun x => S (jsize x)) l)
  | JDict kvs => 2 + list_sum (map (fun kv => S (jsize kv.2)) kvs)
  | _ => 1
  end.

(** ** Characters as code points *)

Lemma ord_range (c : ascii) : 0 <= ord c < 256.
Proof. unfold ord. pose proof (Ascii.N_ascii_bounded c). lia. Qed.

Lemma chr_ord (c : ascii) : chr (ord c) = c.
Proof. unfold chr, ord. rewrite N2Z.id. apply Ascii.ascii_N_embedding. Qed.

Lemma ord_chr (n : Z) : 0 <= n < 256 -> ord (chr n) = n.
Proof.
  intros Hn. unfold chr, ord. rewrite Ascii.N_ascii_embedding by lia. lia.
Qed.

Lemma ord_inj (c d : ascii) : ord c = ord d -> c = d.
Proof. intros H. by rewrite <- (chr_ord c), <- (chr_ord d), H. Qed.
