(* ===== verification/Sha1.v ===== *)
(** * SHA-1 (FIPS 180-4), the digest behind [hashlib.sha1]

    [src/node.py] derives every identifier with [hashlib.sha1].  The digest
    is a library function the node only calls; it is written out here so
    that identifiers compute on concrete inputs.  Bytes are integers in
    [0, 256), words are 32-bit integers in [0, 2^32) with their wrap-around
    written out. *)

From S2P Require Import Prelude.

Local Open Scope Z_scope.

Module Sha1.

Definition mask32 : Z := Z.ones 32.
Definition add32 (a b : Z) : Z := (a + b) mod 2 ^ 32.
Definition rotl (n x : Z) : Z :=
  Z.land (Z.lor (Z.shiftl x n) (Z.shiftr x (32 - n))) mask32.
Definition not32 (x : Z) : Z := Z.lxor x mask32.

(** The round function and constant of round [t]. *)
Definition f (t : nat) (b c d : Z) : Z :=
  if (t <? 20)%nat then Z.lor (Z.land b c) (Z.land (not32 b) d)
  else if (t <? 40)%nat then Z.lxor b (Z.lxor c d)
  else if (t <? 60)%nat then Z.lor (Z.lor (Z.land b c) (Z.land b d)) (Z.land c d)
  else Z.lxor b (Z.lxor c d).

Definition K (t : nat) : Z :=
  if (t <? 20)%nat then 0x5A827999
  else if (t <? 40)%nat then 0x6ED9EBA1
  else if (t <? 60)%nat then 0x8F1BBCDC
  else 0xCA62C1D6.

(** Big-endian words of a block, and the 80-word message schedule. *)
Fixpoint be_words (n : nat) (bs : list Z) : list Z :=
  match n with
  | O => []
  | S n' =>
      match bs with
      | b0 :: b1 :: b2 :: b3 :: r =>
          (b0 * 2 ^ 24 + b1 * 2 ^ 16 + b2 * 2 ^ 8 + b3) :: be_words n' r
      | _ => []
      end
  end.

(** [schedule_rev k ws]: extends the reversed schedule [ws] by [k] words,
    [W t = rotl 1 (W (t-3) xor W (t-8) xor W (t-14) xor W (t-16))]. *)
Fixpoint schedule_rev (k : nat) (ws : list Z) : list Z :=
  match k with
  | O => ws
  | S k' =>
      let w := rotl 1 (Z.lxor (nth 2 ws 0) (Z.lxor (nth 7 ws 0)
                 (Z.lxor (nth 13 ws 0) (nth 15 ws 0)))) in
      schedule_rev k' (w :: ws)
  end.

Definition schedule (block : list Z) : list Z :=
  rev (schedule_rev 64 (rev (be_words 16 block))).

Record state := St { h0 : Z; h1 : Z; h2 : Z; h3 : Z; h4 : Z }.

Definition H0 : state := St 0x67452301 0xEFCDAB89 0x98BADCFE 0x10325476 0xC3D2E1F0.

(** The 80 rounds over the working variables [a..e]. *)
Fixpoint rounds (t : nat) (ws : list Z) (s : state) : state :=
  match ws with
  | [] => s
  | w :: ws' =>
      let '(St a b c d e) := s in
      let T := add32 (add32 (add32 (add32 (rotl 5 a) (f t b c d)) e) (K t)) w in
      rounds (S t) ws' (St T a (rotl 30 b) c d)
  end.

Definition compress (s : state) (block : list Z) : state :=
  let '(St a b c d e) := rounds 0 (schedule block) s in
  St (add32 (h0 s) a) (add32 (h1 s) b) (add32 (h2 s) c) (add32 (h3 s) d) (add32 (h4 s) e).

Fixpoint process (n : nat) (s : state) (msg : list Z) : state :=
  match n with
  | O => s
  | S n' => process n' (compress s (firstn 64 msg)) (skipn 64 msg)
  end.

(** Big-endian bytes of a [k]-byte number. *)
Fixpoint be_bytes (k : nat) (x : Z) : list Z :=
  match k with
  | O => []
  | S k' => be_bytes k' (x / 256) ++ [x mod 256]
  end.

(** Padding: [0x80], zeros up to 56 mod 64, the 64-bit bit length. *)
Definition pad (msg : list Z) : list Z :=
  let l := length msg in
  let z := ((119 - l mod 64) mod 64)%nat in
  msg ++ [0x80] ++ repeat 0 z ++ be_bytes 8 (8 * Z.of_nat l).

Definition digest (msg : list Z) : list Z :=
  let p := pad msg in
  let '(St a b c d e) := process (length p / 64) H0 p in
  be_bytes 4 a ++ be_bytes 4 b ++ be_bytes 4 c ++ be_bytes 4 d ++ be_bytes 4 e.

End Sha1.

(** ** The digest has 20 bytes, each in [0, 256) *)

Lemma length_be_bytes (k : nat) (x : Z) : length (Sha1.be_bytes k x) = k.
Proof.
  revert x; induction k as [|k IH]; intros x; simpl; [done|].
  rewrite length_app, IH; simpl; lia.
Qed.

Lemma be_bytes_range (k : nat) (x : Z) :
  Forall (fun b => 0 <= b < 256) (Sha1.be_bytes k x).
Proof.
  revert x; induction k as [|k IH]; intros x; simpl; [constructor|].
  apply Forall_app; split; [apply IH|].
  constructor; [apply Z.mod_pos_bound; lia | constructor].
Qed.

(** The digest is the five chaining words, big-endian. *)
Lemma sha1_digest_shape (msg : list Z) : exists a b c d e,
  Sha1.digest msg = Sha1.be_bytes 4 a ++ Sha1.be_bytes 4 b ++ Sha1.be_bytes 4 c
                    ++ Sha1.be_bytes 4 d ++ Sha1.be_bytes 4 e.
Proof.
  unfold Sha1.digest.
  destruct (Sha1.process (length (Sha1.pad msg) / 64) Sha1.H0 (Sha1.pad msg))
    as [a b c d e].
  by exists a, b, c, d, e.
Qed.

Lemma sha1_digest_length (msg : list Z) : length (Sha1.digest msg) = 20%nat.
Proof.
  destruct (sha1_digest_shape msg) as (a & b & c & d & e & ->).
  rewrite !length_app, !length_be_bytes. reflexivity.
Qed.

Lemma sha1_digest_range (msg : list Z) :
  Forall (fun b => 0 <= b < 256) (Sha1.digest msg).
Proof.
  destruct (sha1_digest_shape msg) as (a & b & c & d & e & ->).
  rewrite !Forall_app; repeat split; apply be_bytes_range.
Qed.
