(* ===== verification/Identity.v ===== *)
(** * Identity: node identifiers and hashed keys

    [ChordNode.generate_id] (src/node.py:46-49) and the key hash repeated in
    [insert], [query] and [delete] (src/node.py:199, 205, 212) both compute
    [int(hashlib.sha1(s.encode()).hexdigest(), 16) % (2**160)].  Here:
    [utf8_encode] is [str.encode()], [hexdigest] and [int_of_hex] are the
    hex round trip, and [sha1_int] is the whole expression.  The theorems
    show that the round trip yields the big-endian value of the digest and
    that the [% (2**160)] never changes it. *)

From S2P Require Import Prelude Json Sha1.

Local Open Scope Z_scope.

(** [str.encode()]: UTF-8 of code points below 256. *)
Definition utf8_char (c : ascii) : list Z :=
  let n := ord c in
  if Z.ltb n 128 then [n]
  else [Z.lor 192 (Z.shiftr n 6); Z.lor 128 (Z.land n 63)].

Fixpoint utf8_encode (s : string) : list Z :=
  match s with
  | EmptyString => []
  | String c r => utf8_char c ++ utf8_encode r
  end.

(** [bytes.hexdigest()]: two lowercase hex digits per byte. *)
Fixpoint hexdigest (bs : list Z) : string :=
  match bs with
  | [] => EmptyString
  | b :: r => hex2 b +:+ hexdigest r
  end.

Fixpoint hex_fold (acc : Z) (s : string) : option Z :=
  match s with
  | EmptyString => Some acc
  | String c r =>
      match hex_val c with
      | Some d => hex_fold (acc * 16 + d) r
      | None => None
      end
  end.

(** [int(s, 16)] on a string of hex digits; [None] stands for the
    [ValueError] Python raises on any other string (signs, blanks,
    underscores and the [0x] prefix, which a hexdigest never holds, are
    not modelled). *)
Definition int_of_hex (s : string) : option Z :=
  match s with
  | EmptyString => None
  | _ => hex_fold 0 s
  end.

(** The big-endian value of a byte string. *)
Definition be_value (bs : list Z) : Z := fold_left (fun acc b => acc * 256 + b) bs 0.

(** [int(hashlib.sha1(data).hexdigest(), 16) % (2**160)]. *)
Definition sha1_int (data : list Z) : Z :=
  match int_of_hex (hexdigest (Sha1.digest data)) with
  | Some n => n mod 2 ^ 160
  | None => 0
  end.

(** [generate_id(ip, port)]: the digest of [f"{ip}:{port}".encode()]. *)
Definition generate_id (ip : string) (port : Z) : Z :=
  sha1_int (utf8_encode (ip +:+ ":" +:+ z_dec port)).

(** The hashed key of [insert], [query] and [delete]. *)
Definition hash_key (key : string) : Z := sha1_int (utf8_encode key).

(** ** Lemmas *)

Lemma hex_val_digit (n : Z) : 0 <= n < 16 -> hex_val (hex_digit n) = Some n.
Proof.
  intros Hn. unfold hex_val, hex_digit.
  destruct (Z.ltb_spec n 10); rewrite ord_chr by lia; case_zbools; f_equal; lia.
Qed.

Lemma hex_fold_app (acc : Z) (s t : string) :
  hex_fold acc (s +:+ t) = hex_fold acc s ≫= fun acc' => hex_fold acc' t.
Proof.
  revert acc; induction s as [|c s IH]; intros acc; [done|].
  rewrite string_app_cons; simpl. destruct (hex_val c); [apply IH | done].
Qed.

Lemma hex_fold_hex2 (acc b : Z) : 0 <= b < 256 ->
  hex_fold acc (hex2 b) = Some (acc * 256 + b).
Proof.
  intros Hb. unfold hex2; simpl.
  rewrite !hex_val_digit
    by ((split; [apply Z.div_pos | apply Z.div_lt_upper_bound])
        || apply Z.mod_pos_bound; lia).
  simpl. f_equal. rewrite (Z.div_mod b 16) at 3 by lia. lia.
Qed.

Lemma hex_fold_hexdigest (acc : Z) (bs : list Z) :
  Forall (fun b => 0 <= b < 256) bs ->
  hex_fold acc (hexdigest bs) = Some (fold_left (fun a b => a * 256 + b) bs acc).
Proof.
  revert acc; induction bs as [|b bs IH]; intros acc Hbs; [done|].
  inversion Hbs; subst. cbn [hexdigest fold_left].
  rewrite hex_fold_app, hex_fold_hex2 by done. by apply IH.
Qed.

Lemma be_value_bound_gen (bs : list Z) (acc : Z) :
  Forall (fun b => 0 <= b < 256) bs -> 0 <= acc ->
  0 <= fold_left (fun a b => a * 256 + b) bs acc < (acc + 1) * 256 ^ Z.of_nat (length bs).
Proof.
  revert acc; induction bs as [|b bs IH]; intros acc Hbs Hacc; simpl; [lia|].
  inversion Hbs; subst.
  specialize (IH (acc * 256 + b) ltac:(done) ltac:(lia)).
  rewrite Nat2Z.inj_succ, Z.pow_succ_r by lia. nia.
Qed.

Lemma be_value_bound (bs : list Z) :
  Forall (fun b => 0 <= b < 256) bs -> 0 <= be_value bs < 256 ^ Z.of_nat (length bs).
Proof. intros H. pose proof (be_value_bound_gen bs 0 H ltac:(lia)). unfold be_value. lia. Qed.

Lemma int_of_hex_hexdigest (bs : list Z) :
  bs <> [] -> Forall (fun b => 0 <= b < 256) bs ->
  int_of_hex (hexdigest bs) = Some (be_value bs).
Proof.
  intros Hne Hbs. destruct bs as [|b bs]; [done|].
  assert (hexdigest (b :: bs) <> EmptyString) as Hs.
  { inversion Hbs; subst. cbn [hexdigest]. unfold hex2. by rewrite string_app_cons. }
  unfold int_of_hex, be_value. rewrite <- (hex_fold_hexdigest 0 (b :: bs) Hbs).
  destruct (hexdigest (b :: bs)); [congruence | done].
Qed.

(** ** Theorems *)

(** The identifier expression [int(hashlib.sha1(data).hexdigest(), 16) %
    (2**160)] is the big-endian value of the 20-byte digest, which is below
    [2^160]. *)
Lemma sha1_int_value (data : list Z) :
  sha1_int data = be_value (Sha1.digest data) /\
  0 <= be_value (Sha1.digest data) < 2 ^ 160.
Proof.
  pose proof (sha1_digest_range data) as Hr.
  pose proof (be_value_bound _ Hr) as Hb.
  rewrite sha1_digest_length in Hb. change (256 ^ Z.of_nat 20) with (2 ^ 160) in Hb.
  split; [|done]. unfold sha1_int.
  rewrite int_of_hex_hexdigest by
    (done || (intros Hn; pose proof (sha1_digest_length data) as Hl;
              rewrite Hn in Hl; discriminate)).
  by apply Z.mod_small.
Qed.

Corollary generate_id_range (ip : string) (port : Z) :
  0 <= generate_id ip port < 2 ^ 160.
Proof. unfold generate_id. destruct (sha1_int_value (utf8_encode (ip +:+ ":" +:+ z_dec port))) as [-> ?]. done. Qed.

Corollary hash_key_range (key : string) : 0 <= hash_key key < 2 ^ 160.
Proof. unfold hash_key. destruct (sha1_int_value (utf8_encode key)) as [-> ?]. done. Qed.

(** C31: a node's id [generate_id(ip, port)] (lines 46-49) and the hashed
    key of lines 199, 205 and 212 are exactly the big-endian values of the
    20-byte SHA-1 digests of [f"{ip}:{port}".encode()] and [key.encode()]:
    the hex round trip loses nothing, and since the values are below
    [2^160] the [% (2**160)] of the source never changes them. *)
Theorem sha1_int_spec (ip : string) (port : Z) (key : string) :
  generate_id ip port = be_value (Sha1.digest (utf8_encode (ip +:+ ":" +:+ z_dec port))) /\
  0 <= generate_id ip port < 2 ^ 160 /\
  hash_key key = be_value (Sha1.digest (utf8_encode key)) /\
  0 <= hash_key key < 2 ^ 160.
Proof.
  unfold generate_id, hash_key.
  destruct (sha1_int_value (utf8_encode (ip +:+ ":" +:+ z_dec port))) as [-> ?].
  destruct (sha1_int_value (utf8_encode key)) as [-> ?]. done.
Qed.

