(* ===== verification/Store.v ===== *)
(** * The local key-value store

    [ChordNode.data_store] (src/node.py:17) is a dict from hashed keys to
    the values clients sent; [insert], [query] and [delete]
    (src/node.py:197-216) hash the key with [hash_key] and act on the dict.
    The store is [gmap Z json]; each operation takes the raw [key] and
    [value] fields of the request (any Python value: [request.get] returns
    [None] for a missing field) and returns the new dict with the response,
    or the exception the operation raises.

    Besides the behaviour of each operation on every branch, the file states
    an abstract store keyed by the raw key strings and proves that the
    hashed store refines it on every set of keys on which [hash_key] is
    injective. *)

From S2P Require Import Prelude Json Sha1 Identity.

Local Open Scope Z_scope.

Module Store.

(** [key.encode()]: only a str has [encode]. *)
Definition encode_key (key : json) : res string :=
  match key with
  | JStr s => Ok s
  | _ => raise! AttributeError
           ("'" +:+ py_type_name key +:+ "' object has no attribute 'encode'")
  end.

(** [insert(key, value)] (src/node.py:197-201). *)
Definition insert (ds : gmap Z json) (key value : json) : res (gmap Z json * json) :=
  k ← encode_key key;
  let hashed_key := hash_key k in
  Ok (<[hashed_key := value]> ds,
      success_message ("Inserted " +:+ k +:+ " -> " +:+ py_str value)).

(** [query(key)] (src/node.py:203-208); it does not change the dict. *)
Definition query (ds : gmap Z json) (key : json) : res json :=
  k ← encode_key key;
  let hashed_key := hash_key k in
  match ds !! hashed_key with
  | Some v => Ok (JDict [status_success; ("value", v)])
  | None => Ok (error_message "Key not found")
  end.

(** [delete(key)] (src/node.py:210-216).  The lines after its last
    [return] (src/node.py:219-230, a commented-out [shutdown] whose body
    stayed in [delete]) are unreachable. *)
Definition delete (ds : gmap Z json) (key : json) : res (gmap Z json * json) :=
  k ← encode_key key;
  let hashed_key := hash_key k in
  match ds !! hashed_key with
  | Some _ => Ok (base.delete hashed_key ds, success_message ("Deleted " +:+ k))
  | None => Ok (ds, error_message "Key not found")
  end.

(** A client session against one node: one operation per connection. *)
Inductive op :=
| OpInsert (key value : json)
| OpQuery (key : json)
| OpDelete (key : json).

(** A failed operation leaves the dict as it was (no response is sent:
    see [Network.handle_request]). *)
Definition step (ds : gmap Z json) (o : op) : gmap Z json * res json :=
  match o with
  | OpInsert k v => match insert ds k v with Ok (ds', r) => (ds', Ok r) | Raise e => (ds, Raise e) end
  | OpQuery k => (ds, query ds k)
  | OpDelete k => match delete ds k with Ok (ds', r) => (ds', Ok r) | Raise e => (ds, Raise e) end
  end.

Fixpoint run (ds : gmap Z json) (os : list op) : gmap Z json * list (res json) :=
  match os with
  | [] => (ds, [])
  | o :: os' => let '(ds1, r) := step ds o in
                let '(ds2, rs) := run ds1 os' in (ds2, r :: rs)
  end.

End Store.

(** ** The abstract store: a dict keyed by the raw key strings *)
Module AbsStore.

Definition insert (m : gmap string json) (key value : json) : res (gmap string json * json) :=
  k ← Store.encode_key key;
  Ok (<[k := value]> m, success_message ("Inserted " +:+ k +:+ " -> " +:+ py_str value)).

Definition query (m : gmap string json) (key : json) : res json :=
  k ← Store.encode_key key;
  match m !! k with
  | Some v => Ok (JDict [status_success; ("value", v)])
  | None => Ok (error_message "Key not found")
  end.

Definition delete (m : gmap string json) (key : json) : res (gmap string json * json) :=
  k ← Store.encode_key key;
  match m !! k with
  | Some _ => Ok (base.delete k m, success_message ("Deleted " +:+ k))
  | None => Ok (m, error_message "Key not found")
  end.

Definition step (m : gmap string json) (o : Store.op) : gmap string json * res json :=
  match o with
  | Store.OpInsert k v => match insert m k v with Ok (m', r) => (m', Ok r) | Raise e => (m, Raise e) end
  | Store.OpQuery k => (m, query m k)
  | Store.OpDelete k => match delete m k with Ok (m', r) => (m', Ok r) | Raise e => (m, Raise e) end
  end.

Fixpoint run (m : gmap string json) (os : list Store.op) : gmap string json * list (res json) :=
  match os with
  | [] => (m, [])
  | o :: os' => let '(m1, r) := step m o in
                let '(m2, rs) := run m1 os' in (m2, r :: rs)
  end.

End AbsStore.

(** ** Behaviour of each operation *)

Lemma encode_key_str (s : string) : Store.encode_key (JStr s) = Ok s.
Proof. reflexivity. Qed.

Lemma encode_key_not_str (key : json) :
  (forall s, key <> JStr s) ->
  Store.encode_key key =
    raise! AttributeError ("'" +:+ py_type_name key +:+ "' object has no attribute 'encode'").
Proof. intros H. destruct key; try reflexivity. by destruct (H s). Qed.

#[export] Hint Rewrite encode_key_str : chord_rw.

(** C4: store round trip: after [insert(k, v)], [query(k)] answers [v]. *)
Theorem insert_then_query (ds : gmap Z json) (k : string) (v : json) :
  exists ds' r, Store.insert ds (JStr k) v = Ok (ds', r) /\
    Store.query ds' (JStr k) = Ok (JDict [status_success; ("value", v)]).
Proof.
  eexists _, _; split; [reflexivity|].
  unfold Store.query; simpl. by rewrite lookup_insert_eq.
Qed.

(** C5: after [delete(k)] (whether [k] was present or not), [query(k)]
    answers ["Key not found"], and a second [delete(k)] answers
    ["Key not found"] and leaves the dict unchanged. *)
Theorem delete_then_query (ds : gmap Z json) (k : string) :
  exists ds' r, Store.delete ds (JStr k) = Ok (ds', r) /\
    Store.query ds' (JStr k) = Ok (error_message "Key not found") /\
    Store.delete ds' (JStr k) = Ok (ds', error_message "Key not found").
Proof.
  unfold Store.delete, Store.query; simpl.
  destruct (ds !! hash_key k) eqn:E; eexists _, _; (split; [reflexivity|]).
  - by rewrite !lookup_delete_eq.
  - by rewrite !E.
Qed.

(** C29: a key that is not a str makes every store operation raise the
    [AttributeError] of [key.encode()] (so the connection is dropped,
    see [Network.handle_request]) and leaves the dict unchanged. *)
Theorem store_ops_non_str_key (ds : gmap Z json) (key value : json) :
  (forall s, key <> JStr s) ->
  let e := PyExc AttributeError
             ("'" +:+ py_type_name key +:+ "' object has no attribute 'encode'") in
  Store.insert ds key value = Raise e /\ Store.query ds key = Raise e /\
  Store.delete ds key = Raise e /\
  Store.step ds (Store.OpInsert key value) = (ds, Raise e) /\
  Store.step ds (Store.OpDelete key) = (ds, Raise e).
Proof.
  intros Hk e. unfold Store.step, Store.insert, Store.query, Store.delete.
  rewrite (encode_key_not_str key Hk). repeat split.
Qed.

Lemma store_ops_non_str_key_witness :
  (forall s, JNull <> JStr s) /\
  Store.query ∅ JNull = raise! AttributeError "'NoneType' object has no attribute 'encode'".
Proof.
  split; [discriminate|].
  pose proof (store_ops_non_str_key ∅ JNull JNull ltac:(discriminate)) as (_ & H & _).
  exact H.
Defined.

(** ** Refinement of the abstract store *)

Section Refinement.
Context (K : gset string).
(** [hash_key] has no collision among the keys the clients use. *)
Context (Hinj : forall k1 k2, k1 ∈ K -> k2 ∈ K -> hash_key k1 = hash_key k2 -> k1 = k2).

Definition store_rel (ds : gmap Z json) (m : gmap string json) : Prop :=
  forall k, k ∈ K -> ds !! hash_key k = m !! k.

Definition op_key (o : Store.op) : json :=
  match o with Store.OpInsert k _ | Store.OpQuery k | Store.OpDelete k => k end.

Definition key_in_K (o : Store.op) : Prop := forall s, op_key o = JStr s -> s ∈ K.

Lemma store_rel_insert ds m s v :
  s ∈ K -> store_rel ds m -> store_rel (<[hash_key s := v]> ds) (<[s := v]> m).
Proof.
  intros Hs Hrel k Hk. destruct (decide (s = k)) as [<-|Hne].
  - by rewrite !lookup_insert_eq.
  - rewrite !lookup_insert_ne; [by apply Hrel | done |].
    intros Heq. apply Hne, Hinj; done.
Qed.

Lemma store_rel_delete ds m s :
  s ∈ K -> store_rel ds m -> store_rel (base.delete (hash_key s) ds) (base.delete s m).
Proof.
  intros Hs Hrel k Hk. destruct (decide (s = k)) as [<-|Hne].
  - by rewrite !lookup_delete_eq.
  - rewrite !lookup_delete_ne; [by apply Hrel | done |].
    intros Heq. apply Hne, Hinj; done.
Qed.

Lemma step_refines ds m o :
  store_rel ds m -> key_in_K o ->
  (Store.step ds o).2 = (AbsStore.step m o).2 /\
  store_rel (Store.step ds o).1 (AbsStore.step m o).1.
Proof.
  intros Hrel Hk.
  destruct o as [key v|key|key]; simpl in Hk;
    (destruct key as [| | |s| |]; [..| |]; try (split; [reflexivity | exact Hrel]));
    specialize (Hk s eq_refl);
    unfold Store.step, AbsStore.step, Store.insert, AbsStore.insert,
      Store.query, AbsStore.query, Store.delete, AbsStore.delete; simpl;
    rewrite ?(Hrel s Hk).
  - split; [done | by apply store_rel_insert].
  - done.
  - destruct (m !! s); split; [done | by apply store_rel_delete | done | done].
Qed.

(** C6: refinement.  On every sequence of client operations whose str
    keys lie in [K], the hashed store answers exactly what the abstract
    store keyed by the raw strings answers. *)
Theorem store_refines_abstract (os : list Store.op) :
  Forall key_in_K os ->
  (Store.run ∅ os).2 = (AbsStore.run ∅ os).2.
Proof.
  assert (forall ds m, store_rel ds m -> Forall key_in_K os ->
            (Store.run ds os).2 = (AbsStore.run m os).2) as Hgen.
  { induction os as [|o os IH]; intros ds m Hrel Hos; [done|].
    inversion Hos as [|? ? Ho Hos']; subst.
    destruct (step_refines ds m o Hrel Ho) as [Hr Hrel'].
    simpl. destruct (Store.step ds o) as [ds1 r1], (AbsStore.step m o) as [m1 r1'].
    simpl in *. destruct (Store.run ds1 os) eqn:E1, (AbsStore.run m1 os) eqn:E2.
    specialize (IH ds1 m1 Hrel' Hos'). rewrite E1, E2 in IH. simpl in *. congruence. }
  intros Hos. apply Hgen; [|done]. intros k _. by rewrite !lookup_empty.
Qed.
End Refinement.

Lemma store_refines_abstract_witness :
  let K : gset string := {[ "song"; "album" ]} in
  let os := [Store.OpInsert (JStr "song") (JStr "v1"); Store.OpQuery (JStr "album");
             Store.OpQuery (JStr "song"); Store.OpDelete (JStr "song");
             Store.OpQuery (JStr "song")] in
  (forall k1 k2, k1 ∈ K -> k2 ∈ K -> hash_key k1 = hash_key k2 -> k1 = k2) /\
  Forall (key_in_K K) os /\
  (Store.run ∅ os).2 = (AbsStore.run ∅ os).2.
Proof.
  intros K os.
  assert (forall k1 k2, k1 ∈ K -> k2 ∈ K -> hash_key k1 = hash_key k2 -> k1 = k2) as Hinj.
  { intros k1 k2 H1 H2 Heq. unfold K in *.
    rewrite !elem_of_union, !elem_of_singleton in H1, H2.
    destruct H1 as [-> | ->], H2 as [-> | ->]; try reflexivity;
      vm_compute in Heq; discriminate Heq. }
  assert (Forall (key_in_K K) os) as Hos.
  { unfold os, K. repeat constructor; intros s Hs; injection Hs as <-; set_solver. }
  split; [exact Hinj|]. split; [exact Hos|].
  exact (store_refines_abstract K Hinj os Hos).
Defined.
