(* ===== verification/Concurrency.v ===== *)
(** * Concurrent store handlers

    The accept loop starts one thread per connection
    (src/node.py:68-71), and the handlers share the node's [data_store]
    without a lock.  Under CPython's global interpreter lock each dict
    operation is atomic; between two of them another thread may run.  A
    store handler (src/node.py:197-216) is then a short sequence of
    atomic actions on the dict:

    - [insert]: [data_store[h] = value];
    - [query]: [h in data_store], then [data_store[h]];
    - [delete]: [h in data_store], then [del data_store[h]].

    [pc] is a handler thread between two actions, [tstep] one action, and
    [run_sched] runs the threads of a configuration in the order a
    schedule names them.  A thread ends with the response it sends, or
    [None] when an exception (a [KeyError] of a key deleted between test
    and access, or the [AttributeError] of a non-str key) drops the
    connection. *)

From S2P Require Import Prelude Json Sha1 Identity Store.

Local Open Scope Z_scope.

Module Conc.

Inductive pc :=
| InsertStart (h : Z) (k : string) (v : json)
| QueryStart (h : Z) (k : string)
| QueryFound (h : Z) (k : string)
| DeleteStart (h : Z) (k : string)
| DeleteFound (h : Z) (k : string)
| Done (r : option json).

(** The thread a store request starts: [key.encode()] and the hash are
    computed before any dict access; a non-str key raises at once. *)
Definition spawn (o : Store.op) : pc :=
  match o with
  | Store.OpInsert key value =>
      match Store.encode_key key with
      | Ok k => InsertStart (hash_key k) k value
      | Raise _ => Done None
      end
  | Store.OpQuery key =>
      match Store.encode_key key with Ok k => QueryStart (hash_key k) k | Raise _ => Done None end
  | Store.OpDelete key =>
      match Store.encode_key key with Ok k => DeleteStart (hash_key k) k | Raise _ => Done None end
  end.

(** One atomic action of a thread; [None] for a finished thread. *)
Definition tstep (ds : gmap Z json) (p : pc) : option (gmap Z json * pc) :=
  match p with
  | InsertStart h k v =>
      Some (<[h := v]> ds, Done (Some (success_message ("Inserted " +:+ k +:+ " -> " +:+ py_str v))))
  | QueryStart h k =>
      Some (ds, if bool_decide (is_Some (ds !! h)) then QueryFound h k
                else Done (Some (error_message "Key not found")))
  | QueryFound h k =>
      Some (ds, match ds !! h with
                | Some v => Done (Some (JDict [status_success; ("value", v)]))
                | None => Done None
                end)
  | DeleteStart h k =>
      Some (ds, if bool_decide (is_Some (ds !! h)) then DeleteFound h k
                else Done (Some (error_message "Key not found")))
  | DeleteFound h k =>
      match ds !! h with
      | Some _ => Some (base.delete h ds, Done (Some (success_message ("Deleted " +:+ k))))
      | None => Some (ds, Done None)
      end
  | Done _ => None
  end.

Definition config : Type := gmap Z json * list pc.

(** Thread [i] takes one step, if it exists and has not finished. *)
Definition sched_step (c : config) (i : nat) : config :=
  match c.2 !! i with
  | Some p => match tstep c.1 p with Some (ds', p') => (ds', <[i := p']> c.2) | None => c end
  | None => c
  end.

Definition run_sched (sched : list nat) (c : config) : config := fold_left sched_step sched c.

(** The dict key a request touches, if its key is a str. *)
Definition op_hash (o : Store.op) : option Z :=
  match o with
  | Store.OpInsert key _ | Store.OpQuery key | Store.OpDelete key =>
      match Store.encode_key key with Ok k => Some (hash_key k) | Raise _ => None end
  end.

(** The state after a successful membership test. *)
Definition found_state (o : Store.op) : option pc :=
  match o with
  | Store.OpQuery (JStr k) => Some (QueryFound (hash_key k) k)
  | Store.OpDelete (JStr k) => Some (DeleteFound (hash_key k) k)
  | _ => None
  end.

End Conc.

(** What the request answers when it runs alone on [ds]. *)
Definition seq_resp (ds : gmap Z json) (o : Store.op) : option json :=
  match (Store.step ds o).2 with Ok r => Some r | Raise _ => None end.

(** ** Races of the test-then-act handlers *)

Lemma spawn_str_delete (k : string) :
  Conc.spawn (Store.OpDelete (JStr k)) = Conc.DeleteStart (hash_key k) k.
Proof. reflexivity. Qed.

Lemma spawn_str_query (k : string) :
  Conc.spawn (Store.OpQuery (JStr k)) = Conc.QueryStart (hash_key k) k.
Proof. reflexivity. Qed.

Lemma bool_decide_is_Some_Some {A} (x : A) : bool_decide (is_Some (Some x)) = true.
Proof. apply bool_decide_eq_true_2. by eexists. Qed.

#[export] Hint Rewrite @bool_decide_is_Some_Some spawn_str_delete spawn_str_query : chord_rw.

(** Runs a schedule on a store where the key is present. *)
Ltac race_steps Hv :=
  repeat progress (cbn; rewrite ?Hv, ?bool_decide_is_Some_Some, ?lookup_delete_eq); reflexivity.

(** C16 (race): two concurrent [delete(k)] of a stored key, both testing
    [k in data_store] before either deletes: the first deletes and answers
    [Deleted k]; the second's [del] raises [KeyError] and its connection
    is dropped without answer, where run one after the other the second
    answers [Key not found]. *)
Theorem delete_delete_race (ds : gmap Z json) (k : string) (v : json) :
  ds !! hash_key k = Some v ->
  Conc.run_sched [0; 1; 0; 1]%nat
    (ds, [Conc.spawn (Store.OpDelete (JStr k)); Conc.spawn (Store.OpDelete (JStr k))]) =
    (base.delete (hash_key k) ds,
     [Conc.Done (Some (success_message ("Deleted " +:+ k))); Conc.Done None]) /\
  (Store.run ds [Store.OpDelete (JStr k); Store.OpDelete (JStr k)]).2 =
    [Ok (success_message ("Deleted " +:+ k)); Ok (error_message "Key not found")].
Proof.
  intros Hv. split.
  - unfold Conc.run_sched. autorewrite with chord_rw. race_steps Hv.
  - race_steps Hv.
Qed.

Lemma delete_delete_race_witness :
  let ds : gmap Z json := {[hash_key "song" := JStr "lyrics"]} in
  ds !! hash_key "song" = Some (JStr "lyrics") /\
  Conc.run_sched [0; 1; 0; 1]%nat
    (ds, [Conc.spawn (Store.OpDelete (JStr "song")); Conc.spawn (Store.OpDelete (JStr "song"))]) =
    (base.delete (hash_key "song") ds,
     [Conc.Done (Some (success_message ("Deleted " +:+ "song"))); Conc.Done None]) /\
  (Store.run ds [Store.OpDelete (JStr "song"); Store.OpDelete (JStr "song")]).2 =
    [Ok (success_message ("Deleted " +:+ "song")); Ok (error_message "Key not found")].
Proof.
  intros ds. assert (ds !! hash_key "song" = Some (JStr "lyrics")) as H by apply lookup_singleton_eq.
  split; [exact H | exact (delete_delete_race ds "song" _ H)].
Defined.

(** C17 (race): a [query(k)] that has found [k] in the dict, and a
    [delete(k)] that runs to its end before the query reads the value:
    the query's [data_store[h]] raises [KeyError] and its connection is
    dropped, although in either sequential order the query answers
    (with the value, or with [Key not found]). *)
Theorem query_delete_race (ds : gmap Z json) (k : string) (v : json) :
  ds !! hash_key k = Some v ->
  Conc.run_sched [0; 1; 1; 0]%nat
    (ds, [Conc.spawn (Store.OpQuery (JStr k)); Conc.spawn (Store.OpDelete (JStr k))]) =
    (base.delete (hash_key k) ds,
     [Conc.Done None; Conc.Done (Some (success_message ("Deleted " +:+ k)))]) /\
  (Store.run ds [Store.OpQuery (JStr k); Store.OpDelete (JStr k)]).2 =
    [Ok (JDict [status_success; ("value", v)]); Ok (success_message ("Deleted " +:+ k))] /\
  (Store.run ds [Store.OpDelete (JStr k); Store.OpQuery (JStr k)]).2 =
    [Ok (success_message ("Deleted " +:+ k)); Ok (error_message "Key not found")].
Proof.
  intros Hv. split; [|split].
  - unfold Conc.run_sched. autorewrite with chord_rw. race_steps Hv.
  - race_steps Hv.
  - race_steps Hv.
Qed.

Lemma query_delete_race_witness :
  let ds : gmap Z json := {[hash_key "song" := JStr "lyrics"]} in
  ds !! hash_key "song" = Some (JStr "lyrics") /\
  Conc.run_sched [0; 1; 1; 0]%nat
    (ds, [Conc.spawn (Store.OpQuery (JStr "song")); Conc.spawn (Store.OpDelete (JStr "song"))]) =
    (base.delete (hash_key "song") ds,
     [Conc.Done None; Conc.Done (Some (success_message ("Deleted " +:+ "song")))]) /\
  (Store.run ds [Store.OpQuery (JStr "song"); Store.OpDelete (JStr "song")]).2 =
    [Ok (JDict [status_success; ("value", JStr "lyrics")]);
     Ok (success_message ("Deleted " +:+ "song"))] /\
  (Store.run ds [Store.OpDelete (JStr "song"); Store.OpQuery (JStr "song")]).2 =
    [Ok (success_message ("Deleted " +:+ "song")); Ok (error_message "Key not found")].
Proof.
  intros ds. assert (ds !! hash_key "song" = Some (JStr "lyrics")) as H by apply lookup_singleton_eq.
  split; [exact H | exact (query_delete_race ds "song" _ H)].
Defined.

(** ** Handlers on distinct keys do not interfere *)

(** Thread [p] running request [o] on the current dict [cur], compared
    with the initial dict [ds0]: it has not acted yet, has found its key,
    or has answered what it answers alone on [ds0]. *)
Definition thread_ok (ds0 cur : gmap Z json) (o : Store.op) (p : Conc.pc) : Prop :=
  match Conc.op_hash o with
  | None => p = Conc.Done None
  | Some h =>
      (p = Conc.spawn o /\ cur !! h = ds0 !! h) \/
      (Conc.found_state o = Some p /\ cur !! h = ds0 !! h /\ is_Some (ds0 !! h)) \/
      (p = Conc.Done (seq_resp ds0 o) /\ cur !! h = (Store.step ds0 o).1 !! h)
  end.

Definition conc_inv (ds0 : gmap Z json) (os : list Store.op) (c : Conc.config) : Prop :=
  length c.2 = length os /\
  (forall i o p, os !! i = Some o -> c.2 !! i = Some p -> thread_ok ds0 c.1 o p) /\
  (forall h, h ∉ omap Conc.op_hash os -> c.1 !! h = ds0 !! h).

Lemma omap_nodup_distinct {A B} (f : A -> option B) (l : list A) i j a b x :
  NoDup (omap f l) -> l !! i = Some a -> l !! j = Some b -> f a = Some x -> f b = Some x -> i = j.
Proof.
  revert i j. induction l as [|c l IH]; intros i j Hnd Hi Hj Ha Hb; [done|].
  destruct i as [|i], j as [|j]; simpl in *; try done.
  - injection Hi as ->. rewrite Ha in Hnd. apply NoDup_cons in Hnd as [Hn _].
    exfalso. apply Hn, list_elem_of_omap. exists b. split; [|done]. by eapply list_elem_of_lookup_2.
  - injection Hj as ->. rewrite Hb in Hnd. apply NoDup_cons in Hnd as [Hn _].
    exfalso. apply Hn, list_elem_of_omap. exists a. split; [|done]. by eapply list_elem_of_lookup_2.
  - f_equal. destruct (f c); [apply NoDup_cons in Hnd as [_ Hnd]|]; by eapply IH.
Qed.

Lemma op_hash_in_omap (os : list Store.op) (i : nat) o h :
  os !! i = Some o -> Conc.op_hash o = Some h -> h ∈ omap Conc.op_hash os.
Proof. intros Hi Ho. apply list_elem_of_omap. exists o. split; [by eapply list_elem_of_lookup_2|done]. Qed.

(** One action of a thread in a good state: it stays good, and the dict
    changes at most at its own key. *)
Lemma tstep_thread_ok ds0 cur o p cur' p' h :
  Conc.op_hash o = Some h -> thread_ok ds0 cur o p -> Conc.tstep cur p = Some (cur', p') ->
  thread_ok ds0 cur' o p' /\ (forall h', h' <> h -> cur' !! h' = cur !! h').
Proof.
  unfold thread_ok. intros Hh. rewrite Hh.
  destruct o as [[| | |k| |] v|[| | |k| |]|[| | |k| |]]; simpl in Hh; try discriminate;
    injection Hh as <-;
    (intros [(-> & Hc) | [(Hf & Hc & Hs) | (-> & Hc)]]; [| |discriminate]);
    cbn in *; try discriminate; try (injection Hf as <-); cbn.
  - intros [= <- <-]. split; [|intros; by rewrite lookup_insert_ne].
    right; right. unfold seq_resp. cbn. split; [done|]. by rewrite !lookup_insert_eq.
  - intros [= <- <-]. split; [|done]. rewrite Hc.
    destruct (ds0 !! hash_key k) eqn:E.
    + rewrite bool_decide_is_Some_Some. right; left. split; [done|]. split; [done|]. by eexists.
    + rewrite bool_decide_eq_false_2 by (intros [? ?]; discriminate).
      right; right. unfold seq_resp. cbn. rewrite E. auto.
  - rewrite Hc. destruct Hs as [v Hv]. rewrite Hv. intros [= <- <-]. split; [|done].
    right; right. unfold seq_resp. cbn. rewrite Hv. split; [done|]. by rewrite Hc, Hv.
  - intros [= <- <-]. split; [|done]. rewrite Hc.
    destruct (ds0 !! hash_key k) eqn:E.
    + rewrite bool_decide_is_Some_Some. right; left. split; [done|]. split; [done|]. by eexists.
    + rewrite bool_decide_eq_false_2 by (intros [? ?]; discriminate).
      right; right. unfold seq_resp. cbn. rewrite E. auto.
  - rewrite Hc. destruct Hs as [v Hv]. rewrite Hv. intros [= <- <-].
    split; [|intros; by rewrite lookup_delete_ne].
    right; right. unfold seq_resp. cbn. rewrite Hv. cbn. by rewrite !lookup_delete_eq.
Qed.

Lemma spawn_non_str o : Conc.op_hash o = None -> Conc.spawn o = Conc.Done None.
Proof. destruct o as [key v|key|key]; simpl; by destruct (Store.encode_key key). Qed.

Lemma seq_resp_non_str ds o : Conc.op_hash o = None -> seq_resp ds o = None.
Proof.
  unfold seq_resp, Store.step, Store.insert, Store.query, Store.delete.
  destruct o as [key v|key|key]; simpl; destruct (Store.encode_key key); done.
Qed.

Lemma spawn_not_done o h r : Conc.op_hash o = Some h -> Conc.spawn o <> Conc.Done r.
Proof. destruct o as [key v|key|key]; simpl; by destruct (Store.encode_key key). Qed.

Lemma found_not_done o r : Conc.found_state o <> Some (Conc.Done r).
Proof. destruct o as [[]|[]|[]]; done. Qed.

Lemma conc_inv_init ds0 os : conc_inv ds0 os (ds0, Conc.spawn <$> os).
Proof.
  split; [simpl; by rewrite length_fmap|]. split; [|done].
  intros i o p Hi Hp. simpl in Hp. rewrite list_lookup_fmap, Hi in Hp. injection Hp as <-.
  unfold thread_ok. destruct (Conc.op_hash o) eqn:E; [by left | by apply spawn_non_str].
Qed.

Lemma conc_inv_step ds0 os c i :
  NoDup (omap Conc.op_hash os) -> conc_inv ds0 os c -> conc_inv ds0 os (Conc.sched_step c i).
Proof.
  intros Hnd (Hlen & Hth & Hfr). unfold Conc.sched_step.
  destruct (c.2 !! i) as [p|] eqn:Hp; [|done].
  destruct (Conc.tstep c.1 p) as [[cur' p']|] eqn:Ht; [|done].
  pose proof (lookup_lt_Some _ _ _ Hp) as Hi.
  destruct (lookup_lt_is_Some_2 os i) as [o Ho]; [lia|].
  pose proof (Hth i o p Ho Hp) as Hok.
  destruct (Conc.op_hash o) as [h|] eqn:Eh.
  2:{ unfold thread_ok in Hok. rewrite Eh in Hok. subst p. discriminate. }
  destruct (tstep_thread_ok _ _ _ _ _ _ h Eh Hok Ht) as [Hok' Hfr'].
  split; [simpl; by rewrite length_insert|]. split.
  - intros j oj pj Hoj Hpj. simpl in Hpj. destruct (decide (i = j)) as [<-|Hij].
    + rewrite list_lookup_insert_eq in Hpj by done. injection Hpj as <-.
      rewrite Ho in Hoj. by injection Hoj as <-.
    + rewrite list_lookup_insert_ne in Hpj by done.
      pose proof (Hth j oj pj Hoj Hpj) as Hj. unfold thread_ok in *.
      destruct (Conc.op_hash oj) as [hj|] eqn:Ehj; [|done].
      assert (hj <> h) as Hne by (intros ->; apply Hij; by eapply omap_nodup_distinct).
      simpl. by rewrite (Hfr' hj Hne).
  - intros h' Hh'. simpl. rewrite Hfr'; [by apply Hfr|].
    intros ->. apply Hh'. by eapply op_hash_in_omap.
Qed.

Lemma conc_inv_run ds0 os sched c :
  NoDup (omap Conc.op_hash os) -> conc_inv ds0 os c -> conc_inv ds0 os (Conc.run_sched sched c).
Proof.
  intros Hnd. unfold Conc.run_sched. revert c.
  induction sched as [|i sched IH]; intros c Hc; simpl; [done|]. by apply IH, conc_inv_step.
Qed.

(** A finished thread in a good state answered what its request answers
    alone, and left its key as that run leaves it. *)
Lemma thread_ok_done ds0 cur o r :
  thread_ok ds0 cur o (Conc.Done r) ->
  r = seq_resp ds0 o /\ forall h, Conc.op_hash o = Some h -> cur !! h = (Store.step ds0 o).1 !! h.
Proof.
  unfold thread_ok. destruct (Conc.op_hash o) as [h|] eqn:Eh.
  - intros [(Hs & _) | [(Hf & _) | (Hr & Hc)]].
    + by destruct (spawn_not_done o h r Eh).
    + by destruct (found_not_done o r).
    + injection Hr as ->. split; [done|]. by intros ? [= <-].
  - intros [= ->]. split; [by rewrite seq_resp_non_str | discriminate].
Qed.

(** C8 (equivalence): requests on pairwise distinct keys, served by
    concurrent threads under any schedule: every thread that has answered
    answered what its request answers when run alone on the initial dict,
    its key then holds what that run leaves there, and no other key has
    changed.  Without a common key the threads behave as in any
    sequential order. *)
Theorem interleaving_as_if_alone ds0 os sched :
  NoDup (omap Conc.op_hash os) ->
  let c := Conc.run_sched sched (ds0, Conc.spawn <$> os) in
  (forall i o r, os !! i = Some o -> c.2 !! i = Some (Conc.Done r) -> r = seq_resp ds0 o) /\
  (forall i o h r, os !! i = Some o -> Conc.op_hash o = Some h ->
     c.2 !! i = Some (Conc.Done r) -> c.1 !! h = (Store.step ds0 o).1 !! h) /\
  (forall h, h ∉ omap Conc.op_hash os -> c.1 !! h = ds0 !! h).
Proof.
  intros Hnd c. destruct (conc_inv_run ds0 os sched _ Hnd (conc_inv_init ds0 os)) as (_ & Hth & Hfr).
  fold c in Hth, Hfr.
  assert (forall i o r, os !! i = Some o -> c.2 !! i = Some (Conc.Done r) ->
            r = seq_resp ds0 o /\
            forall h, Conc.op_hash o = Some h -> c.1 !! h = (Store.step ds0 o).1 !! h) as Hdone.
  { intros i o r Ho Hp. exact (thread_ok_done _ _ _ _ (Hth i o _ Ho Hp)). }
  split; [|split; [|done]].
  - intros i o r Ho Hp. apply (Hdone i o r Ho Hp).
  - intros i o h r Ho Hh Hp. by apply (Hdone i o r Ho Hp).
Qed.

Lemma interleaving_as_if_alone_witness :
  let os := [Store.OpInsert (JStr "a") (JInt 1); Store.OpQuery (JStr "b")] in
  NoDup (omap Conc.op_hash os) /\
  (let c := Conc.run_sched [1; 0; 1]%nat (∅, Conc.spawn <$> os) in
   (forall i o r, os !! i = Some o -> c.2 !! i = Some (Conc.Done r) -> r = seq_resp ∅ o) /\
   (forall i o h r, os !! i = Some o -> Conc.op_hash o = Some h ->
      c.2 !! i = Some (Conc.Done r) -> c.1 !! h = (Store.step ∅ o).1 !! h) /\
   (forall h, h ∉ omap Conc.op_hash os -> c.1 !! h = (∅ : gmap Z json) !! h)).
Proof.
  intros os.
  assert (NoDup (omap Conc.op_hash os)) as H by (apply (bool_decide_unpack _); vm_compute; reflexivity).
  split; [exact H | exact (interleaving_as_if_alone ∅ os [1; 0; 1]%nat H)].
Defined.
