(* ===== verification/Node.v ===== *)
(** * Ring state of one node and its local routing decision

    The attributes of a [ChordNode] (src/node.py:13-27) are the record
    [node].  [successor] is an [option] because the attribute exists only
    once the constructor set it (bootstrap node) or [join] succeeded: a
    node whose join failed has no [successor] attribute at all, and reading
    it raises [AttributeError].  [predecessor] starts as [None].

    [find_successor] (src/node.py:116-133) either answers locally or
    forwards the identical request to the successor; the forwarding itself
    ([send_request]) is a network call and is composed in [Network.v]: here
    the decision is the value [FSReply resp] or [FSForward ip port req]. *)

From S2P Require Import Prelude Json Sha1 Identity Store.

Local Open Scope Z_scope.

Module Node.

Record node := Node {
  ip : string;
  port : Z;
  node_id : Z;
  data_store : gmap Z json;
  predecessor : json;
  successor : option json
}.

Definition set_successor (n : node) (s : json) : node :=
  Node n.(ip) n.(port) n.(node_id) n.(data_store) n.(predecessor) (Some s).
Definition set_predecessor (n : node) (p : json) : node :=
  Node n.(ip) n.(port) n.(node_id) n.(data_store) p n.(successor).
Definition set_data_store (n : node) (ds : gmap Z json) : node :=
  Node n.(ip) n.(port) n.(node_id) ds n.(predecessor) n.(successor).

(** A node descriptor [{"node_id": .., "ip": .., "port": ..}] and the one
    a node builds of itself (src/node.py:26). *)
Definition descriptor (nid : Z) (nip : string) (nport : Z) : json :=
  JDict [("node_id", JInt nid); ("ip", JStr nip); ("port", JInt nport)].

Definition self_descriptor (n : node) : json := descriptor n.(node_id) n.(ip) n.(port).

(** The fields set before the bootstrap/join branch (src/node.py:14-18). *)
Definition new_node (ip : string) (port : Z) : node :=
  Node ip port (generate_id ip port) ∅ JNull None.

(** A node started without a bootstrap address is its own successor
    (src/node.py:24-26). *)
Definition bootstrap_node (ip : string) (port : Z) : node :=
  let n := new_node ip port in set_successor n (self_descriptor n).

(** Reading [self.successor]. *)
Definition get_successor (n : node) : res json :=
  match n.(successor) with
  | Some s => Ok s
  | None => raise! AttributeError "'ChordNode' object has no attribute 'successor'"
  end.

(** The outcome of [find_successor] at this node. *)
Inductive fs_action :=
| FSReply (resp : json)
| FSForward (ip port : json) (req : json).

Definition fs_success (succ : json) : json :=
  JDict [status_success; ("successor", succ)].

Definition fs_request (target : json) : json :=
  JDict [("command", JStr "find_successor"); ("node_id", target)].

(** [find_successor(node_id)] (src/node.py:116-133).  The interval test of
    line 126 is Python's chained comparison
    [self.node_id < node_id <= self.successor["node_id"]]: the second
    comparison runs only when the first holds. *)
Definition find_successor (n : node) (target : json) : res fs_action :=
  succ ← get_successor n;
  sid ← py_getitem succ "node_id";
  if py_eq_int sid n.(node_id) then Ok (FSReply (fs_success succ))
  else
    py_lt (JInt n.(node_id)) target ≫= fun lt : bool =>
    (if lt then py_le target sid else Ok false) ≫= fun inside : bool =>
    if inside then Ok (FSReply (fs_success succ))
    else
      let forward_request := fs_request target in
      sip ← py_getitem succ "ip";
      sport ← py_getitem succ "port";
      Ok (FSForward sip sport forward_request).

(** [update_predecessor(node_id, ip, port)] (src/node.py:139-143). *)
Definition update_predecessor (n : node) (nid nip nport : json) : node * json :=
  (set_predecessor n (JDict [("node_id", nid); ("ip", nip); ("port", nport)]),
   success_message "Predecessor updated").

End Node.

(** ** The routing decision on every branch *)

Lemma py_eq_int_refl (z : Z) : py_eq_int (JInt z) z = true.
Proof. unfold py_eq_int; simpl. apply Z.eqb_refl. Qed.

Lemma py_eq_int_neq (z z' : Z) : z <> z' -> py_eq_int (JInt z) z' = false.
Proof. intros H. unfold py_eq_int; simpl. by apply Z.eqb_neq. Qed.

#[export] Hint Rewrite py_eq_int_refl : chord_rw.

(** A successor descriptor carrying the node's own id settles every
    request at once (the test of line 121). *)
Lemma find_successor_same_id (n : Node.node) (s : Z) (sip : string) (sport : Z) (target : json) :
  Node.successor n = Some (Node.descriptor s sip sport) -> s = Node.node_id n ->
  Node.find_successor n target = Ok (Node.FSReply (Node.fs_success (Node.descriptor s sip sport))).
Proof.
  intros Hs ->. unfold Node.find_successor, Node.get_successor. rewrite Hs. simpl.
  by rewrite py_eq_int_refl.
Qed.

(** C23: a node whose successor is its own descriptor (a bootstrap node,
    whatever its store and predecessor) answers every [find_successor]
    with itself, whatever the target, even one that is not a number. *)
Theorem find_successor_self (n : Node.node) (target : json) :
  Node.successor n = Some (Node.self_descriptor n) ->
  Node.find_successor n target =
    Ok (Node.FSReply (Node.fs_success (Node.self_descriptor n))).
Proof.
  intros Hs. exact (find_successor_same_id n _ _ _ target Hs eq_refl).
Qed.

Lemma find_successor_self_witness :
  let n := Node.bootstrap_node "127.0.0.1" 5000 in
  Node.successor n = Some (Node.self_descriptor n) /\
  Node.find_successor n JNull = Ok (Node.FSReply (Node.fs_success (Node.self_descriptor n))).
Proof.
  intros n. assert (Node.successor n = Some (Node.self_descriptor n)) as H by reflexivity.
  split; [exact H | exact (find_successor_self n JNull H)].
Defined.

(** The routing decision with a successor of another id and an int
    target: the chained comparison of line 126 evaluated. *)
Lemma find_successor_int (n : Node.node) (s : Z) (sip : string) (sport t : Z) :
  Node.successor n = Some (Node.descriptor s sip sport) ->
  s <> Node.node_id n ->
  Node.find_successor n (JInt t) =
    Ok (if (Node.node_id n <? t) && (t <=? s)
        then Node.FSReply (Node.fs_success (Node.descriptor s sip sport))
        else Node.FSForward (JStr sip) (JInt sport) (Node.fs_request (JInt t))).
Proof.
  intros Hs Hne. unfold Node.find_successor, Node.get_successor. rewrite Hs. simpl.
  rewrite py_eq_int_neq by done. unfold py_lt, py_le; simpl.
  destruct (Node.node_id n <? t), (t <=? s); reflexivity.
Qed.

(** C24: with a successor descriptor of another id [s] and an int target
    [t], the node answers with its successor exactly when
    [node_id < t <= s] (a plain numeric test), and otherwise forwards the
    identical request to the successor's address. *)
Theorem find_successor_numeric (n : Node.node) (s : Z) (sip : string) (sport t : Z) :
  Node.successor n = Some (Node.descriptor s sip sport) ->
  s <> Node.node_id n ->
  (Node.node_id n < t <= s ->
   Node.find_successor n (JInt t) = Ok (Node.FSReply (Node.fs_success (Node.descriptor s sip sport)))) /\
  (~ (Node.node_id n < t <= s) ->
   Node.find_successor n (JInt t) =
     Ok (Node.FSForward (JStr sip) (JInt sport) (Node.fs_request (JInt t)))).
Proof.
  intros Hs Hne. rewrite (find_successor_int n s sip sport t Hs Hne).
  split; intros Ht; destruct (Z.ltb_spec (Node.node_id n) t), (Z.leb_spec t s);
    simpl; try done; exfalso; lia.
Qed.

Lemma find_successor_numeric_witness :
  let n := Node.set_successor (Node.new_node "127.0.0.1" 5001)
             (Node.descriptor (generate_id "127.0.0.1" 5000) "127.0.0.1" 5000) in
  Node.successor n = Some (Node.descriptor (generate_id "127.0.0.1" 5000) "127.0.0.1" 5000) /\
  generate_id "127.0.0.1" 5000 <> Node.node_id n /\
  Node.find_successor n (JInt 900000000000000000000000000000000000000000000000) =
    Ok (Node.FSReply (Node.fs_success
          (Node.descriptor (generate_id "127.0.0.1" 5000) "127.0.0.1" 5000))).
Proof.
  intros n.
  assert (Node.successor n = Some (Node.descriptor (generate_id "127.0.0.1" 5000) "127.0.0.1" 5000))
    as H1 by reflexivity.
  assert (generate_id "127.0.0.1" 5000 <> Node.node_id n) as H2 by (vm_compute; discriminate).
  split; [exact H1|]. split; [exact H2|].
  apply (proj1 (find_successor_numeric n _ _ _ _ H1 H2)).
  split; [apply Z.ltb_lt | apply Z.leb_le]; vm_compute; reflexivity.
Defined.

(** C25: error branches.  Without a [successor] attribute (a node whose
    join failed) [find_successor] raises [AttributeError]; with a
    successor of another id, a target that is neither an int nor a bool
    makes the comparison of line 126 raise [TypeError]. *)
Theorem find_successor_errors (n : Node.node) (target : json) :
  (Node.successor n = None ->
   Node.find_successor n target =
     raise! AttributeError "'ChordNode' object has no attribute 'successor'") /\
  (forall s sip sport, Node.successor n = Some (Node.descriptor s sip sport) ->
   s <> Node.node_id n -> py_num target = None ->
   Node.find_successor n target = Raise (cmp_error "<" (JInt (Node.node_id n)) target)).
Proof.
  split.
  - intros Hs. unfold Node.find_successor, Node.get_successor. by rewrite Hs.
  - intros s sip sport Hs Hne Ht. unfold Node.find_successor, Node.get_successor.
    rewrite Hs. simpl. rewrite py_eq_int_neq by done. unfold py_lt. by rewrite Ht.
Qed.

Lemma find_successor_errors_witness :
  let n := Node.set_successor (Node.new_node "127.0.0.1" 5001)
             (Node.descriptor (generate_id "127.0.0.1" 5000) "127.0.0.1" 5000) in
  Node.find_successor (Node.new_node "10.0.0.1" 1) (JInt 3) =
    raise! AttributeError "'ChordNode' object has no attribute 'successor'" /\
  Node.find_successor n (JStr "x") = Raise (cmp_error "<" (JInt (Node.node_id n)) (JStr "x")).
Proof.
  intros n. split.
  - exact (proj1 (find_successor_errors (Node.new_node "10.0.0.1" 1) (JInt 3)) eq_refl).
  - apply (proj2 (find_successor_errors n (JStr "x")) _ _ _ eq_refl);
      [vm_compute; discriminate | reflexivity].
Defined.
