(* ===== verification/Wire.v ===== *)
(** * The wire: bytes, [bytes.decode()], [json.loads] and [recv(1024)]

    Every message of the node travels as [json.dumps(obj).encode()]
    (src/node.py:151, 169) and is read back with [recv(1024).decode()]
    followed by [json.loads] (src/node.py:152-154, 164-166).  This file
    models the reading side: [utf8_decode] is [bytes.decode()] for code
    points below 256, [loads] is [json.loads] with the grammar of CPython's
    scanner (whitespace, literals, strict strings with escapes, integers of
    the form 0 or a non-zero digit followed by digits, with an optional
    minus sign, duplicate dict keys where the last value wins),
    and [recv] keeps the first 1024 bytes.  Floats, [NaN] and [Infinity]
    are not modelled: [loads] rejects them.

    The main theorem is the round trip [loads (dumps v) = Some v] for
    every well-formed value (dicts with distinct keys, which every Python
    dict is). *)

From S2P Require Import Prelude Json Identity.

Local Open Scope Z_scope.

(** ** [bytes.decode()] *)

(** UTF-8 decoding into code points below 256; [None] is the
    [UnicodeDecodeError] (and, beyond the model, any code point above
    U+00FF). *)
Fixpoint utf8_decode (bs : list Z) : option string :=
  match bs with
  | [] => Some EmptyString
  | b :: r =>
      if (0 <=? b) && (b <? 128) then
        t ← utf8_decode r; Some (String (chr b) t)
      else if (b =? 194) || (b =? 195) then
        match r with
        | b2 :: r' =>
            if (128 <=? b2) && (b2 <? 192) then
              t ← utf8_decode r'; Some (String (chr ((b - 192) * 64 + (b2 - 128))) t)
            else None
        | [] => None
        end
      else None
  end.

(** [sock.recv(1024)] when the whole message arrived: its first 1024
    bytes. *)
Definition recv (bs : list Z) : list Z := firstn 1024 bs.

(** ** The scanner *)

Definition is_ws (c : ascii) : bool :=
  (ord c =? 32) || (ord c =? 9) || (ord c =? 10) || (ord c =? 13).

Fixpoint skip_ws (s : string) : string :=
  match s with
  | String c r => if is_ws c then skip_ws r else s
  | EmptyString => EmptyString
  end.

Definition digit_val (c : ascii) : option Z :=
  if (48 <=? ord c) && (ord c <=? 57) then Some (ord c - 48) else None.

Definition starts_digit (s : string) : bool :=
  match s with String c _ => bool_decide (is_Some (digit_val c)) | EmptyString => false end.

Fixpoint parse_digits (acc : Z) (s : string) : Z * string :=
  match s with
  | String c r =>
      match digit_val c with
      | Some d => parse_digits (acc * 10 + d) r
      | None => (acc, s)
      end
  | EmptyString => (acc, EmptyString)
  end.

(** [(\.\d+)] or [([eE][-+]?\d+)] follows: the number is a float. *)
Definition float_suffix (s : string) : bool :=
  match s with
  | String c r =>
      if bool_decide (c = "."%char) then starts_digit r
      else if bool_decide (c = "e"%char) || bool_decide (c = "E"%char) then
        match r with
        | String c2 r2 =>
            if bool_decide (c2 = "+"%char) || bool_decide (c2 = "-"%char)
            then starts_digit r2 else starts_digit r
        | EmptyString => false
        end
      else false
  | EmptyString => false
  end.

(** [0] or [[1-9][0-9]*]. *)
Definition parse_uint (s : string) : option (Z * string) :=
  match s with
  | String c r =>
      match digit_val c with
      | Some Z0 => Some (0, r)
      | Some d => Some (parse_digits d r)
      | None => None
      end
  | EmptyString => None
  end.

Definition parse_number (s : string) : option (json * string) :=
  let '(neg, s1) :=
    match s with
    | String c r => if bool_decide (c = "-"%char) then (true, r) else (false, s)
    | EmptyString => (false, s)
    end in
  '(n, r) ← parse_uint s1;
  if float_suffix r then None else Some (JInt (if neg then - n else n), r).

Definition short_escape (e : ascii) : option ascii :=
  if bool_decide (e = dq) then Some dq
  else if bool_decide (e = bsl) then Some bsl
  else if bool_decide (e = "/"%char) then Some "/"%char
  else if bool_decide (e = "b"%char) then Some "008"%char
  else if bool_decide (e = "f"%char) then Some "012"%char
  else if bool_decide (e = "n"%char) then Some "010"%char
  else if bool_decide (e = "r"%char) then Some "013"%char
  else if bool_decide (e = "t"%char) then Some "009"%char
  else None.

Definition hex4_val (h1 h2 h3 h4 : ascii) : option Z :=
  a ← hex_val h1; b ← hex_val h2; c ← hex_val h3; d ← hex_val h4;
  Some (((a * 16 + b) * 16 + c) * 16 + d).

(** The body of a string literal, after its opening quote (strict mode:
    raw control characters are errors). *)
Fixpoint parse_string (s : string) : option (string * string) :=
  match s with
  | EmptyString => None
  | String c r =>
      if bool_decide (c = dq) then Some (EmptyString, r)
      else if bool_decide (c = bsl) then
        match r with
        | String e r' =>
            if bool_decide (e = "u"%char) then
              match r' with
              | String h1 (String h2 (String h3 (String h4 r''))) =>
                  match hex4_val h1 h2 h3 h4 with
                  | Some n =>
                      if n <? 256 then
                        '(t, rest) ← parse_string r''; Some (String (chr n) t, rest)
                      else None
                  | None => None
                  end
              | _ => None
              end
            else
              match short_escape e with
              | Some c' => '(t, rest) ← parse_string r'; Some (String c' t, rest)
              | None => None
              end
        | EmptyString => None
        end
      else if ord c <? 32 then None
      else '(t, rest) ← parse_string r; Some (String c t, rest)
  end.

Fixpoint strip_prefix (p s : string) : option string :=
  match p, s with
  | EmptyString, _ => Some s
  | String a p', String b s' => if bool_decide (a = b) then strip_prefix p' s' else None
  | String _ _, EmptyString => None
  end.

(** [dict(pairs)]: a repeated key keeps its first position and takes the
    last value. *)
Fixpoint dict_set (k : string) (v : json) (kvs : list (string * json)) :
    list (string * json) :=
  match kvs with
  | [] => [(k, v)]
  | (k', v') :: r => if String.eqb k' k then (k, v) :: r else (k', v') :: dict_set k v r
  end.

Definition dict_of_pairs (ps : list (string * json)) : list (string * json) :=
  fold_left (fun d kv => dict_set kv.1 kv.2 d) ps [].

Fixpoint parse_value (fuel : nat) (s : string) : option (json * string) :=
  match fuel with
  | O => None
  | S f =>
      match s with
      | EmptyString => None
      | String c r =>
          if bool_decide (c = "{"%char) then parse_object f (skip_ws r)
          else if bool_decide (c = "["%char) then parse_array f (skip_ws r)
          else if bool_decide (c = dq) then '(t, r') ← parse_string r; Some (JStr t, r')
          else match strip_prefix "null" s with
          | Some r' => Some (JNull, r')
          | None => match strip_prefix "true" s with
          | Some r' => Some (JBool true, r')
          | None => match strip_prefix "false" s with
          | Some r' => Some (JBool false, r')
          | None => parse_number s
          end end end
      end
  end
with parse_array (fuel : nat) (s : string) : option (json * string) :=
  match fuel with
  | O => None
  | S f =>
      match s with
      | String c r => if bool_decide (c = "]"%char) then Some (JList [], r) else parse_elems f s []
      | EmptyString => None
      end
  end
with parse_elems (fuel : nat) (s : string) (acc : list json) : option (json * string) :=
  match fuel with
  | O => None
  | S f =>
      '(v, r) ← parse_value f s;
      match skip_ws r with
      | String c r' =>
          if bool_decide (c = ","%char) then parse_elems f (skip_ws r') (v :: acc)
          else if bool_decide (c = "]"%char) then Some (JList (rev (v :: acc)), r')
          else None
      | EmptyString => None
      end
  end
with parse_object (fuel : nat) (s : string) : option (json * string) :=
  match fuel with
  | O => None
  | S f =>
      match s with
      | String c r => if bool_decide (c = "}"%char) then Some (JDict [], r) else parse_members f s []
      | EmptyString => None
      end
  end
with parse_members (fuel : nat) (s : string) (acc : list (string * json)) :
    option (json * string) :=
  match fuel with
  | O => None
  | S f =>
      match s with
      | String c r =>
          if bool_decide (c = dq) then
            '(k, r1) ← parse_string r;
            match skip_ws r1 with
            | String c1 r2 =>
                if bool_decide (c1 = ":"%char) then
                  '(v, r3) ← parse_value f (skip_ws r2);
                  match skip_ws r3 with
                  | String c3 r4 =>
                      if bool_decide (c3 = ","%char) then parse_members f (skip_ws r4) ((k, v) :: acc)
                      else if bool_decide (c3 = "}"%char)
                      then Some (JDict (dict_of_pairs (rev ((k, v) :: acc))), r4)
                      else None
                  | EmptyString => None
                  end
                else None
            | EmptyString => None
            end
          else None
      | EmptyString => None
      end
  end.

(** [json.loads(s)]: one value, surrounded by whitespace only.  Every
    call of the scanner consumes input, so twice the length (plus two) is
    enough fuel. *)
Definition loads (s : string) : option json :=
  '(v, r) ← parse_value (2 * String.length s + 2) (skip_ws s);
  match skip_ws r with EmptyString => Some v | _ => None end.

(** ** Round trip: numbers *)

(** What may follow a number in a document: neither a digit nor the
    start of a fraction or exponent. *)
Definition num_follow (rest : string) : Prop :=
  starts_digit rest = false /\ float_suffix rest = false.

Lemma dec_digits_spec (f : nat) (n : Z) :
  0 <= n < 10 ^ Z.of_nat (S f) ->
  Forall (fun d => 0 <= d < 10) (dec_digits f n) /\
  fold_left (fun a d => a * 10 + d) (dec_digits f n) 0 = n /\
  (exists d ds, dec_digits f n = d :: ds /\ (0 < n -> 0 < d)).
Proof.
  revert n; induction f as [|f IH]; intros n Hn; simpl.
  - split; [repeat constructor; simpl in Hn; lia|]. split; [done|].
    eexists _, _; split; [reflexivity | lia].
  - destruct (n <? 10) eqn:E.
    + apply Z.ltb_lt in E. split; [repeat constructor; lia|]. split; [done|].
      eexists _, _; split; [reflexivity | lia].
    + apply Z.ltb_ge in E.
      assert (0 <= n / 10 < 10 ^ Z.of_nat (S f)) as Hq.
      { split; [apply Z.div_pos; lia|]. apply Z.div_lt_upper_bound; [lia|].
        rewrite <- Z.pow_succ_r by lia. rewrite <- Nat2Z.inj_succ. lia. }
      destruct (IH (n / 10) Hq) as (Hr & Hv & d & ds & Hds & Hd).
      split; [apply Forall_app; split; [done | repeat constructor; apply Z.mod_pos_bound; lia]|].
      split; [rewrite fold_left_app, Hv; simpl; pose proof (Z.div_mod n 10); lia|].
      rewrite Hds. eexists _, _; split; [reflexivity|].
      intros _. apply Hd. apply Z.div_str_pos; lia.
Qed.

Lemma pos_size_bound (p : positive) : Zpos p < 2 ^ Z.of_nat (Pos.size_nat p).
Proof.
  induction p as [p IH|p IH|]; cbn [Pos.size_nat]; rewrite ?Nat2Z.inj_succ, ?Z.pow_succ_r by lia;
    [rewrite Pos2Z.inj_xI | rewrite Pos2Z.inj_xO | ]; simpl; lia.
Qed.

Lemma pos_dec_bound (p : positive) : 0 <= Zpos p < 10 ^ Z.of_nat (S (Pos.size_nat p)).
Proof.
  pose proof (pos_size_bound p) as H.
  assert (2 ^ Z.of_nat (Pos.size_nat p) <= 10 ^ Z.of_nat (Pos.size_nat p))
    by (apply Z.pow_le_mono_l; lia).
  rewrite Nat2Z.inj_succ, Z.pow_succ_r by lia. lia.
Qed.

Lemma digit_val_char (d : Z) : 0 <= d < 10 -> digit_val (digit_char d) = Some d.
Proof.
  intros Hd. unfold digit_val, digit_char. rewrite ord_chr by lia.
  replace ((48 <=? 48 + d) && (48 + d <=? 57)) with true by (symmetry; apply andb_true_intro; split; apply Z.leb_le; lia).
  f_equal; lia.
Qed.

Lemma parse_digits_app (ds : list Z) (acc : Z) (rest : string) :
  Forall (fun d => 0 <= d < 10) ds -> starts_digit rest = false ->
  parse_digits acc (digits_str ds +:+ rest) =
    (fold_left (fun a d => a * 10 + d) ds acc, rest).
Proof.
  revert acc; induction ds as [|d ds IH]; intros acc Hds Hr.
  - destruct rest as [|c r]; [done|]. simpl in *.
    destruct (digit_val c); [|done]. apply bool_decide_eq_false in Hr. by destruct Hr.
  - inversion Hds; subst. cbn [digits_str fold_left]. rewrite string_app_cons.
    cbn [parse_digits]. rewrite digit_val_char by done. by apply IH.
Qed.

Lemma num_follow_not_digit (rest : string) : num_follow rest -> starts_digit rest = false.
Proof. by intros []. Qed.

Lemma parse_pos (p : positive) (rest : string) :
  num_follow rest ->
  parse_uint (digits_str (dec_digits (Pos.size_nat p) (Zpos p)) +:+ rest) = Some (Zpos p, rest).
Proof.
  intros Hf. destruct (dec_digits_spec _ _ (pos_dec_bound p)) as (Hr & Hv & d & ds & Hds & Hd).
  rewrite Hds in *. inversion Hr; subst. specialize (Hd ltac:(lia)).
  cbn [digits_str]. rewrite string_app_cons. cbn [parse_uint].
  rewrite digit_val_char by done.
  destruct d; try lia. rewrite parse_digits_app by (done || apply Hf).
  cbn [fold_left] in Hv. rewrite <- Hv. reflexivity.
Qed.

Lemma parse_number_z_dec (z : Z) (rest : string) :
  num_follow rest -> parse_number (z_dec z +:+ rest) = Some (JInt z, rest).
Proof.
  intros Hf. pose proof Hf as [_ Hfl].
  destruct z as [|p|p]; unfold parse_number, z_dec.
  - simpl. by rewrite Hfl.
  - destruct (dec_digits_spec _ _ (pos_dec_bound p)) as (Hr & _ & d & ds & Hds & _).
    pose proof (parse_pos p rest Hf) as Hp. rewrite Hds in Hp, Hr |- *.
    inversion Hr; subst. cbn [digits_str String.append] in Hp |- *.
    rewrite bool_decide_false
      by (intros Heq; apply (f_equal ord) in Heq; unfold digit_char in Heq;
          rewrite ord_chr in Heq by lia; change (ord "-"%char) with 45 in Heq; lia).
    rewrite Hp. simpl. by rewrite Hfl.
  - cbn [String.append]. rewrite bool_decide_true by done.
    rewrite parse_pos by done. simpl. by rewrite Hfl.
Qed.

(** ** Round trip: strings *)

Lemma hex4_val_hex4 (n : Z) : 0 <= n < 256 ->
  match hex4 n with
  | String h1 (String h2 (String h3 (String h4 EmptyString))) => hex4_val h1 h2 h3 h4 = Some n
  | _ => False
  end.
Proof.
  intros Hn. unfold hex4, hex2, hex4_val. simpl.
  rewrite !hex_val_digit
    by ((split; [apply Z.div_pos | apply Z.div_lt_upper_bound])
        || apply Z.mod_pos_bound; lia).
  simpl. f_equal. change (ord "0"%char) with 48. pose proof (Z.div_mod n 16). lia.
Qed.

Lemma parse_string_dumps_char (c : ascii) (t : string) :
  parse_string (dumps_char c +:+ t) = ('(x, r) ← parse_string t; Some (String c x, r)).
Proof.
  unfold dumps_char.
  repeat (case_bool_decide; [subst; reflexivity|]).
  pose proof (ord_range c) as Hr.
  destruct ((ord c <? 32) || (127 <=? ord c)) eqn:E.
  - pose proof (hex4_val_hex4 (ord c) Hr) as Hh.
    destruct (hex4 (ord c)) as [|h1 [|h2 [|h3 [|h4 [|]]]]]; try contradiction.
    cbn -[hex4_val ord]. rewrite Hh. replace (ord c <? 256) with true by (symmetry; apply Z.ltb_lt; lia).
    rewrite chr_ord. reflexivity.
  - apply orb_false_iff in E as [E1 E2]. apply Z.ltb_ge in E1. simpl.
    rewrite !bool_decide_false by done.
    replace (ord c <? 32) with false by (symmetry; apply Z.ltb_ge; lia). reflexivity.
Qed.

Lemma parse_string_dumps_chars (s rest : string) :
  parse_string (dumps_chars s +:+ String dq rest) = Some (s, rest).
Proof.
  induction s as [|c s IH]; [reflexivity|].
  cbn [dumps_chars]. rewrite string_app_assoc, parse_string_dumps_char, IH. reflexivity.
Qed.

(** ** Round trip: values *)

Lemma wf_jsonb_sound (v : json) : wf_jsonb v = true -> wf_json v.
Proof.
  induction v as [| | | |l IH|kvs IH] using json_ind'; simpl; try done.
  - induction IH as [|x l Hx _ IHl]; [done|]. intros [?%Hx ?%IHl]%andb_prop. by split.
  - intros [Hnd%bool_decide_eq_true Hkvs]%andb_prop. split; [done|]. clear Hnd.
    induction IH as [|kv kvs Hkv _ IHk]; [done|].
    apply andb_prop in Hkvs as [?%Hkv ?%IHk]. by split.
Qed.

Lemma wf_json_list (l : list json) : wf_json (JList l) <-> Forall wf_json l.
Proof.
  simpl. induction l as [|x l IH]; [split; auto|]. rewrite Forall_cons. tauto.
Qed.

Lemma wf_json_dict (kvs : list (string * json)) :
  wf_json (JDict kvs) <-> NoDup (map fst kvs) /\ Forall (fun kv => wf_json kv.2) kvs.
Proof.
  simpl. apply and_iff_compat_l.
  induction kvs as [|kv kvs IH]; [split; auto|]. rewrite Forall_cons. tauto.
Qed.

Lemma z_dec_head (z : Z) : exists c t, z_dec z = String c t /\ 45 <= ord c <= 57.
Proof.
  destruct z as [|p|p]; unfold z_dec.
  - exists "0"%char, EmptyString. split; [done|]. change (ord "0"%char) with 48. lia.
  - destruct (dec_digits_spec _ _ (pos_dec_bound p)) as (Hr & _ & d & ds & Hds & _).
    rewrite Hds in Hr |- *. inversion Hr; subst.
    exists (digit_char d), (digits_str ds). split; [done|].
    unfold digit_char. rewrite ord_chr by lia. lia.
  - eexists "-"%char, _. split; [reflexivity|]. change (ord "-"%char) with 45. lia.
Qed.

(** A character with code in [45, 57] ([-] or a digit) is none of the
    characters the scanner dispatches on. *)
Ltac num_char_neq Hc :=
  let Heq := fresh in let H1 := fresh in let H2 := fresh in
  intros Heq; subst; vm_compute in Hc; destruct Hc as [H1 H2];
  first [exact (H1 eq_refl) | exact (H2 eq_refl)].

Lemma dumps_head (v : json) :
  exists c t, dumps v = String c t /\ is_ws c = false /\ c <> "]"%char /\ c <> "}"%char.
Proof.
  destruct v as [|[]|z|s|l|kvs];
    try (eexists _, _; split; [reflexivity|]; split; [reflexivity|]; split; discriminate).
  destruct (z_dec_head z) as (c & t & Hz & Hc). exists c, t. cbn [dumps]. rewrite Hz.
  split; [done|]. split; [|split; num_char_neq Hc].
  unfold is_ws. rewrite !(proj2 (Z.eqb_neq _ _)) by lia. reflexivity.
Qed.

Lemma skip_ws_dumps (v : json) (s : string) : skip_ws (dumps v +:+ s) = dumps v +:+ s.
Proof. destruct (dumps_head v) as (c & t & Hd & Hw & _). rewrite Hd. simpl. by rewrite Hw. Qed.

Lemma skip_ws_sep (s : string) : skip_ws (", " +:+ s) = ", " +:+ s.
Proof. reflexivity. Qed.

Lemma parse_value_num_start (f : nat) (c : ascii) (t : string) : 45 <= ord c <= 57 ->
  parse_value (S f) (String c t) = parse_number (String c t).
Proof.
  intros Hc. cbn -[parse_number].
  repeat (rewrite bool_decide_false by num_char_neq Hc). reflexivity.
Qed.

Lemma dict_set_notin (k : string) (v : json) (d : list (string * json)) :
  k ∉ map fst d -> dict_set k v d = d ++ [(k, v)].
Proof.
  induction d as [|[k' v'] d IH]; intros Hk; [done|]. simpl.
  destruct (String.eqb_spec k' k) as [->|_]; [set_solver|].
  rewrite IH; [done | set_solver].
Qed.

Lemma dict_of_pairs_nodup (ps : list (string * json)) :
  NoDup (map fst ps) -> dict_of_pairs ps = ps.
Proof.
  unfold dict_of_pairs.
  assert (forall d, NoDup (map fst (d ++ ps)) ->
            fold_left (fun d kv => dict_set kv.1 kv.2 d) ps d = d ++ ps) as H.
  { induction ps as [|[k v] ps IH]; intros d Hd; simpl; [by rewrite app_nil_r|].
    rewrite dict_set_notin.
    - rewrite IH; rewrite <- app_assoc; [done | exact Hd].
    - rewrite map_app in Hd. simpl in Hd. apply NoDup_app in Hd as (_ & Hd & _).
      intros Hin. specialize (Hd k Hin). set_solver.
  }
  intros Hnd. by apply (H []).
Qed.

(** The [", "]-joined encodings of a non-empty list start like their
    first element. *)
Lemma join_dumps_head (l : list json) (s : string) : l <> [] ->
  exists c t, join_with ", " (map dumps l) +:+ s = String c t /\
              is_ws c = false /\ c <> "]"%char.
Proof.
  intros Hl. destruct l as [|x [|y l]]; [done| |];
    destruct (dumps_head x) as (c & t & Hd & Hw & Hb & _); cbn [map join_with];
    rewrite ?string_app_assoc, Hd; eexists _, _; (split; [reflexivity | auto]).
Qed.

Lemma skip_ws_join_dumps (l : list json) (s : string) : l <> [] ->
  skip_ws (join_with ", " (map dumps l) +:+ s) = join_with ", " (map dumps l) +:+ s.
Proof.
  intros Hl. destruct (join_dumps_head l s Hl) as (c & t & Hd & Hw & _).
  rewrite Hd. simpl. by rewrite Hw.
Qed.

Lemma parse_elems_dumps (l acc : list json) (fuel : nat) (rest : string) :
  Forall (fun v => forall fuel rest, (jsize v <= fuel)%nat -> num_follow rest ->
            parse_value fuel (dumps v +:+ rest) = Some (v, rest)) l ->
  l <> [] -> (list_sum (map (fun x => S (jsize x)) l) <= fuel)%nat ->
  parse_elems fuel (join_with ", " (map dumps l) +:+ "]" +:+ rest) acc =
    Some (JList (rev acc ++ l), rest).
Proof.
  revert acc fuel. induction l as [|x l IH]; intros acc fuel Hl Hne Hf; [done|].
  inversion Hl as [|? ? Hx Hl']; subst.
  destruct fuel as [|f]; [simpl in Hf; lia|]. simpl in Hf.
  destruct l as [|y l].
  - cbn [map join_with parse_elems].
    rewrite (Hx f ("]" +:+ rest)) by (lia || (unfold num_follow; split; reflexivity)).
    reflexivity.
  - remember (join_with ", " (map dumps (y :: l))) as J eqn:HJ.
    assert (join_with ", " (map dumps (x :: y :: l)) = dumps x +:+ ", " +:+ J) as ->
      by (subst J; reflexivity).
    cbn [parse_elems]. rewrite !string_app_assoc.
    rewrite (Hx f _) by (lia || (unfold num_follow; split; reflexivity)).
    simpl. subst J. rewrite skip_ws_join_dumps by discriminate.
    change (String "]" rest) with ("]" +:+ rest).
    rewrite (IH (x :: acc) f Hl') by (discriminate || (simpl in *; lia)).
    simpl. by rewrite <- app_assoc.
Qed.

(** One ["key": value] entry of a dict. *)
Lemma parse_members_entry (f : nat) (k : string) (v : json) (X : string)
    (acc : list (string * json)) :
  (forall rest, num_follow rest -> parse_value f (dumps v +:+ rest) = Some (v, rest)) ->
  num_follow X ->
  parse_members (S f) (dumps_str k +:+ ": " +:+ dumps v +:+ X) acc =
    match skip_ws X with
    | String c3 r4 =>
        if bool_decide (c3 = ","%char) then parse_members f (skip_ws r4) ((k, v) :: acc)
        else if bool_decide (c3 = "}"%char)
        then Some (JDict (dict_of_pairs (rev ((k, v) :: acc))), r4)
        else None
    | EmptyString => None
    end.
Proof.
  intros Hv HX. unfold dumps_str. rewrite string_app_cons. cbn [parse_members].
  rewrite bool_decide_true by reflexivity.
  rewrite string_app_assoc, string_app_cons, string_app_nil, parse_string_dumps_chars.
  simpl. rewrite skip_ws_dumps, Hv by done. reflexivity.
Qed.

Lemma join_entries_head (kvs : list (string * json)) (s : string) : kvs <> [] ->
  exists t, join_with ", " (map (fun kv => dumps_str kv.1 +:+ ": " +:+ dumps kv.2) kvs) +:+ s
            = String dq t.
Proof.
  intros Hl. destruct kvs as [|kv [|kv2 kvs]]; [done| |]; cbn [map join_with];
    rewrite ?string_app_assoc; unfold dumps_str; eexists; reflexivity.
Qed.

Lemma parse_members_dumps (kvs acc : list (string * json)) (fuel : nat) (rest : string) :
  Forall (fun kv => forall fuel rest, (jsize kv.2 <= fuel)%nat -> num_follow rest ->
            parse_value fuel (dumps kv.2 +:+ rest) = Some (kv.2, rest)) kvs ->
  kvs <> [] -> (list_sum (map (fun kv => S (jsize kv.2)) kvs) <= fuel)%nat ->
  parse_members fuel
    (join_with ", " (map (fun kv => dumps_str kv.1 +:+ ": " +:+ dumps kv.2) kvs)
     +:+ "}" +:+ rest) acc =
  Some (JDict (dict_of_pairs (rev acc ++ kvs)), rest).
Proof.
  revert acc fuel. induction kvs as [|[k v] kvs IH]; intros acc fuel Hl Hne Hf; [done|].
  inversion Hl as [|? ? Hx Hl']; subst. simpl in Hx.
  destruct fuel as [|f]; [simpl in Hf; lia|]. simpl in Hf.
  destruct kvs as [|kv2 kvs].
  - cbn [map join_with]. rewrite !string_app_assoc.
    rewrite parse_members_entry
      by (first [intros; apply Hx; [lia | assumption] | unfold num_follow; split; reflexivity]).
    reflexivity.
  - remember (join_with ", " (map (fun kv => dumps_str kv.1 +:+ ": " +:+ dumps kv.2) (kv2 :: kvs)))
      as J eqn:HJ.
    assert (join_with ", " (map (fun kv => dumps_str kv.1 +:+ ": " +:+ dumps kv.2) ((k, v) :: kv2 :: kvs))
            = (dumps_str k +:+ ": " +:+ dumps v) +:+ ", " +:+ J) as -> by (subst J; reflexivity).
    rewrite !string_app_assoc.
    rewrite parse_members_entry
      by (first [intros; apply Hx; [lia | assumption] | unfold num_follow; split; reflexivity]).
    destruct (join_entries_head (kv2 :: kvs) ("}" +:+ rest) ltac:(discriminate)) as [t Ht].
    rewrite <- HJ in Ht. simpl. change (String "}" rest) with ("}" +:+ rest).
    rewrite Ht. simpl. rewrite <- Ht. subst J.
    rewrite (IH ((k, v) :: acc) f Hl') by (discriminate || (simpl in *; lia)).
    simpl. by rewrite <- app_assoc.
Qed.

Lemma parse_value_list_start (f : nat) (X : string) :
  parse_value (S f) (String "[" X) = parse_array f (skip_ws X).
Proof. reflexivity. Qed.

Lemma parse_value_dict_start (f : nat) (X : string) :
  parse_value (S f) (String "{" X) = parse_object f (skip_ws X).
Proof. reflexivity. Qed.

Lemma parse_array_elems (f : nat) (c : ascii) (t : string) :
  c <> "]"%char -> parse_array (S f) (String c t) = parse_elems f (String c t) [].
Proof. intros Hc. simpl. by rewrite bool_decide_false. Qed.

Lemma parse_object_members (f : nat) (t : string) :
  parse_object (S f) (String dq t) = parse_members f (String dq t) [].
Proof. reflexivity. Qed.

Lemma forall_rt {A} (g : A -> json) (l : list A) :
  Forall (fun a => wf_json (g a) -> forall fuel rest, (jsize (g a) <= fuel)%nat ->
            num_follow rest -> parse_value fuel (dumps (g a) +:+ rest) = Some (g a, rest)) l ->
  Forall (fun a => wf_json (g a)) l ->
  Forall (fun a => forall fuel rest, (jsize (g a) <= fuel)%nat ->
            num_follow rest -> parse_value fuel (dumps (g a) +:+ rest) = Some (g a, rest)) l.
Proof. rewrite !Forall_forall. intros H1 H2 x Hx. apply H1; auto. Qed.

Theorem parse_value_dumps (v : json) : wf_json v ->
  forall fuel rest, (jsize v <= fuel)%nat -> num_follow rest ->
  parse_value fuel (dumps v +:+ rest) = Some (v, rest).
Proof.
  induction v as [| b | z | s | l IH | kvs IH] using json_ind'; intros Hwf fuel rest Hf Hr;
    (destruct fuel as [|f]; [simpl in Hf; lia|]).
  - reflexivity.
  - destruct b; reflexivity.
  - destruct (z_dec_head z) as (c & t & Hz & Hc). cbn [dumps]. rewrite Hz, string_app_cons.
    rewrite parse_value_num_start by done. rewrite <- string_app_cons, <- Hz.
    by apply parse_number_z_dec.
  - cbn [dumps]. unfold dumps_str. rewrite string_app_cons. simpl.
    rewrite string_app_assoc. simpl. by rewrite parse_string_dumps_chars.
  - apply wf_json_list in Hwf. pose proof (forall_rt id l IH Hwf) as IH'.
    cbn [dumps]. rewrite !string_app_assoc, string_app_cons, string_app_nil,
      parse_value_list_start.
    destruct l as [|x l'].
    + simpl in Hf. destruct f as [|f]; [lia|]. reflexivity.
    + rewrite skip_ws_join_dumps by discriminate. simpl in Hf. destruct f as [|f]; [lia|].
      destruct (join_dumps_head (x :: l') ("]" +:+ rest) ltac:(discriminate))
        as (c & t & Hs & _ & Hc).
      rewrite Hs, parse_array_elems, <- Hs by done.
      rewrite parse_elems_dumps; [done | exact IH' | discriminate | simpl; lia].
  - apply wf_json_dict in Hwf as [Hnd Hwf]. pose proof (forall_rt snd kvs IH Hwf) as IH'.
    cbn [dumps]. rewrite !string_app_assoc, string_app_cons, string_app_nil,
      parse_value_dict_start.
    destruct kvs as [|kv kvs'].
    + simpl in Hf. destruct f as [|f]; [lia|]. reflexivity.
    + destruct (join_entries_head (kv :: kvs') ("}" +:+ rest) ltac:(discriminate)) as [t Hs].
      simpl in Hf. destruct f as [|f]; [lia|].
      rewrite Hs. change (skip_ws (String dq t)) with (String dq t).
      rewrite parse_object_members, <- Hs.
      rewrite parse_members_dumps; [| exact IH' | discriminate | simpl; lia].
      simpl. by rewrite dict_of_pairs_nodup.
Qed.

(** ** Enough fuel *)

Lemma join_size_bound (ns : list nat) (ws : list string) :
  Forall2 (fun n w => (n <= 2 * String.length w)%nat) ns ws ->
  (list_sum (map S ns) <= 2 * String.length (join_with ", " ws) + 2)%nat.
Proof.
  induction 1 as [|n w ns ws Hnw H IH]; [simpl; lia|].
  destruct ws as [|w2 ws]; inversion H; subst; cbn [map list_sum join_with] in *;
    rewrite ?string_length_app in *; simpl in *; lia.
Qed.

Lemma dumps_length_pos (v : json) : (1 <= String.length (dumps v))%nat.
Proof. destruct (dumps_head v) as (c & t & -> & _). simpl. lia. Qed.

Lemma jsize_dumps (v : json) : (jsize v <= 2 * String.length (dumps v))%nat.
Proof.
  induction v as [| b | z | s | l IH | kvs IH] using json_ind';
    try (pose proof (dumps_length_pos (JInt z)));
    try (pose proof (dumps_length_pos (JStr s)));
    try (destruct b); cbn [jsize dumps] in *; try (simpl; lia).
  - rewrite !string_length_app. cbn [String.length].
    assert (list_sum (map (fun x => S (jsize x)) l) <=
            2 * String.length (join_with ", " (map dumps l)) + 2)%nat; [|lia].
    rewrite <- (map_map jsize S). apply join_size_bound.
    apply Forall2_fmap, Forall_Forall2_diag. exact IH.
  - rewrite !string_length_app. cbn [String.length].
    assert (list_sum (map (fun kv => S (jsize kv.2)) kvs) <=
            2 * String.length (join_with ", "
              (map (fun kv => dumps_str kv.1 +:+ ": " +:+ dumps kv.2) kvs)) + 2)%nat; [|lia].
    rewrite <- (map_map (fun kv => jsize kv.2) S). apply join_size_bound.
    apply Forall2_fmap, Forall_Forall2_diag. eapply Forall_impl; [exact IH|].
    intros [k v] Hv. simpl in *. rewrite !string_length_app. simpl. lia.
Qed.

Lemma string_app_nil_r (s : string) : s +:+ EmptyString = s.
Proof. induction s as [|c s IH]; [done|]. simpl. by rewrite IH. Qed.

(** The wire format round trip: [json.loads(json.dumps(v)) == v] for
    every well-formed value (a value whose dicts have distinct keys). *)
Theorem loads_dumps (v : json) : wf_json v -> loads (dumps v) = Some v.
Proof.
  intros Hwf. unfold loads.
  assert (skip_ws (dumps v) = dumps v) as ->.
  { pose proof (skip_ws_dumps v EmptyString) as H. by rewrite string_app_nil_r in H. }
  pose proof (parse_value_dumps v Hwf (2 * String.length (dumps v) + 2) EmptyString) as H.
  rewrite string_app_nil_r in H.
  rewrite H; [done | pose proof (jsize_dumps v); lia | split; reflexivity].
Qed.

(** ** Bytes *)

Lemma utf8_decode_char (c : ascii) (rest : list Z) :
  utf8_decode (utf8_char c ++ rest) = (t ← utf8_decode rest; Some (String c t)).
Proof. destruct c as [[] [] [] [] [] [] [] []]; reflexivity. Qed.

(** [bytes.decode()] inverts [str.encode()] on every string of code
    points below 256. *)
Theorem utf8_roundtrip (s : string) : utf8_decode (utf8_encode s) = Some s.
Proof.
  induction s as [|c s IH]; [done|]. cbn [utf8_encode].
  rewrite utf8_decode_char, IH. reflexivity.
Qed.

Lemma recv_short (bs : list Z) : (length bs <= 1024)%nat -> recv bs = bs.
Proof. intros H. unfold recv. by rewrite firstn_all2 by lia. Qed.

(** C7: a message [json.dumps(v).encode()] of at most 1024 bytes, [v] a
    well-formed value, is read back as [v] by
    [json.loads(recv(1024).decode())]: the wire loses nothing. *)
Lemma message_delivered (v : json) :
  wf_json v -> (length (utf8_encode (dumps v)) <= 1024)%nat ->
  (utf8_decode (recv (utf8_encode (dumps v))) ≫= loads) = Some v.
Proof.
  intros Hwf Hl. rewrite recv_short, utf8_roundtrip by done. simpl. by apply loads_dumps.
Qed.

Lemma message_delivered_witness :
  let v := JDict [("command", JStr "find_successor"); ("node_id", JInt 42)] in
  wf_json v /\ (length (utf8_encode (dumps v)) <= 1024)%nat /\
  (utf8_decode (recv (utf8_encode (dumps v))) ≫= loads) = Some v.
Proof.
  intros v.
  assert (wf_json v) as Hwf.
  { apply wf_json_dict. split; [repeat constructor; set_solver | repeat constructor]. }
  assert ((length (utf8_encode (dumps v)) <= 1024)%nat) as Hl by (vm_compute; lia).
  split; [exact Hwf|]. split; [exact Hl|]. exact (message_delivered v Hwf Hl).
Defined.

(** ** Sizes of encoded messages

    Bounds on the number of bytes [json.dumps(v).encode()] takes, used to
    show that the protocol's messages fit in one [recv(1024)]. *)

Lemma utf8_encode_length (s : string) :
  (length (utf8_encode s) <= 2 * String.length s)%nat.
Proof.
  induction s as [|c s IH]; [done|]. cbn [utf8_encode String.length].
  rewrite length_app. unfold utf8_char. destruct (Z.ltb _ 128); simpl; lia.
Qed.

Lemma dumps_char_length (c : ascii) : (String.length (dumps_char c) <= 6)%nat.
Proof. apply Nat.leb_le. destruct c as [[] [] [] [] [] [] [] []]; vm_compute; reflexivity. Qed.

Lemma dumps_str_length (s : string) :
  (String.length (dumps_str s) <= 6 * String.length s + 2)%nat.
Proof.
  unfold dumps_str. cbn [String.length]. rewrite string_length_app. cbn [String.length].
  induction s as [|c s IH]; [simpl; lia|]. cbn [dumps_chars String.length].
  rewrite string_length_app. pose proof (dumps_char_length c). lia.
Qed.

Lemma length_digits_str (ds : list Z) : String.length (digits_str ds) = length ds.
Proof. induction ds; simpl; congruence. Qed.

Lemma dec_digits_length (f k : nat) (n : Z) :
  (1 <= k)%nat -> 0 <= n < 10 ^ Z.of_nat k -> (length (dec_digits f n) <= k)%nat.
Proof.
  revert k n; induction f as [|f IH]; intros k n Hk Hn; simpl; [lia|].
  destruct (Z.ltb_spec n 10); simpl; [lia|].
  destruct k as [|[|k]]; [lia| |].
  - simpl in Hn. lia.
  - rewrite length_app. simpl.
    enough (length (dec_digits f (n / 10)) <= S k)%nat by lia.
    apply IH; [lia|]. split; [apply Z.div_pos; lia|].
    apply Z.div_lt_upper_bound; [lia|].
    replace (Z.of_nat (S (S k))) with (1 + Z.of_nat (S k)) in Hn by lia.
    rewrite Z.pow_add_r in Hn by lia. lia.
Qed.

(** [str(z)] of [0 <= z < 10^k] has at most [k] characters. *)
Lemma z_dec_length (z : Z) (k : nat) :
  (1 <= k)%nat -> 0 <= z < 10 ^ Z.of_nat k -> (String.length (z_dec z) <= k)%nat.
Proof.
  intros Hk Hz. destruct z as [|p|p]; simpl; [lia| |lia].
  rewrite length_digits_str. by apply dec_digits_length.
Qed.

(** Node identifiers and hashed keys have at most 49 decimal digits. *)
Lemma z_dec_length_160 (z : Z) :
  0 <= z < 2 ^ 160 -> (String.length (z_dec z) <= 49)%nat.
Proof.
  intros Hz. apply z_dec_length; [lia|].
  assert (2 ^ 160 < 10 ^ Z.of_nat 49) by (vm_compute; reflexivity). lia.
Qed.

Lemma z_dec_length_port (z : Z) :
  0 <= z <= 65535 -> (String.length (z_dec z) <= 5)%nat.
Proof. intros Hz. apply z_dec_length; [lia|]. change (10 ^ Z.of_nat 5) with 100000. lia. Qed.

(** [json.dumps] escapes every code point from 127 up ([ensure_ascii]):
    its output is ASCII, one byte per character once encoded. *)
Fixpoint is_ascii (s : string) : bool :=
  match s with
  | EmptyString => true
  | String c r => (ord c <? 128) && is_ascii r
  end.

Lemma is_ascii_app (s t : string) : is_ascii (s +:+ t) = is_ascii s && is_ascii t.
Proof.
  induction s as [|c s IH]; [done|]. rewrite string_app_cons. simpl. rewrite IH.
  by rewrite andb_assoc.
Qed.

#[export] Hint Rewrite is_ascii_app : chord_rw.

Lemma utf8_encode_ascii (s : string) :
  is_ascii s = true -> length (utf8_encode s) = String.length s.
Proof.
  induction s as [|c s IH]; [done|]. simpl. intros [Hc Hs]%andb_prop.
  rewrite length_app, IH by done. unfold utf8_char. by rewrite Hc.
Qed.

Lemma dumps_char_ascii (c : ascii) : is_ascii (dumps_char c) = true.
Proof. destruct c as [[] [] [] [] [] [] [] []]; vm_compute; reflexivity. Qed.

Lemma dumps_str_ascii (s : string) : is_ascii (dumps_str s) = true.
Proof.
  unfold dumps_str. cbn [is_ascii]. rewrite is_ascii_app. simpl.
  rewrite andb_true_r. induction s as [|c s IH]; [done|]. cbn [dumps_chars].
  by rewrite is_ascii_app, dumps_char_ascii, IH.
Qed.

Lemma digits_str_ascii (ds : list Z) :
  Forall (fun d => 0 <= d < 10) ds -> is_ascii (digits_str ds) = true.
Proof.
  induction 1 as [|d ds Hd _ IH]; [done|]. simpl. rewrite IH, andb_true_r.
  unfold digit_char. rewrite ord_chr by lia. apply Z.ltb_lt. lia.
Qed.

Lemma z_dec_ascii (z : Z) : is_ascii (z_dec z) = true.
Proof.
  destruct z as [|p|p]; [done| |]; cbn [z_dec]; [|cbn [is_ascii]];
    apply digits_str_ascii, (dec_digits_spec _ _ (pos_dec_bound p)).
Qed.

Lemma join_with_ascii (sep : string) (ws : list string) :
  is_ascii sep = true -> Forall (fun w => is_ascii w = true) ws ->
  is_ascii (join_with sep ws) = true.
Proof.
  intros Hsep. induction 1 as [|w ws Hw Hws IH]; [done|].
  destruct ws as [|w' ws]; [done|].
  change (join_with sep (w :: w' :: ws)) with (w +:+ sep +:+ join_with sep (w' :: ws)).
  by rewrite !is_ascii_app, Hw, Hsep, IH.
Qed.

Lemma dumps_ascii (v : json) : is_ascii (dumps v) = true.
Proof.
  induction v as [|b|z|s|l IH|kvs IH] using json_ind'; cbn [dumps].
  - done.
  - by destruct b.
  - apply z_dec_ascii.
  - apply dumps_str_ascii.
  - rewrite !is_ascii_app, join_with_ascii; [done..|]. by apply Forall_map.
  - rewrite !is_ascii_app, join_with_ascii; [done..|]. apply Forall_map.
    eapply Forall_impl; [exact IH|]. intros kv Hkv. by rewrite !is_ascii_app, dumps_str_ascii, Hkv.
Qed.

(** The bytes of a message are the characters of its [json.dumps]. *)
Lemma length_message (v : json) :
  length (utf8_encode (dumps v)) = String.length (dumps v).
Proof. apply utf8_encode_ascii, dumps_ascii. Qed.

(** Replaces the length of each escaped string literal by its value. *)
Ltac eval_literal_lengths :=
  repeat match goal with |- context [String.length (dumps_str (String ?c ?r))] =>
    let n := eval vm_compute in (String.length (dumps_str (String c r))) in
    change (String.length (dumps_str (String c r))) with n
  end.
