(* ===== verification/Truncation.v ===== *)
(** * Cut messages are rejected, never misread

    [recv(1024)] keeps the first 1024 bytes of a longer message.  The
    specification says such values are silently truncated; this file shows
    that for the node's messages, all JSON objects, the cut text never
    parses: [json.loads] of a proper prefix of an object's encoding
    fails, so the receiver sees a decoding error, never a different value.

    The argument: a parse that ends with a closing quote, bracket or brace
    does not look past it, so appending text to the input appends it to
    the rest ([parser_ext]); a successful parse of the prefix would then
    extend to the whole encoding, where the parse consumes everything. *)

From S2P Require Import Prelude Json Sha1 Identity Wire.

Local Open Scope Z_scope.

(** ** More fuel gives the same result *)

Lemma parser_mono (f : nat) : forall f', (f <= f')%nat ->
  (forall s r, parse_value f s = Some r -> parse_value f' s = Some r) /\
  (forall s r, parse_array f s = Some r -> parse_array f' s = Some r) /\
  (forall s acc r, parse_elems f s acc = Some r -> parse_elems f' s acc = Some r) /\
  (forall s r, parse_object f s = Some r -> parse_object f' s = Some r) /\
  (forall s acc r, parse_members f s acc = Some r -> parse_members f' s acc = Some r).
Proof.
  induction f as [|f IH]; intros f' Hle; [repeat split; discriminate|].
  destruct f' as [|f']; [lia|]. destruct (IH f' ltac:(lia)) as (Hv & Ha & He & Ho & Hm).
  repeat split.
  - intros [|c s] r; [done|]. cbn [parse_value].
    case_bool_decide; [apply Ho|]. case_bool_decide; [apply Ha|]. done.
  - intros [|c s] r; [done|]. cbn [parse_array]. case_bool_decide; [done|apply He].
  - intros s acc r. cbn [parse_elems].
    destruct (parse_value f s) as [[v r0]|] eqn:E; [|discriminate]. rewrite (Hv _ _ E).
    cbn [mbind option_bind]. destruct (skip_ws r0) as [|c r1]; [done|].
    case_bool_decide; [apply He|done].
  - intros [|c s] r; [done|]. cbn [parse_object]. case_bool_decide; [done|apply Hm].
  - intros [|c s] acc r; [done|]. cbn [parse_members]. case_bool_decide; [|done].
    destruct (parse_string s) as [[k r1]|]; [|done]. cbn [mbind option_bind].
    destruct (skip_ws r1) as [|c1 r2]; [done|]. case_bool_decide; [|done].
    destruct (parse_value f (skip_ws r2)) as [[v r3]|] eqn:E; [|discriminate].
    rewrite (Hv _ _ E). cbn [mbind option_bind].
    destruct (skip_ws r3) as [|c3 r4]; [done|]. case_bool_decide; [apply Hm|done].
Qed.

(** ** Appending text after a complete token *)

Lemma skip_ws_app (s t : string) :
  skip_ws s <> EmptyString -> skip_ws (s +:+ t) = skip_ws s +:+ t.
Proof.
  induction s as [|c s IH]; [done|]. rewrite string_app_cons. cbn [skip_ws].
  destruct (is_ws c); [exact IH|]. intros _. by rewrite string_app_cons.
Qed.

Lemma strip_prefix_app (p s t r : string) :
  strip_prefix p s = Some r -> strip_prefix p (s +:+ t) = Some (r +:+ t).
Proof.
  revert s; induction p as [|a p IH]; intros s; [by intros [= <-]|].
  destruct s as [|b s]; [done|]. rewrite string_app_cons. cbn [strip_prefix].
  case_bool_decide; [apply IH | done].
Qed.

Lemma strip_prefix_head (a c : ascii) (p s : string) :
  a <> c -> strip_prefix (String a p) (String c s) = None.
Proof. intros Hne. cbn. by rewrite bool_decide_eq_false_2. Qed.

Lemma parse_string_app_n (n : nat) : forall s t x r,
  (String.length s <= n)%nat -> parse_string s = Some (x, r) ->
  parse_string (s +:+ t) = Some (x, r +:+ t).
Proof.
  induction n as [|n IH]; intros s t x r Hn; [destruct s; [done | simpl in Hn; lia]|].
  destruct s as [|c s]; [done|]. rewrite string_app_cons. cbn [parse_string].
  simpl in Hn. case_bool_decide; [by intros [= <- <-]|].
  case_bool_decide.
  - destruct s as [|e s]; [done|]. rewrite string_app_cons. simpl in Hn.
    case_bool_decide.
    + destruct s as [|h1 [|h2 [|h3 [|h4 s]]]]; try done. rewrite !string_app_cons.
      simpl in Hn. destruct (hex4_val h1 h2 h3 h4); [|done].
      destruct (_ <? 256); [|done].
      destruct (parse_string s) as [[x1 r1]|] eqn:E; [|discriminate].
      rewrite (IH s t x1 r1) by (done || lia). cbn [mbind option_bind]. by intros [= <- <-].
    + destruct (short_escape e); [|done].
      destruct (parse_string s) as [[x1 r1]|] eqn:E; [|discriminate].
      rewrite (IH s t x1 r1) by (done || lia). cbn [mbind option_bind]. by intros [= <- <-].
  - destruct (ord c <? 32); [done|].
    destruct (parse_string s) as [[x1 r1]|] eqn:E; [|discriminate].
    rewrite (IH s t x1 r1) by (done || lia). cbn [mbind option_bind]. by intros [= <- <-].
Qed.

Lemma parse_string_app (s t x r : string) :
  parse_string s = Some (x, r) -> parse_string (s +:+ t) = Some (x, r +:+ t).
Proof. apply (parse_string_app_n (String.length s)). lia. Qed.

Lemma parse_digits_ext (acc : Z) (s t : string) (a : Z) (r : string) :
  parse_digits acc s = (a, r) -> r <> EmptyString ->
  parse_digits acc (s +:+ t) = (a, r +:+ t).
Proof.
  revert acc; induction s as [|c s IH]; intros acc; [by intros [= _ <-]|].
  rewrite string_app_cons. cbn [parse_digits].
  destruct (digit_val c); [apply IH|]. intros [= -> <-] _. by rewrite string_app_cons.
Qed.

(** What ends a number token for good: a character that neither
    continues its digits nor starts a fraction or an exponent. *)
Definition num_stop (r : string) : Prop :=
  match r with
  | String c _ => digit_val c = None /\ c <> "."%char /\ c <> "e"%char /\ c <> "E"%char
  | EmptyString => False
  end.

Lemma float_suffix_stop (r t : string) :
  num_stop r -> float_suffix (r +:+ t) = false /\ float_suffix r = false.
Proof.
  destruct r as [|c r]; [done|]. intros (_ & H1 & H2 & H3). rewrite string_app_cons.
  cbn [float_suffix]. repeat (case_bool_decide; [congruence|]). done.
Qed.

Lemma parse_uint_app (s t : string) (n : Z) (r : string) :
  parse_uint s = Some (n, r) -> num_stop r -> parse_uint (s +:+ t) = Some (n, r +:+ t).
Proof.
  destruct s as [|c s]; [done|]. rewrite string_app_cons. cbn [parse_uint].
  destruct (digit_val c) as [[|d|d]|].
  - by intros [= <- <-].
  - intros [= Hd] Hr. f_equal. apply parse_digits_ext; [exact Hd | by destruct r].
  - intros [= Hd] Hr. f_equal. apply parse_digits_ext; [exact Hd | by destruct r].
  - discriminate.
Qed.

Lemma parse_number_app (s t : string) (v : json) (r : string) :
  parse_number s = Some (v, r) -> num_stop r -> parse_number (s +:+ t) = Some (v, r +:+ t).
Proof.
  intros Hs Hr. destruct s as [|c s]; [done|]. revert Hs. rewrite string_app_cons.
  unfold parse_number. destruct (float_suffix_stop r t Hr) as [Ht Hr'].
  case_bool_decide.
  - destruct (parse_uint s) as [[n r1]|] eqn:E; [|discriminate]. cbn [mbind option_bind].
    destruct (float_suffix r1); [discriminate|]. intros [= <- <-].
    rewrite (parse_uint_app s t n r1) by done. cbn [mbind option_bind]. by rewrite Ht.
  - destruct (parse_uint (String c s)) as [[n r1]|] eqn:E; [|discriminate].
    cbn [mbind option_bind]. destruct (float_suffix r1); [discriminate|]. intros [= <- <-].
    rewrite <- string_app_cons, (parse_uint_app (String c s) t n r1) by done.
    cbn [mbind option_bind]. by rewrite Ht.
Qed.

Lemma parse_number_head (c : ascii) (s : string) (x : json * string) :
  parse_number (String c s) = Some x -> c = "-"%char \/ is_Some (digit_val c).
Proof.
  unfold parse_number. case_bool_decide; [by left|]. cbn [parse_uint].
  destruct (digit_val c); [by right; eexists | discriminate].
Qed.

Lemma strip_prefix_some_head (a c : ascii) (p s r : string) :
  strip_prefix (String a p) (String c s) = Some r -> a = c.
Proof. cbn. by case_bool_decide. Qed.

(** A blank, [,], [\]] or [}] ends a number token. *)
Lemma num_stop_sep (r r' : string) (c : ascii) :
  skip_ws r = String c r' -> digit_val c = None -> c <> "."%char -> c <> "e"%char ->
  c <> "E"%char -> num_stop r.
Proof.
  intros Hr Hd H1 H2 H3. destruct r as [|c0 r0]; [done|]. cbn [skip_ws] in Hr.
  destruct (is_ws c0) eqn:Hw.
  - apply orb_prop in Hw as [[[Hw|Hw]%orb_prop|Hw]%orb_prop|Hw]; apply Z.eqb_eq in Hw;
      (split; [unfold digit_val; rewrite Hw; reflexivity|]);
      repeat split; intros ->; discriminate Hw.
  - injection Hr as -> _. done.
Qed.

Lemma parser_nil (f : nat) :
  parse_value f EmptyString = None /\ parse_array f EmptyString = None /\
  (forall acc, parse_elems f EmptyString acc = None) /\ parse_object f EmptyString = None /\
  (forall acc, parse_members f EmptyString acc = None).
Proof.
  destruct f as [|f]; [done|]. repeat split; try reflexivity.
  intros acc. cbn [parse_elems]. by destruct f.
Qed.

Definition is_int (v : json) : Prop := match v with JInt _ => True | _ => False end.

Lemma parse_number_int (s : string) (v : json) (r : string) :
  parse_number s = Some (v, r) -> is_int v.
Proof.
  unfold parse_number. destruct s as [|c s']; [|case_bool_decide];
    (destruct (parse_uint _) as [[n r1]|]; [|discriminate]); cbn [mbind option_bind];
    (destruct (float_suffix r1); [discriminate|]); by intros [= <- _].
Qed.

Lemma number_head_not_literal (c : ascii) :
  c = "-"%char \/ is_Some (digit_val c) ->
  c <> "n"%char /\ c <> "t"%char /\ c <> "f"%char.
Proof. intros [-> | [d Hd]]; [done|]. repeat split; intros ->; discriminate Hd. Qed.

(** The separators that may follow a value inside an array or object. *)
Lemma num_stop_comma (r r' : string) : skip_ws r = String ","%char r' -> num_stop r.
Proof. intros H. by apply (num_stop_sep r r' ","%char). Qed.

Lemma num_stop_close (r r' : string) (c : ascii) :
  c = "]"%char \/ c = "}"%char -> skip_ws r = String c r' -> num_stop r.
Proof. intros [-> | ->] H; by eapply num_stop_sep. Qed.

Lemma skip_ws_nonempty (s : string) (c : ascii) (r : string) :
  skip_ws s = String c r -> skip_ws s <> EmptyString.
Proof. by intros ->. Qed.

(** A parse that succeeded goes on succeeding, with the same value, when
    text is appended; a number must be followed by a character that ends
    it. *)
Lemma parser_ext (f : nat) :
  (forall s t v r, parse_value f s = Some (v, r) -> (is_int v -> num_stop r) ->
     parse_value f (s +:+ t) = Some (v, r +:+ t)) /\
  (forall s t v r, parse_array f s = Some (v, r) -> parse_array f (s +:+ t) = Some (v, r +:+ t)) /\
  (forall s t acc v r, parse_elems f s acc = Some (v, r) ->
     parse_elems f (s +:+ t) acc = Some (v, r +:+ t)) /\
  (forall s t v r, parse_object f s = Some (v, r) -> parse_object f (s +:+ t) = Some (v, r +:+ t)) /\
  (forall s t acc v r, parse_members f s acc = Some (v, r) ->
     parse_members f (s +:+ t) acc = Some (v, r +:+ t)).
Proof.
  induction f as [|f IH]; [repeat split; discriminate|].
  destruct IH as (Hv & Ha & He & Ho & Hm).
  destruct (parser_nil f) as (Nv & Na & Ne & No & Nm).
  repeat split.
  - intros [|c s] t v r; [done|]. rewrite string_app_cons. cbn [parse_value].
    case_bool_decide.
    { intros E _. assert (skip_ws s <> EmptyString) by (intros W; by rewrite W, No in E).
      rewrite skip_ws_app by done. by apply Ho. }
    case_bool_decide.
    { intros E _. assert (skip_ws s <> EmptyString) by (intros W; by rewrite W, Na in E).
      rewrite skip_ws_app by done. by apply Ha. }
    case_bool_decide.
    { destruct (parse_string s) as [[x r1]|] eqn:P; [|discriminate].
      rewrite (parse_string_app s t x r1 P). cbn [mbind option_bind]. by intros [= <- <-]. }
    destruct (strip_prefix "null" (String c s)) as [r1|] eqn:P1.
    { intros [= <- <-] _. by rewrite <- string_app_cons, (strip_prefix_app _ _ _ _ P1). }
    destruct (strip_prefix "true" (String c s)) as [r1|] eqn:P2.
    { pose proof (strip_prefix_some_head _ _ _ _ _ P2) as <-.
      rewrite strip_prefix_head by discriminate.
      intros [= <- <-] _. by rewrite <- string_app_cons, (strip_prefix_app _ _ _ _ P2). }
    destruct (strip_prefix "false" (String c s)) as [r1|] eqn:P3.
    { pose proof (strip_prefix_some_head _ _ _ _ _ P3) as <-.
      rewrite !strip_prefix_head by discriminate.
      intros [= <- <-] _. by rewrite <- string_app_cons, (strip_prefix_app _ _ _ _ P3). }
    intros E Hstop. destruct (number_head_not_literal c (parse_number_head _ _ _ E)) as (Hn & Ht & Hf).
    rewrite !strip_prefix_head by done. rewrite <- string_app_cons.
    apply parse_number_app; [done|]. apply Hstop. by eapply parse_number_int.
  - intros [|c s] t v r; [done|]. rewrite string_app_cons. cbn [parse_array].
    case_bool_decide; [by intros [= <- <-]|]. intros E. rewrite <- string_app_cons. by apply He.
  - intros s t acc v r. cbn [parse_elems].
    destruct (parse_value f s) as [[v1 r1]|] eqn:P; [|discriminate]. cbn [mbind option_bind].
    destruct (skip_ws r1) as [|c r2] eqn:W; [discriminate|].
    case_bool_decide as Hc.
    + subst c. intros E.
      rewrite (Hv s t v1 r1 P (fun _ => num_stop_comma _ _ W)). cbn [mbind option_bind].
      rewrite skip_ws_app by (by rewrite W). rewrite W, string_app_cons. cbn [skip_ws].
      rewrite bool_decide_eq_true_2 by done.
      assert (skip_ws r2 <> EmptyString) by (intros W2; by rewrite W2, Ne in E).
      rewrite skip_ws_app by done. by apply He.
    + case_bool_decide as Hc'; [|discriminate]. subst c. intros [= <- <-].
      rewrite (Hv s t v1 r1 P (fun _ => num_stop_close _ _ _ (or_introl eq_refl) W)).
      cbn [mbind option_bind]. rewrite skip_ws_app by (by rewrite W). rewrite W, string_app_cons.
      rewrite bool_decide_eq_false_2 by done. by rewrite bool_decide_eq_true_2.
  - intros [|c s] t v r; [done|]. rewrite string_app_cons. cbn [parse_object].
    case_bool_decide; [by intros [= <- <-]|]. intros E. rewrite <- string_app_cons. by apply Hm.
  - intros [|c s] t acc v r; [done|]. rewrite string_app_cons. cbn [parse_members].
    case_bool_decide; [|done].
    destruct (parse_string s) as [[k r1]|] eqn:P; [|discriminate].
    rewrite (parse_string_app s t k r1 P). cbn [mbind option_bind].
    destruct (skip_ws r1) as [|c1 r2] eqn:W1; [discriminate|].
    rewrite skip_ws_app by (by rewrite W1). rewrite W1, string_app_cons.
    case_bool_decide; [|done].
    destruct (parse_value f (skip_ws r2)) as [[v1 r3]|] eqn:P3; [|discriminate].
    assert (skip_ws r2 <> EmptyString) by (intros W2; by rewrite W2, Nv in P3).
    rewrite skip_ws_app by done. cbn [mbind option_bind].
    destruct (skip_ws r3) as [|c3 r4] eqn:W3; [discriminate|].
    case_bool_decide as Hc.
    + subst c3. intros E.
      rewrite (Hv _ t v1 r3 P3 (fun _ => num_stop_comma _ _ W3)). cbn [mbind option_bind].
      rewrite skip_ws_app by (by rewrite W3). rewrite W3, string_app_cons.
      rewrite bool_decide_eq_true_2 by done.
      assert (skip_ws r4 <> EmptyString) by (intros W4; by rewrite W4, Nm in E).
      rewrite skip_ws_app by done. by apply Hm.
    + case_bool_decide as Hc'; [|discriminate]. subst c3. intros [= <- <-].
      rewrite (Hv _ t v1 r3 P3 (fun _ => num_stop_close _ _ _ (or_intror eq_refl) W3)).
      cbn [mbind option_bind]. rewrite skip_ws_app by (by rewrite W3). rewrite W3, string_app_cons.
      rewrite bool_decide_eq_false_2 by done. by rewrite bool_decide_eq_true_2.
Qed.

(** ** A cut object never parses *)

Lemma dumps_dict_head (kvs : list (string * json)) :
  exists d, dumps (JDict kvs) = String "{" d.
Proof. by eexists. Qed.

Lemma string_app_eq_nil (r t : string) : r +:+ t = EmptyString -> t = EmptyString.
Proof. intros H%(f_equal String.length). rewrite string_length_app in H. destruct t; [done|simpl in H; lia]. Qed.

(** [json.loads] of a proper prefix of a well-formed object's encoding
    fails. *)
Lemma loads_cut_dict (kvs : list (string * json)) (p t : string) :
  wf_json (JDict kvs) -> dumps (JDict kvs) = p +:+ t -> t <> EmptyString -> loads p = None.
Proof.
  intros Hwf Hd Ht. destruct (loads p) as [w|] eqn:L; [exfalso|done]. unfold loads in L.
  destruct (dumps_dict_head kvs) as [d Hh]. rewrite Hh in Hd.
  destruct p as [|c p']; [discriminate L|]. rewrite string_app_cons in Hd. injection Hd as <- Hd.
  change (skip_ws (String "{" p')) with (String "{" p') in L.
  set (f := (2 * String.length (String "{" p') + 1)%nat).
  replace (2 * String.length (String "{" p') + 2)%nat with (S f) in L by (subst f; lia).
  rewrite parse_value_dict_start in L.
  destruct (parse_object f (skip_ws p')) as [[w' r]|] eqn:P; [|discriminate].
  destruct (parser_nil f) as (_ & _ & _ & No & _). destruct (parser_ext f) as (_ & _ & _ & Ho & _).
  assert (skip_ws p' <> EmptyString) by (intros E; by rewrite E, No in P).
  pose proof (Ho _ t _ _ P) as P2. rewrite <- skip_ws_app in P2 by done.
  rewrite <- parse_value_dict_start, <- Hd, <- Hh in P2.
  pose proof (parse_value_dumps (JDict kvs) Hwf (jsize (JDict kvs)) EmptyString
                ltac:(done) ltac:(split; reflexivity)) as P3.
  rewrite string_app_nil_r in P3.
  destruct (parser_mono (S f) (Nat.max (S f) (jsize (JDict kvs))) ltac:(lia)) as (M1 & _).
  destruct (parser_mono (jsize (JDict kvs)) (Nat.max (S f) (jsize (JDict kvs))) ltac:(lia))
    as (M2 & _).
  apply M1 in P2. apply M2 in P3. rewrite P2 in P3. injection P3 as _ E.
  exact (Ht (string_app_eq_nil _ _ E)).
Qed.

(** An ASCII string's encoding is one byte per character, so its first
    [n] bytes encode its first [n] characters. *)
Lemma ascii_prefix (n : nat) (s : string) :
  is_ascii s = true -> (n <= String.length s)%nat ->
  exists p t, s = p +:+ t /\ String.length p = n /\ firstn n (utf8_encode s) = utf8_encode p.
Proof.
  revert n; induction s as [|c s IH]; intros n Ha Hn.
  - exists EmptyString, EmptyString. destruct n; [done | simpl in Hn; lia].
  - destruct n as [|n]; [by exists EmptyString, (String c s)|].
    simpl in Ha. apply andb_prop in Ha as [Hc Ha]. simpl in Hn.
    destruct (IH n Ha ltac:(lia)) as (p & t & -> & Hp & Hf).
    exists (String c p), t. split; [done|]. split; [simpl; lia|].
    cbn [utf8_encode]. unfold utf8_char. rewrite Hc. simpl. by rewrite Hf.
Qed.

(** A well-formed object whose encoding exceeds 1024 bytes does not
    decode once [recv(1024)] has cut it. *)
Lemma cut_message_rejected (kvs : list (string * json)) :
  wf_json (JDict kvs) -> (1024 < length (utf8_encode (dumps (JDict kvs))))%nat ->
  (utf8_decode (recv (utf8_encode (dumps (JDict kvs)))) ≫= loads) = None.
Proof.
  intros Hwf Hl. rewrite length_message in Hl.
  destruct (ascii_prefix 1024 _ (dumps_ascii (JDict kvs)) ltac:(lia)) as (p & t & Hs & Hp & Hf).
  unfold recv. rewrite Hf, utf8_roundtrip. cbn [mbind option_bind].
  apply (loads_cut_dict kvs p t Hwf Hs). intros ->.
  rewrite Hs, string_length_app in Hl. simpl in Hl. lia.
Qed.
