(* ===== verification/Network.v ===== *)
(** * The request dispatcher and the network of nodes

    A network is the map from the address [(ip, port)] a node's server is
    bound to, to that node's state.  A connection is synchronous: the
    caller's [send_request] runs the callee's [handle_request] to the end
    and reads back what it sent.  Threads, blocking and timeouts are not
    modelled; one request is handled at a time.

    - [connect_target]: the checks of [socket.connect((ip, port))];
    - [send_request_with] (src/node.py:146-156): connect, send
      [json.dumps(request).encode()], read [recv(1024).decode()], and
      [json.loads] it; every failure becomes [{"status": "error", ..}];
    - [process_request] (src/node.py:176-195): the dispatch on [command];
    - [handle_request] (src/node.py:161-173): decode one request, answer
      it, or drop the connection without answer on any exception.

    [find_successor] forwards by calling [send_request], which runs the
    next node's [handle_request]: the recursion goes through the network.
    [handle_request] takes a fuel argument that each forwarding hop
    consumes; [None] means that the fuel ran out, i.e. that the chain of
    forwarded requests is longer than the fuel (the code has no hop
    limit, so an endless chain never answers). *)

From S2P Require Import Prelude Json Sha1 Identity Store Node Wire Truncation.

Local Open Scope Z_scope.

Module Network.

Abbreviation addr := (string * Z)%type.
Abbreviation network := (gmap (string * Z) Node.node).

(** [socket.connect((ip, port))]: the host must be a str, the port an int
    in [0, 65535]. *)
Definition connect_target (ipv portv : json) : res addr :=
  match ipv with
  | JStr ip =>
      match py_num portv with
      | Some p =>
          if (0 <=? p) && (p <=? 65535) then Ok (ip, p)
          else raise! OverflowError "connect(): port must be 0-65535."
      | None => raise! TypeError
                  ("'" +:+ py_type_name portv +:+ "' object cannot be interpreted as an integer")
      end
  | _ => raise! TypeError ("str, bytes or bytearray expected, not " +:+ py_type_name ipv)
  end.

Definition connection_refused : string := "[Errno 111] Connection refused".

(** [str(e)] of the decoding errors of a response.  The text of the
    empty response (the peer closed the connection without answering) is
    CPython's; the position-dependent texts of other malformed responses
    are not modelled. *)
Definition decode_error_text (response : string) : string :=
  match response with
  | EmptyString => "Expecting value: line 1 column 1 (char 0)"
  | _ => "invalid JSON document"
  end.
Definition unicode_error_text : string := "'utf-8' codec can't decode the response".

(** [send_request(ip, port, request)], given the callee's handler [serve]. *)
Definition send_request_with
    (serve : network -> addr -> list Z -> option (network * option (list Z)))
    (net : network) (ipv portv request : json) : option (network * json) :=
  match connect_target ipv portv with
  | Raise e => Some (net, error_message (exc_msg e))
  | Ok a =>
      match net !! a with
      | None => Some (net, error_message connection_refused)
      | Some _ =>
          '(net', reply) ← serve net a (utf8_encode (dumps request));
          match utf8_decode (recv (default [] reply)) with
          | None => Some (net', error_message unicode_error_text)
          | Some response =>
              match loads response with
              | Some v => Some (net', v)
              | None => Some (net', error_message (decode_error_text response))
              end
          end
      end
  end.

(** The fields [process_request] reads with [request.get] (line 178-181). *)
Definition request_fields (request : json) : res (json * json * json * json) :=
  command ← py_get request "command";
  key ← py_get request "key";
  value ← py_get request "value";
  node_id ← py_get request "node_id";
  Ok (command, key, value, node_id).

(** A store operation of node [n] at address [a]: its new dict is written
    back into the network. *)
Definition store_update (net : network) (a : addr) (n : Node.node)
    (r : res (gmap Z json * json)) : network * res json :=
  match r with
  | Ok (ds', resp) => (<[a := Node.set_data_store n ds']> net, Ok resp)
  | Raise e => (net, Raise e)
  end.

(** [process_request(request)] at node [n] bound to [a]; [send] is
    [send_request].  The result is the new network and the response or the
    exception. *)
Definition process_request
    (send : network -> json -> json -> json -> option (network * json))
    (net : network) (a : addr) (n : Node.node) (request : json) :
    option (network * res json) :=
  match request_fields request with
  | Raise e => Some (net, Raise e)
  | Ok (command, key, value, node_id) =>
      if py_eq_str command "insert" then
        Some (store_update net a n (Store.insert (Node.data_store n) key value))
      else if py_eq_str command "query" then
        Some (net, Store.query (Node.data_store n) key)
      else if py_eq_str command "delete" then
        Some (store_update net a n (Store.delete (Node.data_store n) key))
      else if py_eq_str command "find_successor" then
        match Node.find_successor n node_id with
        | Raise e => Some (net, Raise e)
        | Ok (Node.FSReply resp) => Some (net, Ok resp)
        | Ok (Node.FSForward ip port req) =>
            '(net', resp) ← send net ip port req; Some (net', Ok resp)
        end
      else if py_eq_str command "update_predecessor" then
        match py_getitem request "ip" ≫= fun ip => py_getitem request "port" ≫= fun port =>
              Ok (ip, port) with
        | Raise e => Some (net, Raise e)
        | Ok (ip, port) =>
            let '(n', resp) := Node.update_predecessor n node_id ip port in
            Some (<[a := n']> net, Ok resp)
        end
      else
        Some (net, Ok (error_message ("Invalid command received: " +:+ py_str command)))
  end.

(** [handle_request(conn)] at the node bound to [a], for the bytes [bs]
    the client sent: [Some bytes] is the answer, [None] a connection
    closed without answer. *)
Fixpoint handle_request (fuel : nat) (net : network) (a : addr) (bs : list Z) :
    option (network * option (list Z)) :=
  match fuel with
  | O => None
  | S fuel' =>
      match net !! a with
      | None => Some (net, None)
      | Some n =>
          match utf8_decode (recv bs) with
          | None => Some (net, None)
          | Some EmptyString => Some (net, None)
          | Some data =>
              match loads data with
              | None => Some (net, None)
              | Some request =>
                  '(net', r) ← process_request (send_request_with (handle_request fuel'))
                                 net a n request;
                  match r with
                  | Ok response => Some (net', Some (utf8_encode (dumps response)))
                  | Raise _ => Some (net', None)
                  end
              end
          end
      end
  end.

Definition send_request (fuel : nat) : network -> json -> json -> json -> option (network * json) :=
  send_request_with (handle_request fuel).

(** ** The skeleton of a network

    What no request changes: which addresses are bound, and each node's
    address, identifier and successor.  Two networks with the same
    skeleton are equivalent for routing. *)
Definition skel (n : Node.node) : string * Z * Z * option json :=
  (Node.ip n, Node.port n, Node.node_id n, Node.successor n).

Definition same_skel (net net' : network) : Prop :=
  forall a, skel <$> net !! a = skel <$> net' !! a.

End Network.

(** ** The skeleton is an equivalence that every request preserves *)

#[export] Instance same_skel_equiv : Equivalence Network.same_skel.
Proof.
  split; unfold Network.same_skel.
  - intros net a. reflexivity.
  - intros net net' H a. by rewrite H.
  - intros n1 n2 n3 H12 H23 a. by rewrite H12, H23.
Qed.

Lemma same_skel_insert (net : Network.network) (a : Network.addr) (n n' : Node.node) :
  net !! a = Some n -> Network.skel n' = Network.skel n ->
  Network.same_skel net (<[a := n']> net).
Proof.
  intros Ha Hs b. destruct (decide (a = b)) as [<-|Hne].
  - by rewrite lookup_insert_eq, Ha; simpl; rewrite Hs.
  - by rewrite lookup_insert_ne.
Qed.

Lemma skel_set_data_store (n : Node.node) (ds : gmap Z json) :
  Network.skel (Node.set_data_store n ds) = Network.skel n.
Proof. reflexivity. Qed.

Lemma skel_set_predecessor (n : Node.node) (p : json) :
  Network.skel (Node.set_predecessor n p) = Network.skel n.
Proof. reflexivity. Qed.

(** A handler that preserves the skeleton. *)
Definition serve_keeps_skel
    (serve : Network.network -> Network.addr -> list Z ->
             option (Network.network * option (list Z))) : Prop :=
  forall net a bs net' r, serve net a bs = Some (net', r) -> Network.same_skel net net'.

Lemma send_request_with_skel serve net ipv portv req net' r :
  serve_keeps_skel serve ->
  Network.send_request_with serve net ipv portv req = Some (net', r) ->
  Network.same_skel net net'.
Proof.
  intros Hs. unfold Network.send_request_with.
  destruct (Network.connect_target ipv portv) as [a|e]; [|intros [= <- _]; reflexivity].
  destruct (net !! a); [|intros [= <- _]; reflexivity].
  destruct (serve net a _) as [[net1 reply]|] eqn:E; [|discriminate]. simpl.
  apply Hs in E.
  destruct (utf8_decode _) as [resp|]; [destruct (loads resp)|]; intros [= <- _]; exact E.
Qed.

Lemma store_update_skel net a n r :
  net !! a = Some n -> Network.same_skel net (Network.store_update net a n r).1.
Proof.
  intros Ha. destruct r as [[ds' resp]|e]; simpl; [|reflexivity].
  by apply same_skel_insert with n.
Qed.

Lemma process_request_skel send net a n req net' r :
  (forall net ip port q net' r, send net ip port q = Some (net', r) -> Network.same_skel net net') ->
  net !! a = Some n ->
  Network.process_request send net a n req = Some (net', r) ->
  Network.same_skel net net'.
Proof.
  intros Hs Ha. unfold Network.process_request.
  destruct (Network.request_fields req) as [[[[command key] value] node_id]|e];
    [|intros [= <- _]; reflexivity].
  repeat case_match; try (intros [= <- _]; reflexivity);
    try (intros [= Hr]; apply (f_equal fst) in Hr; cbn [fst] in Hr; subst net';
         by apply store_update_skel).
  - match goal with |- context [send ?x ?y ?z ?w] =>
      destruct (send x y z w) as [[net1 resp]|] eqn:E end; [|discriminate].
    intros [= <- _]. by apply Hs in E.
  - match goal with H : Node.update_predecessor _ _ _ _ = _ |- _ => injection H as <- _ end.
    intros [= <- _]. by apply same_skel_insert with n.
Qed.

(** The frame lemma: [handle_request] keeps the skeleton, by induction on
    the fuel (a forwarded request is a nested [handle_request]). *)
Lemma handle_request_skel (fuel : nat) :
  serve_keeps_skel (Network.handle_request fuel).
Proof.
  induction fuel as [|fuel IH]; intros net a bs net' r; [discriminate|]. simpl.
  destruct (net !! a) as [n|] eqn:Ha; [|intros [= <- _]; reflexivity].
  destruct (utf8_decode (recv bs)) as [[|c data]|]; try (intros [= <- _]; reflexivity).
  destruct (loads _) as [req|]; [|intros [= <- _]; reflexivity].
  destruct (Network.process_request _ net a n req) as [[net1 res1]|] eqn:E; [|discriminate].
  simpl. apply process_request_skel in E; [| intros; by eapply send_request_with_skel | done].
  destruct res1; intros [= <- _]; exact E.
Qed.

(** C20 (frame): no request changes the skeleton of the network: every
    bound address stays bound, no address gets bound, and every node keeps
    its [ip], [port], [node_id] and [successor], however the request is
    handled or forwarded. *)
Theorem handle_request_keeps_skel fuel net a bs net' r :
  Network.handle_request fuel net a bs = Some (net', r) ->
  forall b, (net !! b = None <-> net' !! b = None) /\
    forall n n', net !! b = Some n -> net' !! b = Some n' ->
      Node.ip n' = Node.ip n /\ Node.port n' = Node.port n /\
      Node.node_id n' = Node.node_id n /\ Node.successor n' = Node.successor n.
Proof.
  intros H b. pose proof (handle_request_skel fuel net a bs net' r H b) as E.
  destruct (net !! b) as [n0|], (net' !! b) as [n1|]; simpl in E; try discriminate E.
  - split; [done|]. intros n n' [= <-] [= <-]. injection E. intros. repeat split; congruence.
  - split; [done|]. intros n n' [=].
Qed.

Lemma handle_request_keeps_skel_witness :
  let net : Network.network := {[("10.0.0.1", 5000) := Node.bootstrap_node "10.0.0.1" 5000]} in
  exists net' r,
  Network.handle_request 3 net ("10.0.0.1", 5000)
    (utf8_encode (dumps (JDict [("command", JStr "insert"); ("key", JStr "k"); ("value", JInt 1)]))) =
    Some (net', r) /\
  forall b, (net !! b = None <-> net' !! b = None) /\
    forall n n', net !! b = Some n -> net' !! b = Some n' ->
      Node.ip n' = Node.ip n /\ Node.port n' = Node.port n /\
      Node.node_id n' = Node.node_id n /\ Node.successor n' = Node.successor n.
Proof.
  intros net. do 2 eexists.
  assert (Network.handle_request 3 net ("10.0.0.1", 5000)
    (utf8_encode (dumps (JDict [("command", JStr "insert"); ("key", JStr "k"); ("value", JInt 1)]))) =
    Some (<[("10.0.0.1", 5000) := Node.set_data_store (Node.bootstrap_node "10.0.0.1" 5000)
             {[hash_key "k" := JInt 1]}]> net,
          Some (utf8_encode (dumps (success_message "Inserted k -> 1"))))) as H
    by (vm_compute; reflexivity).
  split; [exact H | exact (handle_request_keeps_skel 3 net _ _ _ _ H)].
Defined.

(** ** More fuel never changes an answer *)

(** [s1] answers less often than [s2], and the same when it answers. *)
Definition serve_le
    (s1 s2 : Network.network -> Network.addr -> list Z ->
             option (Network.network * option (list Z))) : Prop :=
  forall net a bs r, s1 net a bs = Some r -> s2 net a bs = Some r.

Lemma send_request_with_mono s1 s2 net ipv portv req r :
  serve_le s1 s2 ->
  Network.send_request_with s1 net ipv portv req = Some r ->
  Network.send_request_with s2 net ipv portv req = Some r.
Proof.
  intros Hle. unfold Network.send_request_with.
  destruct (Network.connect_target ipv portv) as [a|e]; [|done].
  destruct (net !! a); [|done].
  destruct (s1 net a _) as [r1|] eqn:E; [|discriminate]. by rewrite (Hle _ _ _ _ E).
Qed.

Lemma process_request_mono send1 send2 net a n req r :
  (forall net ip port q r, send1 net ip port q = Some r -> send2 net ip port q = Some r) ->
  Network.process_request send1 net a n req = Some r ->
  Network.process_request send2 net a n req = Some r.
Proof.
  intros Hle. unfold Network.process_request.
  repeat case_match; try done.
  match goal with |- context [send1 ?x ?y ?z ?w] =>
    destruct (send1 x y z w) as [r1|] eqn:E end; [|discriminate].
  by rewrite (Hle _ _ _ _ _ E).
Qed.

(** More fuel never changes an answer, by induction on the fuel. *)
Lemma handle_request_serve_le (i j : nat) :
  (i <= j)%nat -> serve_le (Network.handle_request i) (Network.handle_request j).
Proof.
  revert j; induction i as [|i IH]; intros j Hij net a bs r; [discriminate|].
  destruct j as [|j]; [lia|]. cbn [Network.handle_request].
  repeat case_match; try done;
  match goal with |- Network.process_request ?s1 ?x ?y ?z ?w ≫= _ = _ -> _ =>
    destruct (Network.process_request s1 x y z w) as [r1|] eqn:E; [|discriminate] end;
  erewrite process_request_mono; try exact E; try done;
  intros; eapply send_request_with_mono; [apply IH; lia | done].
Qed.

(** ** Delivery of requests and responses that fit the receive buffer *)

Lemma handle_request_delivered fuel net a n v :
  net !! a = Some n -> wf_json v -> (length (utf8_encode (dumps v)) <= 1024)%nat ->
  Network.handle_request (S fuel) net a (utf8_encode (dumps v)) =
    '(net', r) ← Network.process_request (Network.send_request fuel) net a n v;
    Some (net', match r with Ok resp => Some (utf8_encode (dumps resp)) | Raise _ => None end).
Proof.
  intros Ha Hwf Hl. cbn [Network.handle_request]. rewrite Ha, recv_short, utf8_roundtrip by done.
  pose proof (loads_dumps v Hwf) as Hload.
  destruct (dumps_head v) as (c & t & Hd & _). rewrite Hd in Hload |- *. rewrite Hload.
  unfold Network.send_request. destruct (Network.process_request _ _ _ _ _) as [[net' []]|]; done.
Qed.

Lemma connect_target_addr (ip : string) (port : Z) :
  0 <= port <= 65535 -> Network.connect_target (JStr ip) (JInt port) = Ok (ip, port).
Proof. intros Hp. unfold Network.connect_target; simpl. by case_zbools. Qed.

(** The caller's side of a connection the callee [serve] answered. *)
Lemma send_request_with_answered serve net ipv portv a n req net' resp :
  Network.connect_target ipv portv = Ok a -> net !! a = Some n ->
  serve net a (utf8_encode (dumps req)) = Some (net', Some (utf8_encode (dumps resp))) ->
  wf_json resp -> (length (utf8_encode (dumps resp)) <= 1024)%nat ->
  Network.send_request_with serve net ipv portv req = Some (net', resp).
Proof.
  intros Hc Ha Hs Hwf Hl. unfold Network.send_request_with. rewrite Hc, Ha, Hs.
  cbn [mbind option_bind from_option id]. rewrite recv_short, utf8_roundtrip, loads_dumps by done.
  reflexivity.
Qed.

(** ... and of one whose answer is a dict of any size: the caller reads
    the dict when it fits in [recv(1024)], and an error dict otherwise,
    since the cut text never parses. *)
Lemma send_request_with_reply_dict serve net ipv portv a n req net' kvs :
  Network.connect_target ipv portv = Ok a -> net !! a = Some n ->
  serve net a (utf8_encode (dumps req)) = Some (net', Some (utf8_encode (dumps (JDict kvs)))) ->
  wf_json (JDict kvs) ->
  exists v, Network.send_request_with serve net ipv portv req = Some (net', v) /\
    (v = JDict kvs \/ exists m, v = error_message m).
Proof.
  intros Hc Ha Hs Hwf. unfold Network.send_request_with. rewrite Hc, Ha, Hs.
  cbn [mbind option_bind from_option id].
  destruct (decide (length (utf8_encode (dumps (JDict kvs))) <= 1024)%nat) as [Hl|Hl].
  - rewrite recv_short, utf8_roundtrip, loads_dumps by done. eexists. split; [reflexivity | by left].
  - pose proof (cut_message_rejected kvs Hwf ltac:(lia)) as Hcut.
    destruct (utf8_decode _) as [response|]; [|eexists; split; [reflexivity | right; by eexists]].
    cbn [mbind option_bind] in Hcut. rewrite Hcut.
    eexists. split; [reflexivity | right; by eexists].
Qed.

(** ... and of one it closed without answering. *)
Lemma send_request_with_dropped serve net ipv portv a n req net' :
  Network.connect_target ipv portv = Ok a -> net !! a = Some n ->
  serve net a (utf8_encode (dumps req)) = Some (net', None) ->
  Network.send_request_with serve net ipv portv req =
    Some (net', error_message (Network.decode_error_text EmptyString)).
Proof. intros Hc Ha Hs. unfold Network.send_request_with. by rewrite Hc, Ha, Hs. Qed.

Lemma send_request_answered serve net ip port n req net' resp :
  0 <= port <= 65535 -> net !! (ip, port) = Some n ->
  serve net (ip, port) (utf8_encode (dumps req)) = Some (net', Some (utf8_encode (dumps resp))) ->
  wf_json resp -> (length (utf8_encode (dumps resp)) <= 1024)%nat ->
  Network.send_request_with serve net (JStr ip) (JInt port) req = Some (net', resp).
Proof. intros Hp. apply send_request_with_answered. by apply connect_target_addr. Qed.

Lemma send_request_refused serve net ip port req :
  0 <= port <= 65535 -> net !! (ip, port) = None ->
  Network.send_request_with serve net (JStr ip) (JInt port) req =
    Some (net, error_message Network.connection_refused).
Proof.
  intros Hp Ha. unfold Network.send_request_with. by rewrite connect_target_addr, Ha.
Qed.

(** ** What a node answers to malformed and unknown requests *)

(** The commands [process_request] dispatches on (src/node.py:183-193). *)
Definition commands : list string :=
  ["insert"; "query"; "delete"; "find_successor"; "update_predecessor"].

Lemma py_eq_str_notin (c : json) (s : string) :
  (forall t, c = JStr t -> t ∉ commands) -> s ∈ commands -> py_eq_str c s = false.
Proof.
  intros Hc Hs. destruct c as [| | |t| |]; try reflexivity. simpl.
  apply String.eqb_neq. intros ->. exact (Hc _ eq_refl Hs).
Qed.

(** C26: a well-formed request dict whose [command] field is missing or is
    not one of the five commands is answered, without any change to the
    network, with [{"status": "error", "message": "Invalid command
    received: <command>"}], where [<command>] is [str] of the field
    ([None] when it is missing).  This includes ["shutdown"], which the
    docstring of [process_request] (line 177) lists among the handled
    requests: its branch is commented out (lines 193-194). *)
Theorem handle_unknown_command fuel net a n kvs :
  net !! a = Some n -> wf_json (JDict kvs) ->
  (length (utf8_encode (dumps (JDict kvs))) <= 1024)%nat ->
  (forall t, dict_lookup "command" kvs = Some (JStr t) -> t ∉ commands) ->
  Network.handle_request (S fuel) net a (utf8_encode (dumps (JDict kvs))) =
    Some (net, Some (utf8_encode (dumps (error_message
      ("Invalid command received: " +:+ py_str (default JNull (dict_lookup "command" kvs))))))).
Proof.
  intros Ha Hwf Hl Hc. rewrite (handle_request_delivered fuel net a n) by done.
  assert (forall t, default JNull (dict_lookup "command" kvs) = JStr t -> t ∉ commands) as Hc'.
  { intros t Ht. destruct (dict_lookup "command" kvs); simpl in Ht; [subst; by apply Hc|done]. }
  unfold Network.process_request, Network.request_fields. simpl.
  rewrite !(py_eq_str_notin _ _ Hc') by (unfold commands; set_solver).
  cbn [mbind option_bind]. reflexivity.
Qed.

Lemma handle_unknown_command_witness :
  let net : Network.network := {[("127.0.0.1", 5000) := Node.bootstrap_node "127.0.0.1" 5000]} in
  let kvs := [("command", JStr "shutdown")] in
  net !! ("127.0.0.1", 5000) = Some (Node.bootstrap_node "127.0.0.1" 5000) /\
  wf_json (JDict kvs) /\ (length (utf8_encode (dumps (JDict kvs))) <= 1024)%nat /\
  (forall t, dict_lookup "command" kvs = Some (JStr t) -> t ∉ commands) /\
  Network.handle_request 1 net ("127.0.0.1", 5000) (utf8_encode (dumps (JDict kvs))) =
    Some (net, Some (utf8_encode (dumps (error_message "Invalid command received: shutdown")))).
Proof.
  intros net kvs.
  assert (net !! ("127.0.0.1", 5000) = Some (Node.bootstrap_node "127.0.0.1" 5000)) as H1
    by (unfold net; by rewrite lookup_singleton_eq).
  clearbody net.
  assert (wf_json (JDict kvs)) as H2 by (split; [repeat constructor; set_solver | done]).
  assert ((length (utf8_encode (dumps (JDict kvs))) <= 1024)%nat) as H3 by (vm_compute; lia).
  assert (forall t, dict_lookup "command" kvs = Some (JStr t) -> t ∉ commands) as H4.
  { intros t [= <-]. unfold commands. set_solver. }
  split; [exact H1|]. split; [exact H2|]. split; [exact H3|]. split; [exact H4|].
  rewrite (handle_unknown_command 0 net _ _ kvs H1 H2 H3 H4). reflexivity.
Defined.

(** ** Requests CPython rejects as well

    The model's [utf8_decode] and [loads] also fail on input beyond the
    model (code points above U+00FF, floats), which CPython accepts.  The
    malformed requests below are rejected by CPython's decoder and
    scanner too. *)

(** The bytes that occur nowhere in valid UTF-8 (RFC 3629). *)
Definition never_utf8 (b : Z) : bool := (b =? 192) || (b =? 193) || (245 <=? b).

(** The blanks [json.loads] skips around a document. *)
Definition ws_byte (b : Z) : bool := (b =? 32) || (b =? 9) || (b =? 10) || (b =? 13).

(** The characters that start a value in CPython's scanner ([scan_once]):
    a string, an object, an array, [null], [true], [false], [NaN],
    [Infinity], [-] or a digit. *)
Definition value_start (c : ascii) : bool :=
  bool_decide (c ∈ ["{"; "["; dq; "-"; "n"; "t"; "f"; "N"; "I"]%char) ||
  ((48 <=? ord c) && (ord c <=? 57)).

Lemma utf8_decode_valid_bytes (n : nat) (bs : list Z) (s : string) :
  (length bs <= n)%nat -> utf8_decode bs = Some s -> Forall (fun b => never_utf8 b = false) bs.
Proof.
  revert bs s. induction n as [|n IH]; intros [|b r] s Hl Hd.
  1,3: constructor.
  1: simpl in Hl; lia.
  cbn [utf8_decode] in Hd. unfold never_utf8.
  destruct ((0 <=? b) && (b <? 128)) eqn:Ha.
  - destruct (utf8_decode r) as [t|] eqn:E; [|discriminate].
    apply andb_prop in Ha as [Ha1%Z.leb_le Ha2%Z.ltb_lt].
    constructor; [case_zbools; lia | exact (IH r t ltac:(simpl in Hl; lia) E)].
  - destruct ((b =? 194) || (b =? 195)) eqn:Hb; [|discriminate].
    destruct r as [|b2 r']; [discriminate|].
    destruct ((128 <=? b2) && (b2 <? 192)) eqn:Hc; [|discriminate].
    destruct (utf8_decode r') as [t|] eqn:E; [|discriminate].
    apply orb_prop in Hb. apply andb_prop in Hc as [Hc1%Z.leb_le Hc2%Z.ltb_lt].
    constructor; [|constructor; [|exact (IH r' t ltac:(simpl in Hl; lia) E)]].
    + destruct Hb as [Hb%Z.eqb_eq | Hb%Z.eqb_eq]; subst b; reflexivity.
    + case_zbools; lia.
Qed.

Lemma utf8_decode_never (bs : list Z) :
  Exists (fun b => never_utf8 b = true) bs -> utf8_decode bs = None.
Proof.
  intros Hex. destruct (utf8_decode bs) as [s|] eqn:E; [|done].
  pose proof (utf8_decode_valid_bytes _ bs s (le_n _) E) as Hall.
  apply Exists_exists in Hex as (b & Hb & Ht).
  rewrite (proj1 (Forall_forall _ _) Hall b Hb) in Ht. discriminate.
Qed.

Lemma ws_byte_is_ws (b : Z) : 0 <= b < 128 -> is_ws (chr b) = ws_byte b.
Proof. intros Hb. unfold is_ws, ws_byte. rewrite ord_chr by lia. reflexivity. Qed.

(** Blanks, then an ASCII byte [b]: the text decodes (if it does) to
    blanks followed by [chr b]. *)
Lemma utf8_decode_blank_prefix (pre post : list Z) (b : Z) :
  Forall (fun x => ws_byte x = true) pre -> 0 <= b < 128 -> ws_byte b = false ->
  utf8_decode (pre ++ b :: post) = None \/
  exists s t, utf8_decode (pre ++ b :: post) = Some s /\ skip_ws s = String (chr b) t.
Proof.
  intros Hpre Hb Hnw. induction Hpre as [|x pre Hx Hpre IH]; cbn [app utf8_decode].
  - rewrite (proj2 (Z.leb_le 0 b)), (proj2 (Z.ltb_lt b 128)) by lia. cbn [andb].
    destruct (utf8_decode post) as [t|]; [right | by left]. exists (String (chr b) t), t.
    split; [done|]. cbn [skip_ws]. by rewrite ws_byte_is_ws, Hnw.
  - assert (0 <= x < 128) as Hx' by (unfold ws_byte in Hx; case_zbools; lia).
    rewrite (proj2 (Z.leb_le 0 x)), (proj2 (Z.ltb_lt x 128)) by lia. cbn [andb].
    destruct IH as [-> | (s & t & -> & Hs)]; [by left | right].
    exists (String (chr x) s), t. split; [done|]. cbn [skip_ws]. by rewrite ws_byte_is_ws, Hx.
Qed.

Lemma parse_value_bad_start (f : nat) (c : ascii) (r : string) :
  value_start c = false -> parse_value f (String c r) = None.
Proof.
  unfold value_start. intros [Hc Hd]%orb_false_iff.
  apply bool_decide_eq_false in Hc. rewrite !elem_of_cons, elem_of_nil in Hc.
  destruct f as [|f]; [done|]. cbn [parse_value].
  rewrite !bool_decide_eq_false_2 by naive_solver. cbn [strip_prefix].
  rewrite !bool_decide_eq_false_2 by naive_solver.
  unfold parse_number, parse_uint, digit_val. rewrite bool_decide_eq_false_2 by naive_solver.
  by rewrite Hd.
Qed.

Lemma loads_bad_start (s t : string) (c : ascii) :
  skip_ws s = String c t -> value_start c = false -> loads s = None.
Proof. intros Hs Hc. unfold loads. by rewrite Hs, parse_value_bad_start. Qed.

(** A request that does not decode to a JSON document is dropped. *)
Lemma handle_undecodable fuel net a bs :
  (utf8_decode (recv bs) ≫= loads) = None ->
  Network.handle_request (S fuel) net a bs = Some (net, None).
Proof.
  intros H. cbn [Network.handle_request]. destruct (net !! a); [|done].
  destruct (utf8_decode (recv bs)) as [[|c t]|]; simpl in H; try done. by rewrite H.
Qed.

(** C27 (error): the node closes the connection without an answer and
    changes nothing when what [recv(1024)] returns is empty (the client
    sent nothing: [if data] fails), contains a byte that occurs nowhere
    in UTF-8 ([decode()] raises [UnicodeDecodeError]), or has, after
    blanks, an ASCII character that cannot start a JSON value
    ([json.loads] raises [JSONDecodeError]).  In each case CPython fails
    the same way.  (A longer request cut by [recv] is C32.) *)
Theorem handle_malformed fuel net a bs :
  recv bs = [] \/ Exists (fun b => never_utf8 b = true) (recv bs) \/
  (exists pre b post, recv bs = pre ++ b :: post /\ Forall (fun x => ws_byte x = true) pre /\
     0 <= b < 128 /\ ws_byte b = false /\ value_start (chr b) = false) ->
  Network.handle_request (S fuel) net a bs = Some (net, None).
Proof.
  intros H. apply handle_undecodable.
  destruct H as [-> | [Hex | (pre & b & post & -> & Hpre & Hb & Hnw & Hv)]]; [done | |].
  - by rewrite utf8_decode_never.
  - destruct (utf8_decode_blank_prefix pre post b Hpre Hb Hnw) as [-> | (s & t & -> & Hs)]; [done|].
    exact (loads_bad_start s t _ Hs Hv).
Qed.

(** The text ["  hello"]: blanks, then [h], which starts no value. *)
Lemma handle_malformed_witness :
  let net : Network.network := {[("127.0.0.1", 5000) := Node.bootstrap_node "127.0.0.1" 5000]} in
  let bs := [32; 32; 104; 101; 108; 108; 111] in
  Network.handle_request 1 net ("127.0.0.1", 5000) bs = Some (net, None).
Proof.
  intros net bs. clearbody net. apply (handle_malformed 0 net _ bs).
  right; right. exists [32; 32], 104, [101; 108; 108; 111].
  split; [reflexivity|]. split; [repeat constructor|]. split; [lia|].
  split; vm_compute; reflexivity.
Defined.

(** C28: a request (a well-formed JSON object) whose encoding is longer
    than 1024 bytes is never misread as a shorter request: the node that
    receives it closes the connection without an answer and its state,
    like the rest of the network, is unchanged. *)
Theorem long_request_dropped (fuel : nat) (net : Network.network) (a : Network.addr)
    (kvs : list (string * json)) :
  wf_json (JDict kvs) -> (1024 < length (utf8_encode (dumps (JDict kvs))))%nat ->
  Network.handle_request (S fuel) net a (utf8_encode (dumps (JDict kvs))) = Some (net, None).
Proof.
  intros Hwf Hl. apply handle_undecodable. exact (cut_message_rejected kvs Hwf Hl).
Qed.

Lemma long_request_dropped_witness :
  let net : Network.network := {[("127.0.0.1", 5000) := Node.bootstrap_node "127.0.0.1" 5000]} in
  let kvs := [("command", JStr "insert"); ("key", JStr "k");
              ("value", JStr (String.concat EmptyString (repeat "x" 1050)))] in
  wf_json (JDict kvs) /\ (1024 < length (utf8_encode (dumps (JDict kvs))))%nat /\
  Network.handle_request 3 net ("127.0.0.1", 5000) (utf8_encode (dumps (JDict kvs))) =
    Some (net, None).
Proof.
  intros net kvs.
  assert (wf_json (JDict kvs)) as Hwf by (apply wf_jsonb_sound; vm_compute; reflexivity).
  assert (1024 < length (utf8_encode (dumps (JDict kvs))))%nat as Hl
    by (rewrite length_message; vm_compute; lia).
  clearbody net.
  split; [exact Hwf|]. split; [exact Hl|]. exact (long_request_dropped 2 net _ kvs Hwf Hl).
Defined.
