(* ===== verification/Ring.v ===== *)
(** * Routing in the networks the join protocol builds

    [join] asks the bootstrap node for the successor of the new id and
    takes the answer as its successor; no node ever changes its successor
    afterwards.  A node started without a bootstrap address is its own
    successor: call it a hub.  Every successor pointer the protocol sets is
    then a hub's descriptor, i.e. the network is a union of stars around
    hubs.  [star] states this shape together with what [bind] and
    [generate_id] guarantee of every listening node ([node_wf]); this file
    shows how [find_successor] behaves on such a network: it is answered
    after at most one forward, with the hub's descriptor, and nothing
    changes.

    The shape holds for IP strings of any length: a forwarded answer too
    long for the caller's [recv(1024)] comes back as an error dict (the cut
    text never parses).  [short_ips] bounds every IP string by 45
    characters (the longest textual IPv6 address); with it every protocol
    message fits and the forwarded answer arrives whole. *)

From S2P Require Import Prelude Json Sha1 Identity Store Node Wire Network.

Local Open Scope Z_scope.

Module Ring.

Definition short_ip (ip : string) : Prop := (String.length ip <= 45)%nat.

(** A listening node is bound to its own address, its id is
    [generate_id(ip, port)] and its port is one [bind] accepts. *)
Definition node_wf (a : Network.addr) (n : Node.node) : Prop :=
  a = (Node.ip n, Node.port n) /\ Node.node_id n = generate_id (Node.ip n) (Node.port n) /\
  0 <= Node.port n <= 65535.

(** [d] is the descriptor of a listening node that is its own successor. *)
Definition hub (net : Network.network) (d : json) : Prop :=
  exists h, net !! (Node.ip h, Node.port h) = Some h /\ node_wf (Node.ip h, Node.port h) h /\
    Node.successor h = Some d /\ d = Node.self_descriptor h.

(** Every listening node's IP string is at most 45 characters long. *)
Definition short_ips (net : Network.network) : Prop :=
  forall a n, net !! a = Some n -> short_ip (Node.ip n).

Definition star (net : Network.network) : Prop :=
  forall a n, net !! a = Some n -> node_wf a n /\
    (Node.successor n = None \/ exists d, Node.successor n = Some d /\ hub net d).

End Ring.

(** A message that [json.loads(recv(1024).decode())] reads back whole. *)
Definition fits (v : json) : Prop :=
  wf_json v /\ (length (utf8_encode (dumps v)) <= 1024)%nat.

Abbreviation bytes v := (utf8_encode (dumps v)).

(** ** Sizes of the protocol's messages *)

Ltac wf_dict := apply wf_jsonb_sound; vm_compute; reflexivity.

Ltac fits_length :=
  rewrite length_message;
  cbn [dumps map join_with fst snd Node.fs_request Node.fs_success Node.descriptor status_success];
  rewrite ?string_length_app; eval_literal_lengths; cbn [String.length]; lia.

Lemma node_wf_bounds a n :
  Ring.node_wf a n ->
  0 <= Node.node_id n < 2 ^ 160 /\ 0 <= Node.port n <= 65535.
Proof. intros (_ & -> & ?). split; [apply generate_id_range | done]. Qed.

Lemma fs_request_fits (x : Z) : 0 <= x < 2 ^ 160 -> fits (Node.fs_request (JInt x)).
Proof.
  intros Hx. pose proof (z_dec_length_160 x Hx). split; [wf_dict|]. fits_length.
Qed.

Lemma fs_success_fits (nid : Z) (ip : string) (port : Z) :
  0 <= nid < 2 ^ 160 -> Ring.short_ip ip -> 0 <= port <= 65535 ->
  fits (Node.fs_success (Node.descriptor nid ip port)).
Proof.
  unfold Ring.short_ip. intros Hid Hip Hp.
  pose proof (z_dec_length_160 nid Hid). pose proof (z_dec_length_port port Hp).
  pose proof (dumps_str_length ip). split; [wf_dict|]. fits_length.
Qed.

(** ** Routing in a star *)

Lemma process_find_successor send net a n x :
  Network.process_request send net a n (Node.fs_request x) =
    match Node.find_successor n x with
    | Raise e => Some (net, Raise e)
    | Ok (Node.FSReply resp) => Some (net, Ok resp)
    | Ok (Node.FSForward ip port req) => '(net', resp) ← send net ip port req; Some (net', Ok resp)
    end.
Proof. reflexivity. Qed.

(** Two answers to the same connection, with any two fuels, agree. *)
Lemma handle_request_det i j net a bs r1 r2 :
  Network.handle_request i net a bs = Some r1 ->
  Network.handle_request j net a bs = Some r2 -> r1 = r2.
Proof.
  intros H1 H2. destruct (Nat.le_ge_cases i j) as [Hij|Hji].
  - apply (handle_request_serve_le i j Hij) in H1. congruence.
  - apply (handle_request_serve_le j i Hji) in H2. congruence.
Qed.

(** A hub answers [find_successor] with itself, without forwarding. *)
Lemma hub_answers fuel net h x :
  net !! (Node.ip h, Node.port h) = Some h ->
  Node.successor h = Some (Node.self_descriptor h) -> 0 <= x < 2 ^ 160 ->
  Network.handle_request (S fuel) net (Node.ip h, Node.port h) (bytes (Node.fs_request (JInt x))) =
    Some (net, Some (bytes (Node.fs_success (Node.self_descriptor h)))).
Proof.
  intros Hh Hs Hx. rewrite (handle_request_delivered _ _ _ h) by (done || by apply fs_request_fits).
  rewrite process_find_successor.
  by rewrite (find_successor_same_id h (Node.node_id h) (Node.ip h) (Node.port h)).
Qed.

(** The decision of a node whose successor is the hub [h]: reply with
    [h], or forward to [h]. *)
Lemma find_successor_to_hub n h x :
  Node.successor n = Some (Node.self_descriptor h) ->
  Node.find_successor n (JInt x) = Ok (Node.FSReply (Node.fs_success (Node.self_descriptor h))) \/
  Node.find_successor n (JInt x) =
    Ok (Node.FSForward (JStr (Node.ip h)) (JInt (Node.port h)) (Node.fs_request (JInt x))).
Proof.
  intros Hs. destruct (decide (Node.node_id h = Node.node_id n)) as [Heq|Hne].
  - left. exact (find_successor_same_id n _ _ _ _ Hs Heq).
  - rewrite (find_successor_int n _ _ _ x Hs Hne).
    destruct (_ && _); [left|right]; reflexivity.
Qed.

(** In a star, a node with a successor answers [find_successor] of any
    identifier with its hub's descriptor when given two hops of fuel, and
    changes nothing. *)
Lemma star_node_answers fuel net a n d x :
  Ring.star net -> Ring.short_ips net -> net !! a = Some n -> Node.successor n = Some d ->
  Ring.hub net d -> 0 <= x < 2 ^ 160 ->
  Network.handle_request (S (S fuel)) net a (bytes (Node.fs_request (JInt x))) =
    Some (net, Some (bytes (Node.fs_success d))).
Proof.
  intros Hstar Hsh Ha Hs (h & Hh & Hwf & Hhs & ->) Hx.
  destruct (node_wf_bounds _ _ Hwf) as (Hid & Hp). pose proof (Hsh _ _ Hh) as Hip.
  rewrite (handle_request_delivered _ _ _ n) by (done || by apply fs_request_fits).
  rewrite process_find_successor.
  destruct (find_successor_to_hub n h x Hs) as [-> | ->]; [done|].
  unfold Network.send_request.
  rewrite (send_request_answered _ net (Node.ip h) (Node.port h) h _ net
             (Node.fs_success (Node.self_descriptor h)));
    [reflexivity | done | done | by apply hub_answers | by apply fs_success_fits..].
Qed.

(** A node without a successor (its join failed) drops the connection. *)
Lemma orphan_drops fuel net a n x :
  net !! a = Some n -> Node.successor n = None -> 0 <= x < 2 ^ 160 ->
  Network.handle_request (S fuel) net a (bytes (Node.fs_request (JInt x))) = Some (net, None).
Proof.
  intros Ha Hs Hx. rewrite (handle_request_delivered _ _ _ n) by (done || by apply fs_request_fits).
  rewrite process_find_successor. unfold Node.find_successor, Node.get_successor.
  by rewrite Hs.
Qed.

Lemma hub_fits net d : Ring.short_ips net -> Ring.hub net d -> fits (Node.fs_success d).
Proof.
  intros Hsh (h & Hh & Hwf & _ & ->). destruct (node_wf_bounds _ _ Hwf) as (? & ?).
  apply fs_success_fits; [done | exact (Hsh _ _ Hh) | done].
Qed.

Lemma hub_success_wf net d : Ring.hub net d -> wf_json (Node.fs_success d).
Proof. intros (h & _ & _ & _ & ->). wf_dict. Qed.

(** Whatever the IP strings, a node of a star with a successor answers
    [find_successor] with its hub's descriptor or, when the hub's answer
    is too long for its [recv(1024)], with an error dict. *)
Lemma star_node_reply fuel net a n d x :
  Ring.star net -> net !! a = Some n -> Node.successor n = Some d -> Ring.hub net d ->
  0 <= x < 2 ^ 160 ->
  exists r, Network.handle_request (S (S fuel)) net a (bytes (Node.fs_request (JInt x))) =
    Some (net, Some (bytes r)) /\ (r = Node.fs_success d \/ exists m, r = error_message m).
Proof.
  intros Hstar Ha Hs Hd Hx. pose proof (hub_success_wf _ _ Hd) as Hw.
  destruct Hd as (h & Hh & Hwf & Hhs & ->).
  destruct (node_wf_bounds _ _ Hwf) as (Hid & Hp).
  rewrite (handle_request_delivered _ _ _ n) by (done || by apply fs_request_fits).
  rewrite process_find_successor.
  destruct (find_successor_to_hub n h x Hs) as [-> | ->]; [eexists; split; [reflexivity | by left]|].
  unfold Network.send_request.
  destruct (send_request_with_reply_dict (Network.handle_request (S fuel)) net _ _ _ h
              (Node.fs_request (JInt x)) net _ (connect_target_addr _ _ Hp) Hh
              (hub_answers fuel net h x Hh Hhs Hx) Hw) as (v & -> & Hv).
  cbn [mbind option_bind]. eexists. split; [reflexivity|].
  destruct Hv as [-> | [m ->]]; [by left | right; by exists m].
Qed.

Lemma read_message (v : json) :
  fits v -> (utf8_decode (recv (bytes v)) ≫= loads) = Some v.
Proof. intros [Hwf Hl]. rewrite recv_short, utf8_roundtrip by done. by apply loads_dumps. Qed.

(** What [send_request(ip, port, {"command": "find_successor", ..})]
    returns to a client of a star, whatever the address: an error dict,
    or the success answer naming a hub; the network does not change. *)
Lemma send_find_successor_star fuel net ipv portv x net1 r :
  Ring.star net -> 0 <= x < 2 ^ 160 ->
  Network.send_request fuel net ipv portv (Node.fs_request (JInt x)) = Some (net1, r) ->
  net1 = net /\
  ((exists m, r = error_message m) \/ exists d, r = Node.fs_success d /\ Ring.hub net d).
Proof.
  intros Hstar Hx. unfold Network.send_request.
  destruct (Network.connect_target ipv portv) as [a|e] eqn:Hc.
  2:{ unfold Network.send_request_with. rewrite Hc. intros [= <- <-]. split; [done|]. left. by eexists. }
  destruct (net !! a) as [n|] eqn:Ha.
  2:{ unfold Network.send_request_with. rewrite Hc, Ha. intros [= <- <-]. split; [done|]. left. by eexists. }
  destruct (Network.handle_request fuel net a (bytes (Node.fs_request (JInt x))))
    as [[net' reply]|] eqn:E.
  2:{ unfold Network.send_request_with. rewrite Hc, Ha, E. discriminate. }
  destruct (Hstar a n Ha) as [_ [Hs | (d & Hs & Hd)]].
  - pose proof (orphan_drops 0 net a n x Ha Hs Hx) as E'.
    rewrite (handle_request_det _ _ _ _ _ _ _ E E') in E.
    rewrite (send_request_with_dropped _ _ _ _ a n _ net Hc Ha E).
    intros [= <- <-]. split; [done|]. left. by eexists.
  - destruct (star_node_reply 0 net a n d x Hstar Ha Hs Hd Hx) as (r' & E' & Hr').
    rewrite (handle_request_det _ _ _ _ _ _ _ E E') in E.
    assert (wf_json r') as Hw by (destruct Hr' as [-> | [m ->]]; [exact (hub_success_wf _ _ Hd) | wf_dict]).
    destruct Hr' as [-> | [m ->]];
      destruct (send_request_with_reply_dict _ _ _ _ a n _ net _ Hc Ha E Hw) as (v & -> & Hv);
      intros [= <- <-]; (split; [done|]); destruct Hv as [-> | [m' ->]];
      try (left; by eexists). right. by exists d.
Qed.

(** ** The star shape depends only on the skeleton *)

Lemma same_skel_lookup net net' a n :
  Network.same_skel net net' -> net !! a = Some n ->
  exists n', net' !! a = Some n' /\ Network.skel n' = Network.skel n.
Proof.
  intros Hs Ha. specialize (Hs a). rewrite Ha in Hs.
  destruct (net' !! a) as [n'|]; simpl in Hs; [|discriminate].
  exists n'. split; [done|]. unfold Network.skel in *. congruence.
Qed.

Lemma skel_fields n n' :
  Network.skel n' = Network.skel n ->
  Node.ip n' = Node.ip n /\ Node.port n' = Node.port n /\ Node.node_id n' = Node.node_id n /\
  Node.successor n' = Node.successor n.
Proof. unfold Network.skel. intros [= -> -> -> ->]. done. Qed.

Lemma self_descriptor_skel n n' :
  Network.skel n' = Network.skel n -> Node.self_descriptor n' = Node.self_descriptor n.
Proof.
  intros (Hip & Hport & Hid & _)%skel_fields. unfold Node.self_descriptor.
  by rewrite Hip, Hport, Hid.
Qed.

Lemma node_wf_skel a n n' :
  Network.skel n' = Network.skel n -> Ring.node_wf a n -> Ring.node_wf a n'.
Proof.
  intros (Hip & Hport & Hid & _)%skel_fields. unfold Ring.node_wf. by rewrite Hip, Hport, Hid.
Qed.

Lemma hub_skel net net' d : Network.same_skel net net' -> Ring.hub net d -> Ring.hub net' d.
Proof.
  intros Hs (h & Hh & Hwf & Hsucc & ->).
  destruct (same_skel_lookup _ _ _ _ Hs Hh) as (h' & Hh' & Hsk).
  pose proof (skel_fields _ _ Hsk) as (Hip & Hport & _ & Hsucc').
  exists h'. rewrite Hip, Hport. split; [done|]. split; [by eapply node_wf_skel|].
  rewrite (self_descriptor_skel _ _ Hsk). split; [congruence | done].
Qed.

Lemma star_skel net net' : Network.same_skel net net' -> Ring.star net -> Ring.star net'.
Proof.
  intros Hs Hstar a n' Ha.
  destruct (same_skel_lookup _ _ _ _ (symmetry Hs) Ha) as (n & Hn & Hsk).
  destruct (Hstar a n Hn) as [Hwf Hsucc].
  split; [by eapply node_wf_skel; [symmetry|]|].
  destruct (skel_fields _ _ Hsk) as (_ & _ & _ & <-).
  destruct Hsucc as [-> | (d & -> & Hd)]; [by left|]. right. exists d. split; [done|].
  by eapply hub_skel.
Qed.

#[export] Instance hub_proper : Proper (Network.same_skel ==> eq ==> iff) Ring.hub.
Proof. intros net net' Hs d ? <-. split; apply hub_skel; [done | by symmetry]. Qed.

#[export] Instance star_proper : Proper (Network.same_skel ==> iff) Ring.star.
Proof. intros net net' Hs. split; apply star_skel; [done | by symmetry]. Qed.

Lemma short_ips_skel net net' :
  Network.same_skel net net' -> Ring.short_ips net -> Ring.short_ips net'.
Proof.
  intros Hs Hsh a n Ha. symmetry in Hs.
  destruct (same_skel_lookup _ _ _ _ Hs Ha) as (n0 & Ha0 & Hsk).
  unfold Network.skel in Hsk. injection Hsk as Hip _ _ _. rewrite <- Hip. exact (Hsh _ _ Ha0).
Qed.

#[export] Instance short_ips_proper : Proper (Network.same_skel ==> iff) Ring.short_ips.
Proof. intros net net' Hs. split; apply short_ips_skel; [done | by symmetry]. Qed.

(** ** Growing a star *)

Lemma star_empty : Ring.star ∅.
Proof. intros a n Ha. by rewrite lookup_empty in Ha. Qed.

Lemma short_ips_empty : Ring.short_ips ∅.
Proof. intros a n Ha. by rewrite lookup_empty in Ha. Qed.

Lemma short_ips_insert net a m :
  Ring.short_ips net -> Ring.short_ip (Node.ip m) -> Ring.short_ips (<[a := m]> net).
Proof.
  intros Hs Hm b n Hb. destruct (decide (a = b)) as [<-|Hne].
  - rewrite lookup_insert_eq in Hb. by injection Hb as <-.
  - rewrite lookup_insert_ne in Hb by done. exact (Hs _ _ Hb).
Qed.

Lemma hub_insert_fresh net a m d :
  net !! a = None -> Ring.hub net d -> Ring.hub (<[a := m]> net) d.
Proof.
  intros Ha (h & Hh & Hwf & Hs & ->). exists h.
  rewrite lookup_insert_ne by congruence. done.
Qed.

(** Adding a listening node at a free address keeps the shape, when the
    new node is well formed and its successor is absent, a hub, or
    itself. *)
Lemma star_insert net a m :
  Ring.star net -> net !! a = None -> Ring.node_wf a m ->
  (Node.successor m = None \/ (exists d, Node.successor m = Some d /\ Ring.hub net d) \/
   Node.successor m = Some (Node.self_descriptor m)) ->
  Ring.star (<[a := m]> net).
Proof.
  intros Hstar Ha Hwf Hm b n Hb. destruct (decide (a = b)) as [<-|Hne].
  - rewrite lookup_insert_eq in Hb. injection Hb as <-. split; [done|].
    destruct Hm as [Hm | [(d & Hm & Hd) | Hm]]; [by left| |].
    + right. exists d. split; [done|]. by apply hub_insert_fresh.
    + right. exists (Node.self_descriptor m). split; [done|]. exists m.
      pose proof (proj1 Hwf) as ->. rewrite lookup_insert_eq.
      split; [done|]. split; [exact Hwf|]. done.
  - rewrite lookup_insert_ne in Hb by done. destruct (Hstar b n Hb) as [Hwf' Hn].
    split; [done|]. destruct Hn as [Hn | (d & Hn & Hd)]; [by left|].
    right. exists d. split; [done|]. by apply hub_insert_fresh.
Qed.
