(* ===== verification/Server.v ===== *)
(** * The servers of all nodes with their handler threads

    Every node runs the accept loop of [start_server]
    (src/node.py:68-71): one thread per connection, all of a node's
    threads sharing its [data_store].  Concurrency.v interleaves the store
    handlers of one node; here the threads of every node of the network
    run together.  A thread is bound to the address of the node that
    accepted its connection, and one step of the system is one atomic dict
    action of one thread on that node's [data_store] ([Conc.tstep]).

    The theorems: store requests on pairwise distinct (node, key) pairs,
    spread over any nodes and run under any schedule, answer what each
    answers alone, leave each touched key as that run leaves it, change no
    other key and no node's address, id or successor. *)

From S2P Require Import Prelude Json Sha1 Identity Store Concurrency Node Wire Truncation Network Ring.

Local Open Scope Z_scope.

Module Server.

(** A handler thread: the address of its node and its position. *)
Abbreviation thread := (Network.addr * Conc.pc)%type.

Definition sys : Type := Network.network * list thread.

(** The [data_store] of the node at [a]. *)
Definition store_at (net : Network.network) (a : Network.addr) : gmap Z json :=
  from_option Node.data_store ∅ (net !! a).

(** Thread [i] takes one atomic action on its node's dict. *)
Definition sys_step (s : sys) (i : nat) : sys :=
  match s.2 !! i with
  | Some (a, p) =>
      match s.1 !! a with
      | Some n =>
          match Conc.tstep (Node.data_store n) p with
          | Some (ds', p') => (<[a := Node.set_data_store n ds']> s.1, <[i := (a, p')]> s.2)
          | None => s
          end
      | None => s
      end
  | None => s
  end.

Definition run (sched : list nat) (s : sys) : sys := fold_left sys_step sched s.

(** The thread a store request sent to the node at [a] starts. *)
Definition spawn (r : Network.addr * Store.op) : thread := (r.1, Conc.spawn r.2).

(** The node and dict key a request touches, if its key is a str. *)
Definition req_key (r : Network.addr * Store.op) : option (Network.addr * Z) :=
  (fun h => (r.1, h)) <$> Conc.op_hash r.2.

(** The request a client sends for a store operation (the table of the
    specification's section on the wire protocol). *)
Definition store_request (o : Store.op) : json :=
  match o with
  | Store.OpInsert key value => JDict [("command", JStr "insert"); ("key", key); ("value", value)]
  | Store.OpQuery key => JDict [("command", JStr "query"); ("key", key)]
  | Store.OpDelete key => JDict [("command", JStr "delete"); ("key", key)]
  end.

End Server.

(** ** The invariant of a run *)

Definition sys_inv (net0 : Network.network) (rs : list (Network.addr * Store.op))
    (s : Server.sys) : Prop :=
  length s.2 = length rs /\
  (forall i a o t, rs !! i = Some (a, o) -> s.2 !! i = Some t ->
     t.1 = a /\ thread_ok (Server.store_at net0 a) (Server.store_at s.1 a) o t.2) /\
  (forall a h, (a, h) ∉ omap Server.req_key rs ->
     Server.store_at s.1 a !! h = Server.store_at net0 a !! h) /\
  Network.same_skel net0 s.1.

Lemma store_at_insert_eq net a n ds :
  Server.store_at (<[a := Node.set_data_store n ds]> net) a = ds.
Proof. unfold Server.store_at. by rewrite lookup_insert_eq. Qed.

Lemma store_at_insert_ne net a b n :
  a <> b -> Server.store_at (<[a := n]> net) b = Server.store_at net b.
Proof. intros Hne. unfold Server.store_at. by rewrite lookup_insert_ne. Qed.

Lemma store_at_lookup net a n : net !! a = Some n -> Server.store_at net a = Node.data_store n.
Proof. unfold Server.store_at. by intros ->. Qed.

(** A thread's state only depends on the dict at its own key. *)
Lemma thread_ok_ext ds0 cur cur' o p :
  (forall h, Conc.op_hash o = Some h -> cur' !! h = cur !! h) ->
  thread_ok ds0 cur o p -> thread_ok ds0 cur' o p.
Proof.
  unfold thread_ok. destruct (Conc.op_hash o) as [h|]; [|done]. intros E. by rewrite E.
Qed.

Lemma req_key_hash a o h : Conc.op_hash o = Some h -> Server.req_key (a, o) = Some (a, h).
Proof. unfold Server.req_key. simpl. by intros ->. Qed.

Lemma sys_inv_init net0 rs : sys_inv net0 rs (net0, Server.spawn <$> rs).
Proof.
  split; [simpl; by rewrite length_fmap|]. split; [|done].
  intros i a o t Hi Ht. simpl in Ht. rewrite list_lookup_fmap, Hi in Ht. injection Ht as <-.
  split; [done|]. unfold thread_ok. simpl.
  destruct (Conc.op_hash o) eqn:E; [by left | by apply spawn_non_str].
Qed.

(** One action of one thread keeps the invariant: it changes its own
    node's dict at its own key only, and no skeleton. *)
Lemma sys_inv_step net0 rs s i :
  NoDup (omap Server.req_key rs) -> sys_inv net0 rs s -> sys_inv net0 rs (Server.sys_step s i).
Proof.
  intros Hnd (Hlen & Hth & Hfr & Hsk). unfold Server.sys_step.
  destruct (s.2 !! i) as [[a p]|] eqn:Hp; [|done].
  destruct (s.1 !! a) as [n|] eqn:Hn; [|done].
  destruct (Conc.tstep (Node.data_store n) p) as [[ds' p']|] eqn:Ht; [|done].
  pose proof (lookup_lt_Some _ _ _ Hp) as Hi.
  destruct (lookup_lt_is_Some_2 rs i) as [[a' o] Ho]; [lia|].
  destruct (Hth i a' o (a, p) Ho Hp) as [Ha' Hok]. simpl in Ha'. subst a'.
  rewrite (store_at_lookup _ _ _ Hn) in Hok.
  destruct (Conc.op_hash o) as [h|] eqn:Eh.
  2:{ unfold thread_ok in Hok. rewrite Eh in Hok. simpl in Hok. subst p. discriminate. }
  destruct (tstep_thread_ok _ _ _ _ _ _ h Eh Hok Ht) as [Hok' Hfr'].
  assert (forall b, Server.store_at (<[a := Node.set_data_store n ds']> s.1) b =
            if decide (a = b) then ds' else Server.store_at s.1 b) as Hst.
  { intros b. case_decide as E; [subst b; apply store_at_insert_eq | by apply store_at_insert_ne]. }
  assert ((a, h) ∈ omap Server.req_key rs) as Hin.
  { apply list_elem_of_omap. exists (a, o). split; [by eapply list_elem_of_lookup_2 | by apply req_key_hash]. }
  split; [simpl; by rewrite length_insert|]. split; [|split].
  - intros j b oj t Hoj Htj. simpl in Htj. destruct (decide (i = j)) as [<-|Hij].
    + rewrite list_lookup_insert_eq in Htj by done. injection Htj as <-.
      rewrite Ho in Hoj. injection Hoj as <- <-. split; [done|]. simpl. by rewrite Hst, decide_True.
    + rewrite list_lookup_insert_ne in Htj by done.
      destruct (Hth j b oj t Hoj Htj) as [Hb Hj]. split; [done|]. simpl. rewrite Hst.
      case_decide as E; [|done]. rewrite <- E in Hj |- *.
      rewrite (store_at_lookup _ _ _ Hn) in Hj. apply (thread_ok_ext _ (Node.data_store n)); [|exact Hj].
      intros hj Ehj. apply Hfr'. intros Eq. subst hj. apply Hij. rewrite <- E in Hoj.
      apply (omap_nodup_distinct Server.req_key rs i j (a, o) (a, oj) (a, h));
        [done | done | done | by apply req_key_hash..].
  - intros b h' Hb. simpl. rewrite Hst. case_decide as E; [subst b|by apply Hfr].
    rewrite Hfr', <- (store_at_lookup _ _ _ Hn); [by apply Hfr|]. intros ->. by apply Hb.
  - simpl. etransitivity; [exact Hsk|]. apply same_skel_insert with n; [done | apply skel_set_data_store].
Qed.

Lemma sys_inv_run net0 rs sched s :
  NoDup (omap Server.req_key rs) -> sys_inv net0 rs s -> sys_inv net0 rs (Server.run sched s).
Proof.
  intros Hnd. unfold Server.run. revert s.
  induction sched as [|i sched IH]; intros s Hs; simpl; [done|]. by apply IH, sys_inv_step.
Qed.

(** ** The theorems *)

(** C15 (equivalence): store requests sent to any nodes of a network, on
    pairwise distinct (node, key) pairs, served by the handler threads of
    all nodes under any schedule: every thread that has answered answered
    what its request answers alone on its node's initial dict, its key
    then holds what that run leaves there, no other key of any node has
    changed, and no node's address, id or successor has changed. *)
Theorem system_as_if_alone net0 rs sched :
  NoDup (omap Server.req_key rs) ->
  let s := Server.run sched (net0, Server.spawn <$> rs) in
  (forall i a o r, rs !! i = Some (a, o) -> s.2 !! i = Some (a, Conc.Done r) ->
     r = seq_resp (Server.store_at net0 a) o) /\
  (forall i a o h r, rs !! i = Some (a, o) -> Conc.op_hash o = Some h ->
     s.2 !! i = Some (a, Conc.Done r) ->
     Server.store_at s.1 a !! h = (Store.step (Server.store_at net0 a) o).1 !! h) /\
  (forall a h, (a, h) ∉ omap Server.req_key rs ->
     Server.store_at s.1 a !! h = Server.store_at net0 a !! h) /\
  Network.same_skel net0 s.1.
Proof.
  intros Hnd s. destruct (sys_inv_run net0 rs sched _ Hnd (sys_inv_init net0 rs))
    as (_ & Hth & Hfr & Hsk). fold s in Hth, Hfr, Hsk.
  split; [|split; [|done]].
  - intros i a o r Ho Hp. exact (proj1 (thread_ok_done _ _ _ _ (proj2 (Hth i a o _ Ho Hp)))).
  - intros i a o h r Ho Hh Hp. exact (proj2 (thread_ok_done _ _ _ _ (proj2 (Hth i a o _ Ho Hp))) h Hh).
Qed.

(** Two nodes; node A inserts key "a", node B queries key "a" and inserts
    key "b": the same key at two nodes is two distinct pairs. *)
Lemma system_as_if_alone_witness :
  let net0 : Network.network :=
    <[("10.0.0.2", 5001) := Node.bootstrap_node "10.0.0.2" 5001]>
      {[("10.0.0.1", 5000) := Node.bootstrap_node "10.0.0.1" 5000]} in
  let rs := [(("10.0.0.1", 5000), Store.OpInsert (JStr "a") (JInt 1));
             (("10.0.0.2", 5001), Store.OpQuery (JStr "a"));
             (("10.0.0.2", 5001), Store.OpInsert (JStr "b") (JInt 2))] in
  NoDup (omap Server.req_key rs) /\
  (let s := Server.run [1; 0; 2; 1]%nat (net0, Server.spawn <$> rs) in
   (forall i a o r, rs !! i = Some (a, o) -> s.2 !! i = Some (a, Conc.Done r) ->
      r = seq_resp (Server.store_at net0 a) o) /\
   (forall i a o h r, rs !! i = Some (a, o) -> Conc.op_hash o = Some h ->
      s.2 !! i = Some (a, Conc.Done r) ->
      Server.store_at s.1 a !! h = (Store.step (Server.store_at net0 a) o).1 !! h) /\
   (forall a h, (a, h) ∉ omap Server.req_key rs ->
      Server.store_at s.1 a !! h = Server.store_at net0 a !! h) /\
   Network.same_skel net0 s.1).
Proof.
  intros net0 rs.
  assert (NoDup (omap Server.req_key rs)) as H by (apply (bool_decide_unpack _); vm_compute; reflexivity).
  clearbody net0. split; [exact H | exact (system_as_if_alone net0 rs [1; 0; 2; 1]%nat H)].
Defined.

(** ** Store threads never change the shape *)

Lemma sys_step_skel s i : Network.same_skel s.1 (Server.sys_step s i).1.
Proof.
  unfold Server.sys_step. destruct (s.2 !! i) as [[a p]|]; [|done].
  destruct (s.1 !! a) as [n|] eqn:Hn; [|done].
  destruct (Conc.tstep _ p) as [[ds' p']|]; [|done].
  apply same_skel_insert with n; [done | apply skel_set_data_store].
Qed.
