(* ===== verification/Join.v ===== *)
(** * The join protocol and node start-up

    [ChordNode.__init__] (src/node.py:13-38) builds the node's fields, then
    either seeds the successor with the node's own descriptor (no bootstrap
    address) or runs [join] against the bootstrap address, and only then
    starts the server thread, whose [bind] (src/node.py:62) makes the node
    reachable.  Here:

    - [update_predecessor_request] and [join] (src/node.py:79-112): the two
      round trips of the protocol, [find_successor] then
      [update_predecessor], through [Network.send_request]; any exception
      ends the protocol, keeping the attributes set so far;
    - [start_server] (src/node.py:51-76): [bind] succeeds when the port is
      in range and the address is free, and the node joins the network of
      listening nodes; otherwise the thread dies and the node never listens;
    - [chord_node]: the constructor, with Python's truthiness test of
      [if bootstrap_ip and bootstrap_port] (src/node.py:20).

    Here a listening node is an entry of the network and each connection
    is one [Network.handle_request]; the accept loop and its handler
    threads (src/node.py:68-71) are modelled in Server.v and System.v, the
    signal handler (src/node.py:34, 41-43) in Lifecycle.v. *)

From S2P Require Import Prelude Json Sha1 Identity Store Node Wire Network Ring.

Local Open Scope Z_scope.

Module Join.

(** The request of src/node.py:97-102, built from the node's attributes. *)
Definition update_predecessor_request (n : Node.node) : json :=
  JDict [("command", JStr "update_predecessor"); ("node_id", JInt (Node.node_id n));
         ("ip", JStr (Node.ip n)); ("port", JInt (Node.port n))].

(** [join(bootstrap_ip, bootstrap_port)] of node [n], which is not yet
    listening: the new network and the node's new attributes.  [None] is
    fuel exhausted in one of the two round trips. *)
Definition join (fuel : nat) (net : Network.network) (n : Node.node)
    (bootstrap_ip : string) (bootstrap_port : Z) : option (Network.network * Node.node) :=
  let request := Node.fs_request (JInt (Node.node_id n)) in
  '(net1, successor_response) ←
    Network.send_request fuel net (JStr bootstrap_ip) (JInt bootstrap_port) request;
  match py_getitem successor_response "status" with
  | Raise _ => Some (net1, n)
  | Ok status =>
      if py_eq_str status "success" then
        match py_getitem successor_response "successor" with
        | Raise _ => Some (net1, n)
        | Ok succ =>
            let n1 := Node.set_successor n succ in
            match py_getitem succ "ip" ≫= fun sip =>
                  py_getitem succ "port" ≫= fun sport => Ok (sip, sport) with
            | Raise _ => Some (net1, n1)
            | Ok (sip, sport) =>
                '(net2, _) ← Network.send_request fuel net1 sip sport
                               (update_predecessor_request n1);
                Some (net2, n1)
            end
        end
      else Some (net1, n)
  end.

(** [server.bind((self.ip, self.port))] then [listen]: a port out of
    [0, 65535] raises [OverflowError], a bound address raises [OSError]
    ([SO_REUSEADDR] does not allow a second listener); either is caught and
    the node never listens. *)
Definition start_server (net : Network.network) (n : Node.node) : Network.network :=
  let a := (Node.ip n, Node.port n) in
  if (0 <=? Node.port n) && (Node.port n <=? 65535) && bool_decide (net !! a = None)
  then <[a := n]> net
  else net.

(** [ChordNode(ip, port, bootstrap_ip, bootstrap_port)]; [bootstrap] is
    [None] when the process got two arguments (src/node.py:240-244). *)
Definition chord_node (fuel : nat) (net : Network.network) (ip : string) (port : Z)
    (bootstrap : option (string * Z)) : option Network.network :=
  match bootstrap with
  | Some (bip, bport) =>
      if negb (String.eqb bip "") && negb (bport =? 0) then
        '(net', n') ← join fuel net (Node.new_node ip port) bip bport;
        Some (start_server net' n')
      else Some (start_server net (Node.bootstrap_node ip port))
  | None => Some (start_server net (Node.bootstrap_node ip port))
  end.

(** How the process ends up: it printed the usage and exited, it died
    of an uncaught exception, or it is running (listening or not) and
    the network is [net]. *)
Inductive exit_status :=
| Usage
| Crashed (e : py_exc)
| Running (net : Network.network).

(** [if __name__ == "__main__"] (src/node.py:239-258) for
    [sys.argv = argv] (the script name first). *)
Definition main (fuel : nat) (net : Network.network) (argv : list string) : option exit_status :=
  match argv with
  | [_; ip; port_s] =>
      match py_int port_s with
      | Raise e => Some (Crashed e)
      | Ok port => net' ← chord_node fuel net ip port None; Some (Running net')
      end
  | [_; ip; port_s; bootstrap_ip; bootstrap_port_s] =>
      match py_int port_s ≫= fun port => py_int bootstrap_port_s ≫= fun bport => Ok (port, bport) with
      | Raise e => Some (Crashed e)
      | Ok (port, bport) =>
          net' ← chord_node fuel net ip port (Some (bootstrap_ip, bport)); Some (Running net')
      end
  | _ => Some Usage
  end.

End Join.

(** ** The two round trips *)

Lemma update_request_fits (n : Node.node) :
  0 <= Node.node_id n < 2 ^ 160 -> Ring.short_ip (Node.ip n) -> 0 <= Node.port n <= 65535 ->
  fits (Join.update_predecessor_request n).
Proof.
  unfold Ring.short_ip. intros Hid Hip Hp.
  pose proof (z_dec_length_160 _ Hid). pose proof (z_dec_length_port _ Hp).
  pose proof (dumps_str_length (Node.ip n)). split; [wf_dict|].
  unfold Join.update_predecessor_request. fits_length.
Qed.

Lemma success_message_fits : fits (success_message "Predecessor updated").
Proof. split; [wf_dict | vm_compute; lia]. Qed.

(** [process_request] on the request of [join]'s second round trip. *)
Lemma process_update_predecessor send net a h n :
  Network.process_request send net a h (Join.update_predecessor_request n) =
    Some (<[a := Node.set_predecessor h (Node.self_descriptor n)]> net,
          Ok (success_message "Predecessor updated")).
Proof. reflexivity. Qed.

Lemma self_descriptor_set_successor (n : Node.node) (d : json) :
  Node.self_descriptor (Node.set_successor n d) = Node.self_descriptor n.
Proof. reflexivity. Qed.

Lemma fs_success_status (d : json) :
  py_getitem (Node.fs_success d) "status" = Ok (JStr "success").
Proof. reflexivity. Qed.

Lemma fs_success_successor (d : json) : py_getitem (Node.fs_success d) "successor" = Ok d.
Proof. reflexivity. Qed.

Lemma error_message_status (m : string) :
  py_getitem (error_message m) "status" = Ok (JStr "error").
Proof. reflexivity. Qed.

(** [join] ends with the network's skeleton unchanged, and the node's
    successor is either unchanged or a hub of the network. *)
Lemma join_star fuel net n bip bport net' n' :
  Ring.star net -> 0 <= Node.node_id n < 2 ^ 160 ->
  Join.join fuel net n bip bport = Some (net', n') ->
  Network.same_skel net net' /\
  Node.ip n' = Node.ip n /\ Node.port n' = Node.port n /\ Node.node_id n' = Node.node_id n /\
  (Node.successor n' = Node.successor n \/
   exists d, Node.successor n' = Some d /\ Ring.hub net d).
Proof.
  intros Hstar Hid. unfold Join.join.
  destruct (Network.send_request _ _ _ _ _) as [[net1 r]|] eqn:E1; [|discriminate].
  cbn [mbind option_bind].
  destruct (send_find_successor_star _ _ _ _ _ _ _ Hstar Hid E1) as [-> [[m ->] | (d & -> & Hd)]].
  - rewrite error_message_status.
    change (py_eq_str (JStr "error") "success") with false. cbv iota. intros [= <- <-]. split; [reflexivity|]. auto 6.
  - rewrite fs_success_status.
    change (py_eq_str (JStr "success") "success") with true. cbv iota.
    rewrite fs_success_successor. cbv iota.
    match goal with |- context [py_getitem d "ip" ≫= ?f] =>
      destruct (py_getitem d "ip" ≫= f) as [[sip sport]|e] end.
    + match goal with |- context [Network.send_request fuel net ?x ?y ?q] =>
        destruct (Network.send_request fuel net x y q) as [[net2 r2]|] eqn:E2 end;
        [|discriminate].
      cbn [mbind option_bind]. intros [= <- <-]. split.
      * eapply send_request_with_skel; [apply handle_request_skel | exact E2].
      * simpl. eauto 10.
    + intros [= <- <-]. split; [reflexivity|]. simpl. eauto 10.
Qed.

Lemma descriptor_address (h : Node.node) :
  (py_getitem (Node.self_descriptor h) "ip" ≫= fun sip =>
   py_getitem (Node.self_descriptor h) "port" ≫= fun sport => Ok (sip, sport)) =
  Ok (JStr (Node.ip h), JInt (Node.port h)).
Proof. reflexivity. Qed.

(** The successor answers [join]'s [update_predecessor] by recording the
    new node's descriptor. *)
Lemma update_predecessor_answered fuel net a h n :
  net !! a = Some h -> fits (Join.update_predecessor_request n) ->
  Network.handle_request (S fuel) net a (bytes (Join.update_predecessor_request n)) =
    Some (<[a := Node.set_predecessor h (Node.self_descriptor n)]> net,
          Some (bytes (success_message "Predecessor updated"))).
Proof.
  intros Ha [Hwf Hl]. rewrite (handle_request_delivered _ _ _ h) by done.
  by rewrite process_update_predecessor.
Qed.

(** C3 (join): the join scenario of the protocol.  In a star network
    whose IP strings, like the new node's, have at most 45 characters, a
    node joining through a listening node [t] whose successor is [d],
    given two hops of fuel: the bootstrap node answers the
    [find_successor] request with [d]; [d] is the descriptor of a hub
    [h]; the joining node's successor becomes [d]; and [h]'s predecessor
    becomes the joining node's own descriptor, the only change to the
    network. *)
Theorem join_links fuel net n bip bport t d :
  Ring.star net -> Ring.short_ips net -> (2 <= fuel)%nat -> 0 <= bport <= 65535 ->
  net !! (bip, bport) = Some t -> Node.successor t = Some d ->
  0 <= Node.node_id n < 2 ^ 160 -> Ring.short_ip (Node.ip n) -> 0 <= Node.port n <= 65535 ->
  Network.handle_request fuel net (bip, bport) (bytes (Node.fs_request (JInt (Node.node_id n)))) =
    Some (net, Some (bytes (Node.fs_success d))) /\
  exists h, d = Node.self_descriptor h /\ net !! (Node.ip h, Node.port h) = Some h /\
    Join.join fuel net n bip bport =
      Some (<[(Node.ip h, Node.port h) := Node.set_predecessor h (Node.self_descriptor n)]> net,
            Node.set_successor n d).
Proof.
  intros Hstar Hsh Hfuel Hbp Ht Hs Hid Hip Hp.
  destruct fuel as [|[|f]]; [lia|lia|].
  destruct (Hstar _ _ Ht) as [_ [Hs'|(d' & Hs' & Hd)]]; rewrite Hs in Hs'; [discriminate|].
  injection Hs' as <-.
  pose proof (star_node_answers f net _ t d _ Hstar Hsh Ht Hs Hd Hid) as E1.
  split; [exact E1|].
  destruct (hub_fits _ _ Hsh Hd) as [Hwf1 Hl1].
  destruct Hd as (h & Hh & Hhwf & _ & ->). destruct (node_wf_bounds _ _ Hhwf) as (_ & Hhp).
  exists h. split; [done|]. split; [done|].
  unfold Join.join, Network.send_request.
  rewrite (send_request_with_answered _ _ _ _ _ t _ net _ (connect_target_addr _ _ Hbp) Ht E1 Hwf1 Hl1).
  cbn [mbind option_bind]. rewrite fs_success_status.
  change (py_eq_str (JStr "success") "success") with true. cbv iota.
  rewrite fs_success_successor. cbv iota. rewrite descriptor_address.
  destruct (update_request_fits (Node.set_successor n (Node.self_descriptor h)) Hid Hip Hp)
    as [Hwf2 Hl2].
  pose proof (update_predecessor_answered (S f) net _ h (Node.set_successor n (Node.self_descriptor h))
                Hh (conj Hwf2 Hl2)) as E2.
  rewrite self_descriptor_set_successor in E2.
  rewrite (send_request_with_answered _ _ _ _ _ h _ _ _ (connect_target_addr _ _ Hhp) Hh E2)
    by (apply success_message_fits).
  reflexivity.
Qed.

(** ** Start-up *)

Lemma start_server_star net m :
  Ring.star net ->
  Node.node_id m = generate_id (Node.ip m) (Node.port m) ->
  (Node.successor m = None \/ (exists d, Node.successor m = Some d /\ Ring.hub net d) \/
   Node.successor m = Some (Node.self_descriptor m)) ->
  Ring.star (Join.start_server net m).
Proof.
  intros Hstar Hid Hm. unfold Join.start_server.
  destruct (Z.leb_spec 0 (Node.port m)), (Z.leb_spec (Node.port m) 65535); simpl; try done.
  case_bool_decide as Hfree; [|done].
  apply star_insert; [done | done | by repeat split | done].
Qed.

Lemma chord_node_star fuel net ip port boot net' :
  Ring.star net ->
  Join.chord_node fuel net ip port boot = Some net' -> Ring.star net'.
Proof.
  intros Hstar. unfold Join.chord_node.
  assert (forall net, Ring.star net ->
            Some (Join.start_server net (Node.bootstrap_node ip port)) = Some net' ->
            Ring.star net') as Hboot.
  { intros net0 Hs0 [= <-]. apply start_server_star; [done..| by right; right]. }
  destruct boot as [[bip bport]|]; [|by apply Hboot].
  destruct (negb _ && negb _); [|by apply Hboot].
  destruct (Join.join fuel net _ bip bport) as [[net1 n1]|] eqn:E; [|discriminate].
  intros [= <-].
  destruct (join_star _ _ (Node.new_node ip port) _ _ _ _ Hstar (generate_id_range ip port) E)
    as (Hsk & Hip1 & Hport1 & Hid1 & Hs1).
  apply start_server_star; [by rewrite <- Hsk | by rewrite Hip1, Hport1, Hid1 |].
  destruct Hs1 as [-> | (d & Hd & Hhub)]; [by left|].
  right; left. exists d. split; [done|]. by rewrite <- Hsk.
Qed.

(** C21 (ordering): [join] runs to its end before the server thread is
    started (src/node.py:23 then 31), so during [join] the new node is not
    listening.  A node joining through a node [t] whose successor names
    the joiner's own, still unbound, address (e.g. the address of a
    bootstrap node that has exited, now restarted) with a smaller id than
    the joiner's: [t] answers with that descriptor, the joiner takes
    itself as successor, and its [update_predecessor] to itself is
    refused, so it starts listening exactly as a bootstrap node, its
    predecessor unset, and nothing else changes.  Were the server bound
    before [join], the joiner would receive its own announcement and set
    its predecessor. *)
Theorem join_before_listen fuel net ip port bip bport t :
  net !! (bip, bport) = Some t ->
  Node.successor t = Some (Node.self_descriptor (Node.new_node ip port)) ->
  net !! (ip, port) = None -> Node.node_id t < generate_id ip port ->
  bip <> "" -> bport <> 0 -> 0 <= bport <= 65535 -> 0 <= port <= 65535 -> Ring.short_ip ip ->
  Join.chord_node (S fuel) net ip port (Some (bip, bport)) =
    Some (<[(ip, port) := Node.bootstrap_node ip port]> net).
Proof.
  intros Ht Hs Hfree Hlt Hbip Hbport Hbp Hp Hip. unfold Join.chord_node.
  rewrite (proj2 (String.eqb_neq _ _) Hbip), (proj2 (Z.eqb_neq _ _) Hbport). cbn [negb andb].
  pose proof (generate_id_range ip port) as Hid.
  assert (Network.handle_request (S fuel) net (bip, bport)
            (bytes (Node.fs_request (JInt (generate_id ip port)))) =
          Some (net, Some (bytes (Node.fs_success (Node.self_descriptor (Node.new_node ip port))))))
    as E1.
  { change (Node.self_descriptor (Node.new_node ip port))
      with (Node.descriptor (generate_id ip port) ip port) in Hs |- *.
    rewrite (handle_request_delivered _ _ _ t) by (done || by apply fs_request_fits).
    rewrite process_find_successor.
    rewrite (find_successor_int t _ _ _ _ Hs) by lia.
    by rewrite (proj2 (Z.ltb_lt _ _) Hlt), Z.leb_refl. }
  destruct (fs_success_fits (generate_id ip port) ip port Hid Hip Hp) as [Hwf1 Hl1].
  unfold Join.join, Network.send_request.
  change (Node.node_id (Node.new_node ip port)) with (generate_id ip port).
  rewrite (send_request_with_answered _ _ _ _ _ t _ net _ (connect_target_addr _ _ Hbp) Ht E1 Hwf1 Hl1).
  cbn [mbind option_bind]. rewrite fs_success_status.
  change (py_eq_str (JStr "success") "success") with true. cbv iota.
  rewrite fs_success_successor. cbv iota. rewrite descriptor_address.
  rewrite send_request_refused by done. cbn [mbind option_bind].
  unfold Join.start_server. cbn [Node.ip Node.port Node.set_successor Node.new_node].
  rewrite bool_decide_eq_true_2 by done. by case_zbools.
Qed.

(** [t] (id 0) points to the free address 10.0.0.2:6000, where a new
    process joins through [t]. *)
Lemma join_before_listen_witness :
  let t := Node.Node "10.0.0.1" 5000 0 ∅ JNull
             (Some (Node.self_descriptor (Node.new_node "10.0.0.2" 6000))) in
  let net : Network.network := <[("10.0.0.1", 5000) := t]> ∅ in
  Join.chord_node 2 net "10.0.0.2" 6000 (Some ("10.0.0.1", 5000)) =
    Some (<[("10.0.0.2", 6000) := Node.bootstrap_node "10.0.0.2" 6000]> net).
Proof.
  intros t net.
  assert (net !! ("10.0.0.1", 5000) = Some t) as H1 by apply lookup_insert_eq.
  assert (Node.successor t = Some (Node.self_descriptor (Node.new_node "10.0.0.2" 6000))) as H0
    by reflexivity.
  assert (net !! ("10.0.0.2", 6000) = None) as H2 by (vm_compute; reflexivity).
  assert (Node.node_id t < generate_id "10.0.0.2" 6000) as H3 by (vm_compute; reflexivity).
  assert (Ring.short_ip "10.0.0.2") as H4 by (unfold Ring.short_ip; cbn; lia).
  clearbody t net.
  exact (join_before_listen 1 net "10.0.0.2" 6000 "10.0.0.1" 5000 t H1 H0 H2 H3
           ltac:(discriminate) ltac:(lia) ltac:(lia) ltac:(lia) H4).
Defined.

Lemma star_bootstrap_singleton (ip : string) (port : Z) :
  0 <= port <= 65535 ->
  Ring.star (<[(ip, port) := Node.bootstrap_node ip port]> ∅).
Proof.
  intros Hp. apply star_insert; [apply star_empty | apply lookup_empty | | by right; right].
  split; [done|]. split; [done|]. exact Hp.
Qed.

Lemma join_links_witness :
  let B := Node.bootstrap_node "10.0.0.1" 5000 in
  let net : Network.network := <[("10.0.0.1", 5000) := B]> ∅ in
  let n := Node.new_node "10.0.0.2" 5001 in
  Ring.star net /\ Ring.short_ips net /\
  Network.handle_request 2 net ("10.0.0.1", 5000) (bytes (Node.fs_request (JInt (Node.node_id n)))) =
    Some (net, Some (bytes (Node.fs_success (Node.self_descriptor B)))) /\
  exists h, Node.self_descriptor B = Node.self_descriptor h /\
    net !! (Node.ip h, Node.port h) = Some h /\
    Join.join 2 net n "10.0.0.1" 5000 =
      Some (<[(Node.ip h, Node.port h) := Node.set_predecessor h (Node.self_descriptor n)]> net,
            Node.set_successor n (Node.self_descriptor B)).
Proof.
  intros B net n.
  assert (Ring.star net) as Hstar
    by (apply star_bootstrap_singleton; lia).
  assert (Ring.short_ips net) as Hsh
    by (apply short_ips_insert; [apply short_ips_empty | unfold Ring.short_ip; simpl; lia]).
  assert (net !! ("10.0.0.1", 5000) = Some B) as Ht by apply lookup_insert_eq.
  assert (Node.successor B = Some (Node.self_descriptor B)) as Hs by reflexivity.
  assert (0 <= Node.node_id n < 2 ^ 160) as Hid by apply generate_id_range.
  assert (Ring.short_ip (Node.ip n)) as Hip by (unfold Ring.short_ip; simpl; lia).
  assert (0 <= Node.port n <= 65535) as Hp by (simpl; lia).
  split; [exact Hstar|]. split; [exact Hsh|].
  exact (join_links 2 net n "10.0.0.1" 5000 B _ Hstar Hsh ltac:(lia) ltac:(lia) Ht Hs Hid Hip Hp).
Defined.

(** ** The command line *)

(** C30 (error): the command line.  With an argument count other than
    two or four the process prints the usage and starts nothing; when a
    port argument is not an int literal ([int()] raises [ValueError]),
    the process dies of that exception before the node is built, and
    nothing changes in the network. *)
Theorem main_errors fuel net argv e :
  ((length argv <> 3)%nat -> (length argv <> 5)%nat -> Join.main fuel net argv = Some Join.Usage) /\
  (forall prog ip port_s rest, py_int port_s = Raise e ->
     (rest = [] \/ exists b bp, rest = [b; bp]) ->
     Join.main fuel net (prog :: ip :: port_s :: rest) = Some (Join.Crashed e)).
Proof.
  split.
  - intros H3 H5. unfold Join.main.
    destruct argv as [|? [|? [|? [|? [|? [|]]]]]]; simpl in *; done.
  - intros prog ip port_s rest He [-> | (b & bp & ->)]; unfold Join.main; by rewrite He.
Qed.

Lemma main_errors_witness :
  Join.main 1 ∅ ["node.py"] = Some Join.Usage /\
  Join.main 1 ∅ ["node.py"; "10.0.0.1"; "50O0"] =
    Some (Join.Crashed (PyExc ValueError "invalid literal for int() with base 10: '50O0'")).
Proof.
  destruct (main_errors 1 ∅ ["node.py"] (PyExc ValueError "invalid literal for int() with base 10: '50O0'"))
    as [H1 H2].
  split; [exact (H1 ltac:(simpl; lia) ltac:(simpl; lia))|].
  apply (H2 "node.py" "10.0.0.1" "50O0" []); [vm_compute; reflexivity | by left].
Defined.

(** ** The announce step is never checked *)

(** C22 (error): once the bootstrap node has answered [find_successor]
    with status ["success"] and a successor descriptor with [ip] and
    [port] fields, [join] ends with that successor recorded whatever the
    [update_predecessor] round trip returns: a refused connection, an
    error dict or a success.  [update_response] is only printed
    (src/node.py:104-105). *)
Theorem join_ignores_announce fuel net n bip bport net1 resp s sip sport net2 r2 :
  Network.send_request fuel net (JStr bip) (JInt bport) (Node.fs_request (JInt (Node.node_id n))) =
    Some (net1, resp) ->
  py_getitem resp "status" = Ok (JStr "success") ->
  py_getitem resp "successor" = Ok s ->
  py_getitem s "ip" = Ok sip -> py_getitem s "port" = Ok sport ->
  Network.send_request fuel net1 sip sport (Join.update_predecessor_request (Node.set_successor n s)) =
    Some (net2, r2) ->
  Join.join fuel net n bip bport = Some (net2, Node.set_successor n s).
Proof.
  intros H1 H2 H3 H4 H5 H6. cbv beta zeta delta [Join.join].
  rewrite H1. cbn [mbind option_bind]. rewrite H2. cbn [py_eq_str]. rewrite H3, H4, H5.
  cbn [mbind res_bind]. by rewrite H6.
Qed.

(** A bootstrap node whose successor's address is not bound: the joining
    node keeps the dead successor although the announcement was refused. *)
Lemma join_ignores_announce_witness :
  let s := Node.descriptor (2 ^ 160 - 1) "10.0.0.9" 6000 in
  let b := Node.Node "10.0.0.1" 5000 0 ∅ JNull (Some s) in
  let net : Network.network := {[("10.0.0.1", 5000) := b]} in
  let n := Node.new_node "10.0.0.2" 5001 in
  Network.send_request 3 net (JStr "10.0.0.1") (JInt 5000) (Node.fs_request (JInt (Node.node_id n))) =
    Some (net, Node.fs_success s) /\
  Network.send_request 3 net (JStr "10.0.0.9") (JInt 6000)
    (Join.update_predecessor_request (Node.set_successor n s)) =
    Some (net, error_message Network.connection_refused) /\
  Join.join 3 net n "10.0.0.1" 5000 = Some (net, Node.set_successor n s).
Proof.
  intros s b net n.
  assert (Network.send_request 3 net (JStr "10.0.0.1") (JInt 5000)
            (Node.fs_request (JInt (Node.node_id n))) = Some (net, Node.fs_success s)) as H1
    by (vm_compute; reflexivity).
  assert (Network.send_request 3 net (JStr "10.0.0.9") (JInt 6000)
            (Join.update_predecessor_request (Node.set_successor n s)) =
            Some (net, error_message Network.connection_refused)) as H6
    by (vm_compute; reflexivity).
  split; [exact H1|]. split; [exact H6|].
  exact (join_ignores_announce 3 net n "10.0.0.1" 5000 net (Node.fs_success s) s
           (JStr "10.0.0.9") (JInt 6000) net _ H1 eq_refl eq_refl eq_refl eq_refl H6).
Defined.
