(* ===== verification/Topology.v ===== *)
(** * The networks a run of the program can reach

    A run is a sequence of steps, each either the start of a process
    [python node.py ip port [bootstrap_ip bootstrap_port]] ([Join.chord_node]
    then [bind]) or one client connection to a listening node
    ([Network.handle_request], forwarding included).  [reachable adm] is
    the reflexive-transitive closure from the empty network, where every
    started node's IP string satisfies [adm].

    The theorems:
    - every reachable network, whatever the IP strings, is a star
      ([Ring.star]): every successor pointer names a hub, a listening node
      that is its own successor;
    - so in a reachable network [find_successor] always terminates after at
      most one forward; with IP strings of at most 45 characters every
      answer fits in [recv(1024)] and it is the hub's descriptor whatever
      the target;
    - the two-node ring of the specification (A's successor is B and B's is
      A) is never reached; built by hand, it routes a target at or below A
      back and forth forever. *)

From S2P Require Import Prelude Json Sha1 Identity Store Node Wire Network Ring Join.

Local Open Scope Z_scope.

Module Topology.

(** The IP argument of a command line. *)
Definition argv_ip (argv : list string) : string :=
  match argv with
  | _ :: ip :: _ => ip
  | _ => EmptyString
  end.

Inductive step (admissible : string -> Prop) : Network.network -> Network.network -> Prop :=
| step_start fuel net argv net' :
    admissible (argv_ip argv) -> Join.main fuel net argv = Some (Join.Running net') ->
    step admissible net net'
| step_request fuel net a bs net' reply :
    Network.handle_request fuel net a bs = Some (net', reply) -> step admissible net net'.

Definition reachable (admissible : string -> Prop) (net : Network.network) : Prop :=
  rtc (step admissible) ∅ net.

(** Two listening nodes, each the other's successor. *)
Definition ring2 (A B : Node.node) : Network.network :=
  <[(Node.ip B, Node.port B) := B]> (<[(Node.ip A, Node.port A) := A]> ∅).

End Topology.

(** ** The star invariant *)

(** A process that is running afterwards ran the constructor on its
    command line's IP string. *)
Lemma main_chord_node fuel net argv net' :
  Join.main fuel net argv = Some (Join.Running net') ->
  exists port boot, Join.chord_node fuel net (Topology.argv_ip argv) port boot = Some net'.
Proof.
  unfold Join.main.
  destruct argv as [|prog [|ip [|port_s [|bip [|bport_s [|]]]]]]; try discriminate;
    repeat case_match; try discriminate;
    match goal with
    |- Join.chord_node ?f ?n ?i ?p ?b ≫= _ = _ -> _ =>
        destruct (Join.chord_node f n i p b) as [n1|] eqn:Hc; [|discriminate];
        intros [= <-]; exists p, b; exact Hc
    end.
Qed.

Lemma main_star fuel net argv net' :
  Ring.star net -> Join.main fuel net argv = Some (Join.Running net') -> Ring.star net'.
Proof.
  intros Hstar (port & boot & Hc)%main_chord_node. exact (chord_node_star _ _ _ _ _ _ Hstar Hc).
Qed.

Lemma step_star adm net net' :
  Ring.star net -> Topology.step adm net net' -> Ring.star net'.
Proof.
  intros Hstar Hstep. revert Hstar.
  destruct Hstep as [fuel net argv net' _ Hc | fuel net a bs net' reply Hh]; intros Hstar.
  - exact (main_star _ _ _ _ Hstar Hc).
  - by rewrite <- (handle_request_skel _ _ _ _ _ _ Hh).
Qed.

Lemma start_server_short net m :
  Ring.short_ips net -> Ring.short_ip (Node.ip m) -> Ring.short_ips (Join.start_server net m).
Proof. intros Hs Hm. unfold Join.start_server. case_match; [by apply short_ips_insert | done]. Qed.

Lemma chord_node_short fuel net ip port boot net' :
  Ring.star net -> Ring.short_ips net -> Ring.short_ip ip ->
  Join.chord_node fuel net ip port boot = Some net' -> Ring.short_ips net'.
Proof.
  intros Hstar Hsh Hip. unfold Join.chord_node.
  destruct boot as [[bip bport]|]; [case_match|];
    try (intros [= <-]; by apply start_server_short).
  destruct (Join.join fuel net _ bip bport) as [[net1 n1]|] eqn:E; [|discriminate].
  intros [= <-].
  destruct (join_star _ _ (Node.new_node ip port) _ _ _ _ Hstar (generate_id_range ip port) E)
    as (Hsk & Hip1 & _).
  apply start_server_short; [exact (short_ips_skel _ _ Hsk Hsh) | by rewrite Hip1].
Qed.

(** Runs whose processes all have short IP strings keep both shapes. *)
Lemma step_star_short net net' :
  Ring.star net /\ Ring.short_ips net -> Topology.step Ring.short_ip net net' ->
  Ring.star net' /\ Ring.short_ips net'.
Proof.
  intros [Hstar Hsh] Hstep. revert Hstar Hsh.
  destruct Hstep as [fuel net argv net' Hip Hc | fuel net a bs net' reply Hh]; intros Hstar Hsh.
  - split; [exact (main_star _ _ _ _ Hstar Hc)|].
    destruct (main_chord_node _ _ _ _ Hc) as (port & boot & Hc').
    exact (chord_node_short _ _ _ _ _ _ Hstar Hsh Hip Hc').
  - pose proof (handle_request_skel _ _ _ _ _ _ Hh) as Hsk.
    split; [exact (star_skel _ _ Hsk Hstar) | exact (short_ips_skel _ _ Hsk Hsh)].
Qed.

(** Rule induction over runs: a property of the empty network that every
    step preserves holds of every reachable network. *)
Lemma reachable_ind (adm : string -> Prop) (P : Network.network -> Prop) :
  P ∅ -> (forall x y, P x -> Topology.step adm x y -> P y) ->
  forall net, Topology.reachable adm net -> P net.
Proof.
  intros H0 Hs net Hr. exact (rtc_invariant _ P _ _ H0 Hs Hr).
Qed.

(** C1 (invariant): every network reachable by starting nodes (with IP
    strings of any length) and serving client connections is a star: each listening node is bound to its own address with the id
    [generate_id(ip, port)], and its successor is either absent (a failed
    join) or the descriptor of a listening node that is its own successor
    (a bootstrap node). *)
Theorem reachable_star adm net : Topology.reachable adm net -> Ring.star net.
Proof.
  apply reachable_ind; [apply star_empty | apply step_star].
Qed.

Lemma reachable_star_witness :
  let net : Network.network := <[("10.0.0.1", 5000) := Node.bootstrap_node "10.0.0.1" 5000]> ∅ in
  Topology.reachable (fun _ => True) net /\ Ring.star net.
Proof.
  intros net.
  assert (Topology.reachable (fun _ => True) net) as Hr.
  { unfold Topology.reachable. eapply rtc_l; [|apply rtc_refl].
    apply (Topology.step_start _ 1 ∅ ["node.py"; "10.0.0.1"; "5000"] net);
      [done | vm_compute; reflexivity]. }
  split; [exact Hr | exact (reachable_star _ net Hr)].
Defined.

(** ** Routing in reachable networks *)

(** C2 (termination): in every reachable network, a [find_successor]
    request for any identifier sent to a listening node is settled
    without any endless forwarding: a node without successor closes the
    connection with one unit of fuel; a node with a successor answers,
    given fuel for one forward, with its successor's descriptor, which
    is a hub's, whatever the target; the network does not change.  The
    run's IP strings have at most 45 characters, so the hub's answer fits
    in the forwarding node's [recv(1024)]. *)
Theorem reachable_find_successor net a n x :
  Topology.reachable Ring.short_ip net -> net !! a = Some n -> 0 <= x < 2 ^ 160 ->
  (Node.successor n = None /\
   forall fuel, Network.handle_request (S fuel) net a (bytes (Node.fs_request (JInt x))) =
                Some (net, None)) \/
  (exists d, Node.successor n = Some d /\ Ring.hub net d /\
   forall fuel, Network.handle_request (S (S fuel)) net a (bytes (Node.fs_request (JInt x))) =
                Some (net, Some (bytes (Node.fs_success d)))).
Proof.
  intros Hr Ha Hx.
  destruct (reachable_ind _ (fun net => Ring.star net /\ Ring.short_ips net)
              (conj star_empty short_ips_empty) step_star_short _ Hr) as [Hstar Hsh].
  destruct (Hstar a n Ha) as [_ [Hs | (d & Hs & Hd)]].
  - left. split; [done|]. intros fuel. by apply (orphan_drops fuel net a n x).
  - right. exists d. split; [done|]. split; [done|]. intros fuel.
    by apply (star_node_answers fuel net a n d x).
Qed.

Lemma reachable_find_successor_witness :
  let B := Node.bootstrap_node "10.0.0.1" 5000 in
  let C := Node.set_successor (Node.new_node "10.0.0.2" 5001) (Node.self_descriptor B) in
  let net : Network.network :=
    <[("10.0.0.2", 5001) := C]>
      (<[("10.0.0.1", 5000) := Node.set_predecessor B (Node.self_descriptor C)]> ∅) in
  Topology.reachable Ring.short_ip net /\ net !! ("10.0.0.2", 5001) = Some C /\
  0 <= 7 < 2 ^ 160 /\
  ((Node.successor C = None /\
    forall fuel, Network.handle_request (S fuel) net ("10.0.0.2", 5001)
                   (bytes (Node.fs_request (JInt 7))) = Some (net, None)) \/
   (exists d, Node.successor C = Some d /\ Ring.hub net d /\
    forall fuel, Network.handle_request (S (S fuel)) net ("10.0.0.2", 5001)
                   (bytes (Node.fs_request (JInt 7))) = Some (net, Some (bytes (Node.fs_success d))))).
Proof.
  intros B C net.
  assert (Topology.reachable Ring.short_ip net) as Hr.
  { unfold Topology.reachable. eapply rtc_l.
    { apply (Topology.step_start _ 1 ∅ ["node.py"; "10.0.0.1"; "5000"] (<[("10.0.0.1", 5000) := B]> ∅));
        [unfold Ring.short_ip; simpl; lia | vm_compute; reflexivity]. }
    eapply rtc_l; [|apply rtc_refl].
    apply (Topology.step_start _ 2 _ ["node.py"; "10.0.0.2"; "5001"; "10.0.0.1"; "5000"] net);
      [unfold Ring.short_ip; simpl; lia | vm_compute; reflexivity]. }
  assert (net !! ("10.0.0.2", 5001) = Some C) as Ha by apply lookup_insert_eq.
  assert (0 <= 7 < 2 ^ 160) as Hx by lia.
  split; [exact Hr|]. split; [exact Ha|]. split; [exact Hx|].
  exact (reachable_find_successor net _ C 7 Hr Ha Hx).
Defined.

(** ** The two-node ring *)

Lemma self_descriptor_addr (x y : Node.node) :
  Node.self_descriptor x = Node.self_descriptor y ->
  Node.ip x = Node.ip y /\ Node.port x = Node.port y.
Proof. unfold Node.self_descriptor, Node.descriptor. intros [= _ -> ->]. done. Qed.

(** C19 (safety): the two-node ring of the specification's scenarios
    (A's successor is B and B's successor is A) never arises: in a
    reachable network, two listening nodes that are each other's
    successor are one and the same node. *)
Theorem reachable_no_two_node_ring adm net a b x y :
  Topology.reachable adm net -> net !! a = Some x -> net !! b = Some y ->
  Node.successor x = Some (Node.self_descriptor y) ->
  Node.successor y = Some (Node.self_descriptor x) -> a = b.
Proof.
  intros Hr Ha Hb Hx Hy. pose proof (reachable_ind _ _ star_empty (step_star adm) _ Hr) as Hstar.
  destruct (Hstar a x Ha) as [[-> _] [Hs | (d & Hs & (h & Hh & _ & Hhs & Hd))]];
    rewrite Hx in Hs; [discriminate|]. injection Hs as <-.
  destruct (self_descriptor_addr _ _ Hd) as [Hip Hport].
  destruct (Hstar b y Hb) as [[-> _] _].
  rewrite Hip, Hport, Hh in Hb. injection Hb as <-.
  assert (Node.self_descriptor x = Node.self_descriptor h) as Hxy by congruence.
  destruct (self_descriptor_addr _ _ Hxy) as [-> ->]. done.
Qed.

Lemma reachable_no_two_node_ring_witness :
  let B := Node.bootstrap_node "10.0.0.1" 5000 in
  let net : Network.network := <[("10.0.0.1", 5000) := B]> ∅ in
  Topology.reachable Ring.short_ip net /\ net !! ("10.0.0.1", 5000) = Some B /\
  Node.successor B = Some (Node.self_descriptor B) /\
  ("10.0.0.1", 5000) = ("10.0.0.1", 5000).
Proof.
  intros B net.
  assert (Topology.reachable Ring.short_ip net) as Hr.
  { unfold Topology.reachable. eapply rtc_l; [|apply rtc_refl].
    apply (Topology.step_start _ 1 ∅ ["node.py"; "10.0.0.1"; "5000"] net);
      [unfold Ring.short_ip; simpl; lia | vm_compute; reflexivity]. }
  assert (net !! ("10.0.0.1", 5000) = Some B) as Ha by apply lookup_insert_eq.
  assert (Node.successor B = Some (Node.self_descriptor B)) as Hs by reflexivity.
  split; [exact Hr|]. split; [exact Ha|]. split; [exact Hs|].
  exact (reachable_no_two_node_ring _ net _ _ B B Hr Ha Ha Hs Hs).
Defined.

(** A connection whose callee never answers: the caller never answers. *)
Lemma forward_none serve net ip port n req :
  0 <= port <= 65535 -> net !! (ip, port) = Some n ->
  serve net (ip, port) (bytes req) = None ->
  Network.send_request_with serve net (JStr ip) (JInt port) req = None.
Proof.
  intros Hp Ha Hs. unfold Network.send_request_with. by rewrite connect_target_addr, Ha, Hs.
Qed.

Lemma handle_forward_none fuel net a c c' x :
  net !! a = Some c -> net !! (Node.ip c', Node.port c') = Some c' ->
  0 <= Node.port c' <= 65535 -> 0 <= x < 2 ^ 160 ->
  Node.find_successor c (JInt x) =
    Ok (Node.FSForward (JStr (Node.ip c')) (JInt (Node.port c')) (Node.fs_request (JInt x))) ->
  Network.handle_request fuel net (Node.ip c', Node.port c') (bytes (Node.fs_request (JInt x))) = None ->
  Network.handle_request (S fuel) net a (bytes (Node.fs_request (JInt x))) = None.
Proof.
  intros Ha Hc' Hp Hx Hf Hnone.
  rewrite (handle_request_delivered _ _ _ c) by (done || by apply fs_request_fits).
  rewrite process_find_successor, Hf. unfold Network.send_request.
  by rewrite (forward_none _ _ _ _ c').
Qed.

(** C18 (non-termination): the two-node ring of the specification's
    routing scenario, A's successor B and B's successor A with
    [id A < id B], built by hand.  [find_successor] at A for a target at
    most [id A] is forwarded to B, which forwards it back to A, and so on:
    no fuel is ever enough, the request never gets an answer (the
    specification says it is resolved at B). *)
Theorem two_node_ring_diverges (A B : Node.node) (x : Z) (fuel : nat) :
  (Node.ip A, Node.port A) <> (Node.ip B, Node.port B) ->
  Node.successor A = Some (Node.self_descriptor B) ->
  Node.successor B = Some (Node.self_descriptor A) ->
  Node.node_id A < Node.node_id B < 2 ^ 160 -> 0 <= x <= Node.node_id A ->
  0 <= Node.port A <= 65535 -> 0 <= Node.port B <= 65535 ->
  Network.handle_request fuel (Topology.ring2 A B) (Node.ip A, Node.port A)
    (bytes (Node.fs_request (JInt x))) = None.
Proof.
  intros Hne HA HB Hid Hx HpA HpB.
  set (net := Topology.ring2 A B).
  assert (net !! (Node.ip A, Node.port A) = Some A) as LA.
  { unfold net, Topology.ring2. rewrite lookup_insert_ne by congruence. apply lookup_insert_eq. }
  assert (net !! (Node.ip B, Node.port B) = Some B) as LB by apply lookup_insert_eq.
  assert (Node.find_successor A (JInt x) =
    Ok (Node.FSForward (JStr (Node.ip B)) (JInt (Node.port B)) (Node.fs_request (JInt x)))) as FA.
  { rewrite (find_successor_int A _ _ _ x HA) by lia.
    destruct (Z.ltb_spec (Node.node_id A) x); [lia|]. reflexivity. }
  assert (Node.find_successor B (JInt x) =
    Ok (Node.FSForward (JStr (Node.ip A)) (JInt (Node.port A)) (Node.fs_request (JInt x)))) as FB.
  { rewrite (find_successor_int B _ _ _ x HB) by lia.
    destruct (Z.leb_spec x (Node.node_id A)), (Z.ltb_spec (Node.node_id B) x); try lia; reflexivity. }
  enough (Network.handle_request fuel net (Node.ip A, Node.port A) (bytes (Node.fs_request (JInt x)))
            = None /\
          Network.handle_request fuel net (Node.ip B, Node.port B) (bytes (Node.fs_request (JInt x)))
            = None) as [H _] by exact H.
  assert (0 <= x < 2 ^ 160) as Hx' by lia.
  induction fuel as [|fuel [IHA IHB]]; [done|].
  split; [exact (handle_forward_none fuel net _ A B x LA LB HpB Hx' FA IHB)
         |exact (handle_forward_none fuel net _ B A x LB LA HpA Hx' FB IHA)].
Qed.

Lemma two_node_ring_diverges_witness :
  let A0 := Node.new_node "10.0.0.2" 5001 in
  let B0 := Node.new_node "10.0.0.1" 5000 in
  let A := Node.set_successor A0 (Node.self_descriptor B0) in
  let B := Node.set_successor B0 (Node.self_descriptor A0) in
  Network.handle_request 50 (Topology.ring2 A B) ("10.0.0.2", 5001)
    (bytes (Node.fs_request (JInt 0))) = None.
Proof.
  intros A0 B0 A B.
  apply (two_node_ring_diverges A B 0 50).
  - discriminate.
  - reflexivity.
  - reflexivity.
  - vm_compute. split; reflexivity.
  - split; [lia|]. vm_compute. discriminate.
  - simpl. lia.
  - simpl. lia.
Defined.
