(* ===== verification/Response.v ===== *)
(** * The shape of every answer: a typing invariant of runs

    The node's handlers index what they receive with [d["status"]],
    [d["successor"]], [d["ip"]] and read the stored values back into
    responses.  This file shows the typing discipline that makes this
    sound in every run:
    - [json.loads] only produces well-formed values (dicts with distinct
      keys, [loads_wf]), so every stored value and every successor
      descriptor is one ([Response.typed], an invariant of the network);
    - every answer a node sends is [json.dumps(r).encode()] of a
      well-formed dict [r] whose first entry is ["status"] with value
      ["success"] or ["error"] ([Response.status_response]);
    - hence [send_request] always returns such a dict: the answer
      itself when it fits in [recv(1024)], an error dict when the
      connection fails, and an error dict too when it does not fit, since
      a cut object never parses (Truncation.v). *)

From S2P Require Import Prelude Json Sha1 Identity Store Node Wire Truncation Network Join Topology.

Local Open Scope Z_scope.

(** ** The parser only builds well-formed values *)

Lemma dict_set_keys (k k' : string) (v : json) (d : list (string * json)) :
  k' ∈ map fst (dict_set k v d) -> k' = k \/ k' ∈ map fst d.
Proof.
  induction d as [|[k0 v0] d IH]; simpl; [set_solver|].
  destruct (String.eqb_spec k0 k) as [->|_]; simpl; [set_solver|].
  rewrite !elem_of_cons. intros [->|H]; [by right; left|]. destruct (IH H); [by left | by right; right].
Qed.

Lemma dict_set_nodup (k : string) (v : json) (d : list (string * json)) :
  NoDup (map fst d) -> NoDup (map fst (dict_set k v d)).
Proof.
  induction d as [|[k0 v0] d IH]; simpl; [repeat constructor; set_solver|].
  destruct (String.eqb_spec k0 k) as [->|Hne]; simpl; [done|].
  rewrite !NoDup_cons. intros [Hk Hd]. split; [|by apply IH].
  intros [E|E]%dict_set_keys; [congruence | done].
Qed.

Lemma dict_set_Forall (P : string * json -> Prop) (k : string) (v : json) d :
  Forall P d -> P (k, v) -> Forall P (dict_set k v d).
Proof.
  induction d as [|[k0 v0] d IH]; simpl; intros Hd Hkv; [by constructor|].
  apply Forall_cons in Hd as [H0 Hd].
  destruct (String.eqb_spec k0 k); constructor; auto.
Qed.

(** Python's dict built from the pairs of an object literal: distinct
    keys, values among the given ones. *)
Lemma dict_of_pairs_wf (ps : list (string * json)) :
  Forall (fun kv => wf_json kv.2) ps -> wf_json (JDict (dict_of_pairs ps)).
Proof.
  intros Hps. apply wf_json_dict. unfold dict_of_pairs.
  assert (forall d, NoDup (map fst d) -> Forall (fun kv => wf_json kv.2) d ->
            NoDup (map fst (fold_left (fun d kv => dict_set kv.1 kv.2 d) ps d)) /\
            Forall (fun kv => wf_json kv.2) (fold_left (fun d kv => dict_set kv.1 kv.2 d) ps d))
    as H.
  { induction Hps as [|[k v] ps Hkv _ IH]; intros d Hn Hf; simpl; [done|].
    apply IH; [by apply dict_set_nodup | by apply dict_set_Forall]. }
  apply H; constructor.
Qed.

Lemma Forall_rev_snoc {A} (P : A -> Prop) (x : A) (l : list A) :
  P x -> Forall P l -> Forall P (rev l ++ [x]).
Proof. intros Hx Hl. apply Forall_app. split; [by apply List.Forall_rev | by constructor]. Qed.

Lemma parser_wf (f : nat) :
  (forall s v r, parse_value f s = Some (v, r) -> wf_json v) /\
  (forall s v r, parse_array f s = Some (v, r) -> wf_json v) /\
  (forall s acc v r, Forall wf_json acc -> parse_elems f s acc = Some (v, r) -> wf_json v) /\
  (forall s v r, parse_object f s = Some (v, r) -> wf_json v) /\
  (forall s acc v r, Forall (fun kv => wf_json kv.2) acc ->
     parse_members f s acc = Some (v, r) -> wf_json v).
Proof.
  induction f as [|f IH]; [repeat split; discriminate|].
  destruct IH as (Hv & Ha & He & Ho & Hm). repeat split.
  - intros [|c s] v r; [done|]. cbn [parse_value].
    case_bool_decide; [apply Ho|]. case_bool_decide; [apply Ha|].
    case_bool_decide.
    { destruct (parse_string s) as [[t r']|]; [|discriminate]. by intros [= <- _]. }
    repeat case_match; try (intros [= <- _]; done).
    intros E. pose proof (parse_number_int _ _ _ E). by destruct v.
  - intros [|c s] v r; [done|]. cbn [parse_array].
    case_bool_decide; [by intros [= <- _]|]. apply He. constructor.
  - intros s acc v r Hacc. cbn [parse_elems].
    destruct (parse_value f s) as [[v1 r1]|] eqn:P; [|discriminate]. cbn [mbind option_bind].
    pose proof (Hv _ _ _ P) as W1.
    destruct (skip_ws r1) as [|c r2]; [discriminate|].
    case_bool_decide; [apply He; by constructor|].
    case_bool_decide; [|discriminate]. intros [= <- _].
    apply wf_json_list, Forall_rev_snoc; done.
  - intros [|c s] v r; [done|]. cbn [parse_object].
    case_bool_decide; [intros [= <- _]; apply wf_json_dict; split; constructor|].
    apply Hm. constructor.
  - intros [|c s] acc v r Hacc; [done|]. cbn [parse_members].
    case_bool_decide; [|done].
    destruct (parse_string s) as [[k r1]|]; [|discriminate]. cbn [mbind option_bind].
    destruct (skip_ws r1) as [|c1 r2]; [discriminate|].
    case_bool_decide; [|discriminate].
    destruct (parse_value f (skip_ws r2)) as [[v1 r3]|] eqn:P; [|discriminate].
    cbn [mbind option_bind]. pose proof (Hv _ _ _ P) as W1.
    destruct (skip_ws r3) as [|c3 r4]; [discriminate|].
    case_bool_decide; [apply Hm; by constructor|].
    case_bool_decide; [|discriminate]. intros [= <- _].
    apply dict_of_pairs_wf, Forall_rev_snoc; done.
Qed.

(** What [json.loads] returns is well-formed. *)
Lemma loads_wf (s : string) (v : json) : loads s = Some v -> wf_json v.
Proof.
  unfold loads. destruct (parse_value _ (skip_ws s)) as [[v1 r]|] eqn:P; [|discriminate].
  cbn [mbind option_bind]. destruct (skip_ws r); [|discriminate]. intros [= <-].
  exact (proj1 (parser_wf _) _ _ _ P).
Qed.

Lemma dict_lookup_In (k : string) (kvs : list (string * json)) (v : json) :
  dict_lookup k kvs = Some v -> (k, v) ∈ kvs.
Proof.
  induction kvs as [|[k0 v0] kvs IH]; simpl; [done|].
  rewrite elem_of_cons.
  destruct (String.eqb_spec k0 k) as [->|_]; simpl; [intros [= ->]; by left|]. intros H. right. by apply IH.
Qed.

Lemma dict_lookup_wf (k : string) (kvs : list (string * json)) (v : json) :
  wf_json (JDict kvs) -> dict_lookup k kvs = Some v -> wf_json v.
Proof.
  intros [_ Hf]%wf_json_dict Hl. apply dict_lookup_In in Hl.
  by apply (proj1 (Forall_forall _ _) Hf (k, v)).
Qed.

(** [d.get(k)] and [d[k]] of a well-formed value are well-formed. *)
Lemma py_get_wf (d : json) (k : string) (v : json) :
  wf_json d -> py_get d k = Ok v -> wf_json v.
Proof.
  intros Hd. destruct d as [| | | | |kvs]; try discriminate. simpl.
  destruct (dict_lookup k kvs) as [x|] eqn:L; intros [= <-]; [|done].
  exact (dict_lookup_wf k kvs x Hd L).
Qed.

Lemma py_getitem_wf (d : json) (k : string) (v : json) :
  wf_json d -> py_getitem d k = Ok v -> wf_json v.
Proof.
  intros Hd. destruct d as [| | | | |kvs]; try discriminate. simpl.
  destruct (dict_lookup k kvs) as [x|] eqn:L; [intros [= <-] | discriminate].
  exact (dict_lookup_wf k kvs x Hd L).
Qed.

(** ** Typed networks and answers *)

Module Response.

(** A response of the node: a well-formed dict whose first entry is
    ["status"], with value ["success"] or ["error"]. *)
Definition status_response (r : json) : Prop :=
  wf_json r /\
  exists st rest, r = JDict (("status", JStr st) :: rest) /\ (st = "success" \/ st = "error").

(** What the handlers rely on in a node: well-formed stored values and a
    well-formed successor descriptor. *)
Definition node_typed (n : Node.node) : Prop :=
  map_Forall (fun _ v => wf_json v) (Node.data_store n) /\
  (forall s, Node.successor n = Some s -> wf_json s).

Definition typed (net : Network.network) : Prop := map_Forall (fun _ n => node_typed n) net.

(** An answer on the wire: none (connection closed), or the encoding of a
    response. *)
Definition answer_ok (reply : option (list Z)) : Prop :=
  match reply with
  | None => True
  | Some bs => exists r, bs = utf8_encode (dumps r) /\ status_response r
  end.

End Response.

Create HintDb typing discriminated.

(** Every response dict of the node has two entries, ["status"] first. *)
Lemma status_pair (st k : string) (v : json) :
  k <> "status" -> wf_json v -> st = "success" \/ st = "error" ->
  Response.status_response (JDict [("status", JStr st); (k, v)]).
Proof.
  intros Hk Hv Hst. split; [|by exists st, [(k, v)]].
  apply wf_json_dict. split; [|by repeat constructor].
  simpl. rewrite NoDup_cons, not_elem_of_cons. repeat split; [congruence | set_solver | apply NoDup_singleton].
Qed.

Lemma success_message_typed (m : string) : Response.status_response (success_message m).
Proof. apply status_pair; [discriminate | done | by left]. Qed.

Lemma error_message_typed (m : string) : Response.status_response (error_message m).
Proof. apply status_pair; [discriminate | done | by right]. Qed.

Lemma fs_success_typed (s : json) : wf_json s -> Response.status_response (Node.fs_success s).
Proof. intros Hs. apply status_pair; [discriminate | done | by left]. Qed.

Lemma descriptor_wf (nid : Z) (ip : string) (port : Z) : wf_json (Node.descriptor nid ip port).
Proof. apply wf_jsonb_sound. reflexivity. Qed.

Lemma status_response_wf (r : json) : Response.status_response r -> wf_json r.
Proof. by intros [? _]. Qed.

#[export] Hint Resolve success_message_typed error_message_typed fs_success_typed
  descriptor_wf status_response_wf : typing.

Lemma node_typed_set_data_store (n : Node.node) (ds : gmap Z json) :
  Response.node_typed n -> map_Forall (fun _ v => wf_json v) ds ->
  Response.node_typed (Node.set_data_store n ds).
Proof. intros [_ Hs] Hds. by split. Qed.

Lemma node_typed_set_predecessor (n : Node.node) (p : json) :
  Response.node_typed n -> Response.node_typed (Node.set_predecessor n p).
Proof. intros [Hd Hs]. by split. Qed.

Lemma node_typed_set_successor (n : Node.node) (s : json) :
  Response.node_typed n -> wf_json s -> Response.node_typed (Node.set_successor n s).
Proof. intros [Hd _] Hs. split; [done|]. by intros s' [= <-]. Qed.

Lemma new_node_typed (ip : string) (port : Z) : Response.node_typed (Node.new_node ip port).
Proof. split; [apply map_Forall_empty | discriminate]. Qed.

Lemma bootstrap_node_typed (ip : string) (port : Z) :
  Response.node_typed (Node.bootstrap_node ip port).
Proof. apply node_typed_set_successor; [apply new_node_typed | apply descriptor_wf]. Qed.

Lemma typed_insert (net : Network.network) (a : Network.addr) (n : Node.node) :
  Response.typed net -> Response.node_typed n -> Response.typed (<[a := n]> net).
Proof. intros. by apply map_Forall_insert_2. Qed.

Lemma typed_lookup (net : Network.network) (a : Network.addr) (n : Node.node) :
  Response.typed net -> net !! a = Some n -> Response.node_typed n.
Proof. intros Ht Ha. exact (map_Forall_lookup_1 _ _ _ _ Ht Ha). Qed.

#[export] Hint Resolve node_typed_set_data_store node_typed_set_predecessor
  node_typed_set_successor new_node_typed bootstrap_node_typed typed_insert : typing.

(** ** Each handler keeps the node typed and answers a response *)

Lemma insert_typed (ds : gmap Z json) (key value : json) ds' resp :
  map_Forall (fun _ v => wf_json v) ds -> wf_json value ->
  Store.insert ds key value = Ok (ds', resp) ->
  map_Forall (fun _ v => wf_json v) ds' /\ Response.status_response resp.
Proof.
  intros Hds Hv. unfold Store.insert. destruct (Store.encode_key key); [|discriminate].
  intros [= <- <-]. split; [by apply map_Forall_insert_2 | auto with typing].
Qed.

Lemma query_typed (ds : gmap Z json) (key : json) resp :
  map_Forall (fun _ v => wf_json v) ds -> Store.query ds key = Ok resp ->
  Response.status_response resp.
Proof.
  intros Hds. unfold Store.query. destruct (Store.encode_key key); [|discriminate]. simpl.
  destruct (ds !! _) as [v|] eqn:L; intros [= <-]; [|auto with typing].
  apply status_pair; [discriminate | exact (map_Forall_lookup_1 _ _ _ _ Hds L) | by left].
Qed.

Lemma delete_typed (ds : gmap Z json) (key : json) ds' resp :
  map_Forall (fun _ v => wf_json v) ds -> Store.delete ds key = Ok (ds', resp) ->
  map_Forall (fun _ v => wf_json v) ds' /\ Response.status_response resp.
Proof.
  intros Hds. unfold Store.delete. destruct (Store.encode_key key); [|discriminate]. simpl.
  destruct (ds !! _); intros [= <- <-]; (split; [|auto with typing]); [by apply map_Forall_delete | done].
Qed.

(** A reply of [find_successor] is [fs_success] of the node's successor. *)
Lemma find_successor_typed (n : Node.node) (target resp : json) :
  Response.node_typed n -> Node.find_successor n target = Ok (Node.FSReply resp) ->
  Response.status_response resp.
Proof.
  intros [_ Hs]. unfold Node.find_successor, Node.get_successor.
  destruct (Node.successor n) as [s|] eqn:E; [|discriminate]. simpl.
  pose proof (Hs s eq_refl) as Hw.
  destruct (py_getitem s "node_id"); [|discriminate]. simpl.
  destruct (py_eq_int _ _); [intros [= <-]; auto with typing|].
  intros H. res_inv. repeat case_match; res_inv; simplify_eq; auto with typing.
Qed.

(** The answer that reaches the caller of [send_request]: the callee's
    response when its encoding fits in [recv(1024)]; a longer one is an
    object cut short, which never parses (Truncation.v). *)
Lemma reply_response (reply : option (list Z)) (response : string) (v : json) :
  Response.answer_ok reply ->
  utf8_decode (recv (default [] reply)) = Some response -> loads response = Some v ->
  Response.status_response v.
Proof.
  destruct reply as [bs|]; cbn [Response.answer_ok from_option id default].
  - intros (r & -> & Hr) Hd Hl.
    destruct (decide (length (utf8_encode (dumps r)) <= 1024)%nat) as [Hle|Hgt].
    + rewrite recv_short, utf8_roundtrip in Hd by done. injection Hd as <-.
      rewrite loads_dumps in Hl by (apply Hr). by injection Hl as <-.
    + destruct Hr as [Hw (st & rest & -> & _)].
      pose proof (cut_message_rejected _ Hw ltac:(lia)) as Hc.
      rewrite Hd in Hc. cbn [mbind option_bind] in Hc. congruence.
  - intros _ Hd Hl. vm_compute in Hd. injection Hd as <-. vm_compute in Hl. discriminate Hl.
Qed.

(** The contract of a handler [serve]: it keeps the network typed and its
    answer is a response. *)
Definition serve_typed
    (serve : Network.network -> Network.addr -> list Z ->
             option (Network.network * option (list Z))) : Prop :=
  forall net a bs net' reply, Response.typed net -> serve net a bs = Some (net', reply) ->
    Response.typed net' /\ Response.answer_ok reply.

Lemma send_request_with_typed serve net ipv portv req net' v :
  serve_typed serve -> Response.typed net ->
  Network.send_request_with serve net ipv portv req = Some (net', v) ->
  Response.typed net' /\ Response.status_response v.
Proof.
  intros Hs Ht. unfold Network.send_request_with.
  destruct (Network.connect_target ipv portv) as [a|e];
    [|intros [= <- <-]; split; auto with typing].
  destruct (net !! a); [|intros [= <- <-]; split; auto with typing].
  destruct (serve net a _) as [[net1 reply]|] eqn:E; [|discriminate]. simpl.
  destruct (Hs _ _ _ _ _ Ht E) as [Ht1 Hr].
  destruct (utf8_decode _) as [response|] eqn:D; [|intros [= <- <-]; split; auto with typing].
  destruct (loads response) as [w|] eqn:L; intros [= <- <-]; split; auto with typing.
  exact (reply_response _ _ _ Hr D L).
Qed.

Lemma request_fields_wf (req command key value node_id : json) :
  wf_json req -> Network.request_fields req = Ok (command, key, value, node_id) -> wf_json value.
Proof.
  intros Hw. unfold Network.request_fields. intros H. res_inv. simplify_eq.
  by eapply py_get_wf.
Qed.

(** A store operation written back by [store_update]. *)
Lemma store_update_typed net a n (r : res (gmap Z json * json)) net' r' :
  Response.typed net -> Response.node_typed n ->
  (forall ds' resp, r = Ok (ds', resp) ->
     map_Forall (fun _ v => wf_json v) ds' /\ Response.status_response resp) ->
  Network.store_update net a n r = (net', r') ->
  Response.typed net' /\ (forall resp, r' = Ok resp -> Response.status_response resp).
Proof.
  intros Ht Hn Hr. destruct r as [[ds' resp]|e]; simpl; intros [= <- <-].
  - destruct (Hr ds' resp eq_refl). split; [auto with typing | by intros ? [= <-]].
  - split; [done | discriminate].
Qed.

Lemma process_request_typed send net a n req net' r :
  (forall net ip port q net' v, Response.typed net -> send net ip port q = Some (net', v) ->
     Response.typed net' /\ Response.status_response v) ->
  Response.typed net -> net !! a = Some n -> wf_json req ->
  Network.process_request send net a n req = Some (net', r) ->
  Response.typed net' /\ (forall resp, r = Ok resp -> Response.status_response resp).
Proof.
  intros Hs Ht Ha Hreq. pose proof (typed_lookup _ _ _ Ht Ha) as Hn.
  unfold Network.process_request.
  destruct (Network.request_fields req) as [[[[command key] value] node_id]|e] eqn:F;
    [|intros [= <- <-]; split; [done|discriminate]].
  pose proof (request_fields_wf _ _ _ _ _ Hreq F) as Hv.
  destruct (py_eq_str command "insert").
  { intros [= E]. eapply store_update_typed; [done | done | | exact E].
    intros ds' resp I. exact (insert_typed _ _ _ _ _ (proj1 Hn) Hv I). }
  destruct (py_eq_str command "query").
  { intros [= <- <-]. split; [done|]. intros resp Q. exact (query_typed _ _ _ (proj1 Hn) Q). }
  destruct (py_eq_str command "delete").
  { intros [= E]. eapply store_update_typed; [done | done | | exact E].
    intros ds' resp D. exact (delete_typed _ _ _ _ (proj1 Hn) D). }
  destruct (py_eq_str command "find_successor").
  { destruct (Node.find_successor n node_id) as [[resp|ip port q]|e] eqn:FS.
    - intros [= <- <-]. split; [done|]. intros ? [= <-]. exact (find_successor_typed _ _ _ Hn FS).
    - destruct (send net ip port q) as [[net1 v]|] eqn:S; [|discriminate]. simpl.
      intros [= <- <-]. destruct (Hs _ _ _ _ _ _ Ht S). split; [done|]. by intros ? [= <-].
    - intros [= <- <-]. split; [done|discriminate]. }
  destruct (py_eq_str command "update_predecessor").
  { destruct (py_getitem req "ip" ≫= _) as [[ip port]|e]; [|intros [= <- <-]; split; [done|discriminate]].
    unfold Node.update_predecessor. intros [= <- <-].
    split; [auto with typing | intros ? [= <-]; auto with typing]. }
  intros [= <- <-]. split; [done|]. intros ? [= <-]. auto with typing.
Qed.

(** Every handler, however deep its forwarding chain, keeps the network
    typed and answers a response. *)
Lemma handle_request_typed (fuel : nat) : serve_typed (Network.handle_request fuel).
Proof.
  induction fuel as [|fuel IH]; intros net a bs net' reply Ht; [discriminate|].
  cbn [Network.handle_request].
  destruct (net !! a) as [n|] eqn:Ha; [|by intros [= <- <-]].
  destruct (utf8_decode (recv bs)) as [[|c data]|]; try by intros [= <- <-].
  destruct (loads _) as [req|] eqn:L; [|by intros [= <- <-]].
  destruct (Network.process_request _ net a n req) as [[net1 r1]|] eqn:E; [|discriminate]. simpl.
  destruct (process_request_typed _ _ _ _ _ _ _
              (fun net ip port q net' v Ht' Hs => send_request_with_typed _ _ _ _ _ _ _ IH Ht' Hs)
              Ht Ha (loads_wf _ _ L) E) as [Ht1 Hr].
  destruct r1 as [resp|e]; intros [= <- <-]; split; try done.
  exists resp. split; [done | by apply Hr].
Qed.

Lemma send_request_typed fuel net ipv portv req net' v :
  Response.typed net -> Network.send_request fuel net ipv portv req = Some (net', v) ->
  Response.typed net' /\ Response.status_response v.
Proof. apply send_request_with_typed, handle_request_typed. Qed.

(** ** Start-up and whole runs *)

Lemma join_typed fuel net n bip bport net' n' :
  Response.typed net -> Response.node_typed n ->
  Join.join fuel net n bip bport = Some (net', n') ->
  Response.typed net' /\ Response.node_typed n'.
Proof.
  intros Ht Hn. unfold Join.join.
  destruct (Network.send_request fuel net _ _ _) as [[net1 resp]|] eqn:S1; [|discriminate]. simpl.
  destruct (send_request_typed _ _ _ _ _ _ _ Ht S1) as [Ht1 [Hw _]].
  destruct (py_getitem resp "status"); [|by intros [= <- <-]].
  destruct (py_eq_str _ _); [|by intros [= <- <-]].
  destruct (py_getitem resp "successor") as [succ|] eqn:G; [|by intros [= <- <-]].
  assert (Response.node_typed (Node.set_successor n succ)) as Hn1
    by (apply node_typed_set_successor; [done | exact (py_getitem_wf _ _ _ Hw G)]).
  destruct (py_getitem succ "ip" ≫= _) as [[sip sport]|e]; [|by intros [= <- <-]].
  destruct (Network.send_request fuel net1 _ _ _) as [[net2 r2]|] eqn:S2; [|discriminate]. simpl.
  intros [= <- <-]. split; [|done]. exact (proj1 (send_request_typed _ _ _ _ _ _ _ Ht1 S2)).
Qed.

Lemma start_server_typed (net : Network.network) (n : Node.node) :
  Response.typed net -> Response.node_typed n -> Response.typed (Join.start_server net n).
Proof. intros Ht Hn. unfold Join.start_server. case_match; auto with typing. Qed.

Lemma chord_node_typed fuel net ip port bootstrap net' :
  Response.typed net -> Join.chord_node fuel net ip port bootstrap = Some net' ->
  Response.typed net'.
Proof.
  intros Ht. unfold Join.chord_node.
  destruct bootstrap as [[bip bport]|]; [case_match|];
    try (intros [= <-]; apply start_server_typed; auto with typing).
  destruct (Join.join _ _ _ _ _) as [[net1 n1]|] eqn:J; [|discriminate]. simpl.
  destruct (join_typed _ _ _ _ _ _ _ Ht (new_node_typed ip port) J).
  intros [= <-]. by apply start_server_typed.
Qed.

Lemma main_typed fuel net argv net' :
  Response.typed net -> Join.main fuel net argv = Some (Join.Running net') ->
  Response.typed net'.
Proof.
  intros Ht (port & boot & Hc)%main_chord_node. exact (chord_node_typed _ _ _ _ _ _ Ht Hc).
Qed.

Lemma step_typed (adm : string -> Prop) (net net' : Network.network) :
  Response.typed net -> Topology.step adm net net' -> Response.typed net'.
Proof.
  intros Ht Hs. revert Ht. destruct Hs as [fuel n argv n' _ Hm | fuel n a bs n' reply Hh]; intros Ht.
  - exact (main_typed _ _ _ _ Ht Hm).
  - exact (proj1 (handle_request_typed _ _ _ _ _ _ Ht Hh)).
Qed.

Lemma reachable_typed (adm : string -> Prop) (net : Network.network) :
  Topology.reachable adm net -> Response.typed net.
Proof. apply reachable_ind; [apply map_Forall_empty | apply step_typed]. Qed.

(** ** The theorems *)

(** C9 (type): in every network a run reaches, whatever IP strings the
    processes were started with, every stored value and every successor
    descriptor is well-formed JSON, and every answer a node sends on a
    connection, forwarding included, is [json.dumps(r).encode()] of a
    dict [r] with distinct keys whose first entry is ["status"] with value
    ["success"] or ["error"]. *)
Theorem reachable_answers_status adm net fuel a bs net' reply :
  Topology.reachable adm net -> Network.handle_request fuel net a bs = Some (net', reply) ->
  Response.typed net' /\
  forall bs', reply = Some bs' ->
    exists r, bs' = utf8_encode (dumps r) /\ Response.status_response r.
Proof.
  intros Hr Hh. destruct (handle_request_typed _ _ _ _ _ _ (reachable_typed _ _ Hr) Hh) as [Ht Ha].
  split; [done|]. by intros bs' ->.
Qed.

Lemma reachable_answers_status_witness :
  let net : Network.network := <[("10.0.0.1", 5000) := Node.bootstrap_node "10.0.0.1" 5000]> ∅ in
  let req := utf8_encode (dumps (JDict [("command", JStr "insert"); ("key", JStr "k");
                                        ("value", JInt 1)])) in
  exists net' reply,
    Topology.reachable (fun _ => True) net /\
    Network.handle_request 3 net ("10.0.0.1", 5000) req = Some (net', reply) /\
    Response.typed net' /\
    forall bs', reply = Some bs' ->
      exists r, bs' = utf8_encode (dumps r) /\ Response.status_response r.
Proof.
  intros net req.
  assert (Topology.reachable (fun _ => True) net) as Hr.
  { unfold Topology.reachable. eapply rtc_l; [|apply rtc_refl].
    apply (Topology.step_start _ 1 ∅ ["node.py"; "10.0.0.1"; "5000"] net);
      [done | vm_compute; reflexivity]. }
  assert (Network.handle_request 3 net ("10.0.0.1", 5000) req =
    Some (<[("10.0.0.1", 5000) := Node.set_data_store (Node.bootstrap_node "10.0.0.1" 5000)
             {[hash_key "k" := JInt 1]}]> net,
          Some (utf8_encode (dumps (success_message "Inserted k -> 1"))))) as H
    by (vm_compute; reflexivity).
  clearbody net req. do 2 eexists.
  split; [exact Hr|]. split; [exact H|]. exact (reachable_answers_status _ _ _ _ _ _ _ Hr H).
Defined.

(** C10 (type): in a reachable network, [send_request] always returns a
    dict whose ["status"] is ["success"] or ["error"]: the callee's
    response, or the error dict of a refused connection, an undecodable
    or a cut answer.  So [response["status"]] in [join] never raises. *)
Theorem reachable_send_request_status adm net fuel ipv portv req net' v :
  Topology.reachable adm net -> Network.send_request fuel net ipv portv req = Some (net', v) ->
  Response.status_response v /\
  exists st, py_getitem v "status" = Ok (JStr st) /\ (st = "success" \/ st = "error").
Proof.
  intros Hr Hs. destruct (send_request_typed _ _ _ _ _ _ _ (reachable_typed _ _ Hr) Hs)
    as [_ Hv]. split; [done|].
  destruct Hv as [_ (st & rest & -> & Hst)]. by exists st.
Qed.

Lemma reachable_send_request_status_witness :
  let net : Network.network := <[("10.0.0.1", 5000) := Node.bootstrap_node "10.0.0.1" 5000]> ∅ in
  Topology.reachable (fun _ => True) net /\
  Network.send_request 3 net (JStr "10.0.0.1") (JInt 5000) (Node.fs_request (JInt 7)) =
    Some (net, Node.fs_success (Node.self_descriptor (Node.bootstrap_node "10.0.0.1" 5000))) /\
  exists st, py_getitem (Node.fs_success (Node.self_descriptor (Node.bootstrap_node "10.0.0.1" 5000)))
               "status" = Ok (JStr st) /\ (st = "success" \/ st = "error").
Proof.
  intros net.
  assert (Topology.reachable (fun _ => True) net) as Hr.
  { unfold Topology.reachable. eapply rtc_l; [|apply rtc_refl].
    apply (Topology.step_start _ 1 ∅ ["node.py"; "10.0.0.1"; "5000"] net);
      [done | vm_compute; reflexivity]. }
  assert (Network.send_request 3 net (JStr "10.0.0.1") (JInt 5000) (Node.fs_request (JInt 7)) =
    Some (net, Node.fs_success (Node.self_descriptor (Node.bootstrap_node "10.0.0.1" 5000))))
    as H by (vm_compute; reflexivity).
  clearbody net. split; [exact Hr|]. split; [exact H|].
  exact (proj2 (reachable_send_request_status _ _ _ _ _ _ _ _ Hr H)).
Defined.
