(* ===== verification/System.v ===== *)
(** * Every run of the system

    One step relation for everything that happens in a run
    ([System.sstep]):
    - a process starts ([Join.main]), as in Topology.v;
    - a connection is handled atomically by [handle_request], forwarding
      included: the routing handlers read only [successor], which no
      handler writes, and write only [predecessor], which no handler
      reads; a store request may be served this way too, or by a
      thread, as below;
    - a connection carrying a store request starts a handler thread at the
      node that accepted it ([System.ss_spawn]): the request is read and
      decoded as [handle_request] does (lines 164-166) and dispatched as
      [process_request] does (lines 178-186);
    - one handler thread takes one atomic dict action ([Server.sys_step]).

    Threads survive across the other steps, so a store handler may be
    half-way while nodes start and route.  The theorems: in every state a
    run reaches, the network is a star, every stored value and successor
    is well-formed, and every answer a thread has sent is a status
    dict. *)

From S2P Require Import Prelude Json Sha1 Identity Store Concurrency Node Wire Truncation Network Ring Server Join Topology Response.

Local Open Scope Z_scope.

Module System.

Definition state : Type := Network.network * list Server.thread.

(** [data = conn.recv(1024).decode()], and [request = json.loads(data)]
    when [data] is not empty. *)
Definition read_request (bs : list Z) : option json :=
  match utf8_decode (recv bs) with
  | Some (String c t) => loads (String c t)
  | _ => None
  end.

(** The store handler [process_request] dispatches a request to. *)
Definition store_op_of (request : json) : option Store.op :=
  match Network.request_fields request with
  | Ok (command, key, value, _) =>
      if py_eq_str command "insert" then Some (Store.OpInsert key value)
      else if py_eq_str command "query" then Some (Store.OpQuery key)
      else if py_eq_str command "delete" then Some (Store.OpDelete key)
      else None
  | Raise _ => None
  end.

Inductive sstep (admissible : string -> Prop) : state -> state -> Prop :=
| ss_start fuel net ts argv net' :
    admissible (Topology.argv_ip argv) -> Join.main fuel net argv = Some (Join.Running net') ->
    sstep admissible (net, ts) (net', ts)
| ss_request fuel net ts a bs net' reply :
    Network.handle_request fuel net a bs = Some (net', reply) ->
    sstep admissible (net, ts) (net', ts)
| ss_spawn net ts a n bs req o :
    net !! a = Some n -> read_request bs = Some req -> store_op_of req = Some o ->
    sstep admissible (net, ts) (net, ts ++ [Server.spawn (a, o)])
| ss_thread s i : sstep admissible s (Server.sys_step s i).

Definition reachable (admissible : string -> Prop) (s : state) : Prop :=
  rtc (sstep admissible) (∅, []) s.

End System.

(** ** The star shape *)

Lemma sstep_star adm s s' : Ring.star s.1 -> System.sstep adm s s' -> Ring.star s'.1.
Proof.
  intros Hstar Hs. revert Hstar.
  destruct Hs as [fuel net ts argv net' _ Hm | fuel net ts a bs net' reply Hh | net ts a n bs req o | s i];
    simpl; intros Hstar.
  - exact (main_star _ _ _ _ Hstar Hm).
  - exact (star_skel _ _ (handle_request_skel _ _ _ _ _ _ Hh) Hstar).
  - done.
  - exact (star_skel _ _ (sys_step_skel s i) Hstar).
Qed.

(** ** Typed threads *)

(** What a thread carries: the value an [insert] will store, or the
    answer it has sent. *)
Definition pc_typed (p : Conc.pc) : Prop :=
  match p with
  | Conc.InsertStart _ _ v => wf_json v
  | Conc.Done (Some r) => Response.status_response r
  | _ => True
  end.

Definition sys_typed (s : System.state) : Prop :=
  Response.typed s.1 /\ Forall (fun t : Server.thread => pc_typed t.2) s.2.

Lemma tstep_typed ds p ds' p' :
  map_Forall (fun _ v => wf_json v) ds -> pc_typed p -> Conc.tstep ds p = Some (ds', p') ->
  map_Forall (fun _ v => wf_json v) ds' /\ pc_typed p'.
Proof.
  intros Hds Hp. destruct p as [h k v|h k|h k|h k|h k|r]; cbn [Conc.tstep]; try discriminate.
  - intros [= <- <-]. split; [by apply map_Forall_insert_2 | apply success_message_typed].
  - intros [= <- <-]. split; [done|]. case_bool_decide; [done | apply error_message_typed].
  - destruct (ds !! h) as [v|] eqn:L; intros [= <- <-]; split; try done.
    apply status_pair; [discriminate | exact (map_Forall_lookup_1 _ _ _ _ Hds L) | by left].
  - intros [= <- <-]. split; [done|]. case_bool_decide; [done | apply error_message_typed].
  - destruct (ds !! h); intros [= <- <-]; split; try done;
      [by apply map_Forall_delete | apply success_message_typed].
Qed.

Lemma sys_step_typed s i : sys_typed s -> sys_typed (Server.sys_step s i).
Proof.
  intros [Ht Hts]. unfold Server.sys_step.
  destruct (s.2 !! i) as [[a p]|] eqn:Hp; [|done].
  destruct (s.1 !! a) as [n|] eqn:Hn; [|done].
  destruct (Conc.tstep _ p) as [[ds' p']|] eqn:Hst; [|done].
  pose proof (typed_lookup _ _ _ Ht Hn) as Hnt.
  pose proof (proj1 (Forall_lookup _ _) Hts i _ Hp) as Hpt.
  destruct (tstep_typed _ _ _ _ (proj1 Hnt) Hpt Hst) as [Hds Hp'].
  split; [simpl; auto with typing | by apply Forall_insert].
Qed.

(** The operation a decoded request dispatches to carries a well-formed
    value. *)
Lemma store_op_of_spawn_typed req o :
  wf_json req -> System.store_op_of req = Some o -> pc_typed (Conc.spawn o).
Proof.
  intros Hw. unfold System.store_op_of.
  destruct (Network.request_fields req) as [[[[command key] value] nid]|e] eqn:F; [|discriminate].
  pose proof (request_fields_wf _ _ _ _ _ Hw F) as Hv.
  repeat case_match; intros [= <-]; cbn [Conc.spawn];
    destruct (Store.encode_key key); done.
Qed.

Lemma read_request_wf bs req : System.read_request bs = Some req -> wf_json req.
Proof.
  unfold System.read_request. destruct (utf8_decode (recv bs)) as [[|c t]|]; try discriminate.
  apply loads_wf.
Qed.

Lemma sstep_typed adm s s' : sys_typed s -> System.sstep adm s s' -> sys_typed s'.
Proof.
  intros Hs Hst. revert Hs.
  destruct Hst as [fuel net ts argv net' _ Hm | fuel net ts a bs net' reply Hh
                  | net ts a n bs req o Ha Hr Ho | s i];
    intros [Ht Hts]; simpl in *.
  - split; [exact (main_typed _ _ _ _ Ht Hm) | done].
  - split; [exact (proj1 (handle_request_typed _ _ _ _ _ _ Ht Hh)) | done].
  - split; [done|]. apply Forall_app. split; [done|]. constructor; [|done].
    exact (store_op_of_spawn_typed _ _ (read_request_wf _ _ Hr) Ho).
  - by apply sys_step_typed.
Qed.

(** ** The theorem *)

(** C11 (invariant): in every state a run of the whole system reaches,
    with processes started on any IP strings, connections handled and
    store handler threads interleaved in any order, and threads left
    half-way while other steps happen: the network is a star, every
    stored value and every successor is well-formed, and every answer a
    handler thread has sent is a dict whose first entry is ["status"]
    with value ["success"] or ["error"]. *)
Theorem reachable_system_safe adm s :
  System.reachable adm s ->
  Ring.star s.1 /\ Response.typed s.1 /\
  forall a r, (a, Conc.Done (Some r)) ∈ s.2 -> Response.status_response r.
Proof.
  intros Hr.
  assert (Ring.star s.1 /\ sys_typed s) as [Hstar [Ht Hts]].
  { refine (rtc_invariant _ (fun s => Ring.star s.1 /\ sys_typed s) _ _ _ _ Hr).
    - split; [apply star_empty | split; [apply map_Forall_empty | constructor]].
    - intros x y [Hx Htx] Hxy. split; [exact (sstep_star _ _ _ Hx Hxy) | exact (sstep_typed _ _ _ Htx Hxy)]. }
  split; [done|]. split; [done|]. intros a r Hin.
  exact (proj1 (Forall_forall _ _) Hts _ Hin).
Qed.

(** A bootstrap node starts, an [insert] connection starts a thread, and
    the thread stores its value and answers. *)
Lemma reachable_system_safe_witness :
  let a : Network.addr := ("10.0.0.1", 5000) in
  let net : Network.network := <[a := Node.bootstrap_node "10.0.0.1" 5000]> ∅ in
  let o := Store.OpInsert (JStr "k") (JInt 1) in
  let s := Server.sys_step (net, [] ++ [Server.spawn (a, o)]) 0 in
  System.reachable (fun _ => True) s /\
  Ring.star s.1 /\ Response.typed s.1 /\
  forall a r, (a, Conc.Done (Some r)) ∈ s.2 -> Response.status_response r.
Proof.
  intros a net o s.
  assert (System.reachable (fun _ => True) s) as Hr.
  { unfold System.reachable. eapply rtc_l.
    { apply (System.ss_start _ 1 ∅ [] ["node.py"; "10.0.0.1"; "5000"] net);
        [done | vm_compute; reflexivity]. }
    eapply rtc_l.
    { apply (System.ss_spawn _ net [] a (Node.bootstrap_node "10.0.0.1" 5000)
               (utf8_encode (dumps (Server.store_request o))) (Server.store_request o) o);
        [apply lookup_insert_eq | vm_compute; reflexivity | vm_compute; reflexivity]. }
    eapply rtc_l; [apply System.ss_thread | apply rtc_refl]. }
  clearbody s. split; [exact Hr | exact (reachable_system_safe _ s Hr)].
Defined.
