(* ===== verification/Lifecycle.v ===== *)
(** * Process exit: the SIGINT handler

    Once the server thread is started, [ChordNode.__init__] installs
    [signal_handler] for SIGINT (src/node.py:34), and the handler ends
    the process with [os._exit(0)] (src/node.py:41-43): no cleanup, no
    message to the predecessor or the successor, every thread of the
    process killed and the listening socket closed.  [Lifecycle.exit]
    models it on the state of the whole system: the node's entry leaves
    the network (its address is free again, its store is lost) and the
    handler threads running at that address vanish.  [Lifecycle.lstep]
    adds this step to the steps of a run ([System.sstep]).

    The theorems: what every run keeps with exits (each listening node
    is bound to its own address with the id [generate_id(ip, port)],
    stored values and successors are well-formed, every handler thread
    belongs to a listening node, every answer sent is a status dict); no
    step ever changes the successor of a node that keeps listening, so a
    successor pointer to a process that has exited is never repaired; and
    what such a node answers to [find_successor]: a [success] naming the
    dead node when the id falls between the two, [Connection refused]
    otherwise. *)

From S2P Require Import Prelude Json Sha1 Identity Store Concurrency Node Wire Truncation Network Ring Server Join Topology Response System.

Local Open Scope Z_scope.

Module Lifecycle.

(** [os._exit(0)] in the process listening at [a]. *)
Definition exit (a : Network.addr) (s : System.state) : System.state :=
  (delete a s.1, filter (fun t : Server.thread => t.1 <> a) s.2).

(** A run: the steps of [System.sstep], and SIGINT delivered to a
    process that is listening (the handler is installed after the server
    thread is started). *)
Inductive lstep (admissible : string -> Prop) : System.state -> System.state -> Prop :=
| ls_sys s s' : System.sstep admissible s s' -> lstep admissible s s'
| ls_exit s a n : s.1 !! a = Some n -> lstep admissible s (exit a s).

Definition reachable (admissible : string -> Prop) (s : System.state) : Prop :=
  rtc (lstep admissible) (∅, []) s.

End Lifecycle.

(** ** What starting a process does to the listening nodes *)

(** Every node listening before a step listens after it, with the same
    address, id and successor. *)
Definition keeps_nodes (net net' : Network.network) : Prop :=
  forall a n, net !! a = Some n -> exists n', net' !! a = Some n' /\ Network.skel n' = Network.skel n.

Lemma same_skel_keeps net net' : Network.same_skel net net' -> keeps_nodes net net'.
Proof. intros Hs a n Ha. exact (same_skel_lookup _ _ _ _ Hs Ha). Qed.

(** [join] changes no skeleton, whatever the network, and leaves the
    joining node's address and id alone. *)
Lemma join_skel fuel net n bip bport net' n' :
  Join.join fuel net n bip bport = Some (net', n') ->
  Network.same_skel net net' /\
  Node.ip n' = Node.ip n /\ Node.port n' = Node.port n /\ Node.node_id n' = Node.node_id n.
Proof.
  unfold Join.join.
  destruct (Network.send_request _ _ _ _ _) as [[net1 r]|] eqn:E1; [|discriminate].
  pose proof (send_request_with_skel _ _ _ _ _ _ _ (handle_request_skel fuel) E1) as H1.
  cbn [mbind option_bind].
  repeat case_match; try (intros [= <- <-]; done).
  match goal with |- context [Network.send_request fuel net1 ?x ?y ?q] =>
    destruct (Network.send_request fuel net1 x y q) as [[net2 r2]|] eqn:E2 end; [|discriminate].
  intros [= <- <-]. split; [|done].
  by rewrite H1, (send_request_with_skel _ _ _ _ _ _ _ (handle_request_skel fuel) E2).
Qed.

Lemma start_server_lookup net m b n' :
  Join.start_server net m !! b = Some n' ->
  net !! b = Some n' \/
  (net !! b = None /\ b = (Node.ip m, Node.port m) /\ n' = m /\ 0 <= Node.port m <= 65535).
Proof.
  unfold Join.start_server.
  destruct (Z.leb_spec 0 (Node.port m)), (Z.leb_spec (Node.port m) 65535); simpl; try by left.
  case_bool_decide as Hfree; [|by left].
  destruct (decide ((Node.ip m, Node.port m) = b)) as [<-|Hne].
  - rewrite lookup_insert_eq. intros [= <-]. right. auto.
  - rewrite lookup_insert_ne by done. by left.
Qed.

Lemma start_server_keeps net m : keeps_nodes net (Join.start_server net m).
Proof.
  intros a n Ha. exists n. split; [|done]. unfold Join.start_server.
  destruct (_ && _ && bool_decide _) eqn:E; [|done].
  apply andb_prop in E as [_ Hf%bool_decide_eq_true].
  rewrite lookup_insert_ne; [done|]. intros <-. congruence.
Qed.

(** A process start keeps every listening node, and the node it adds
    (if [bind] succeeds) is bound to a free address, its own, with the id
    [generate_id(ip, port)]. *)
Lemma main_nodes fuel net argv net' :
  Join.main fuel net argv = Some (Join.Running net') ->
  keeps_nodes net net' /\
  forall b n', net' !! b = Some n' -> net !! b = None -> Ring.node_wf b n'.
Proof.
  intros (port & boot & Hc)%main_chord_node. revert Hc. unfold Join.chord_node.
  assert (forall net1 m, keeps_nodes net net1 -> Network.same_skel net net1 ->
            Node.node_id m = generate_id (Node.ip m) (Node.port m) ->
            keeps_nodes net (Join.start_server net1 m) /\
            forall b n', Join.start_server net1 m !! b = Some n' -> net !! b = None ->
              Ring.node_wf b n') as Hstart.
  { intros net1 m Hk Hsk Hid. split.
    - intros a n Ha. destruct (Hk a n Ha) as (n1 & Ha1 & Hs1).
      destruct (start_server_keeps net1 m a n1 Ha1) as (n2 & Ha2 & Hs2).
      exists n2. split; [done | congruence].
    - intros b n' Hb Hnone.
      destruct (start_server_lookup _ _ _ _ Hb) as [Hb1 | (_ & -> & -> & Hp)].
      + specialize (Hsk b). rewrite Hnone, Hb1 in Hsk. discriminate.
      + done. }
  destruct boot as [[bip bport]|];
    [case_match|];
    try (intros [= <-]; apply Hstart; [intros ??; by eexists | reflexivity | reflexivity]).
  destruct (Join.join fuel net _ bip bport) as [[net1 n1]|] eqn:E; [|discriminate].
  intros [= <-]. destruct (join_skel _ _ _ _ _ _ _ E) as (Hsk & Hip & Hport & Hid).
  apply Hstart; [by apply same_skel_keeps | done |]. by rewrite Hip, Hport, Hid.
Qed.

Lemma same_skel_new net net' b n' :
  Network.same_skel net net' -> net' !! b = Some n' -> net !! b = None -> False.
Proof. intros Hs Hb Hn. specialize (Hs b). rewrite Hb, Hn in Hs. discriminate. Qed.

(** A handler thread's step keeps the thread at its node. *)
Lemma sys_step_threads (P : Server.thread -> Prop) s i :
  (forall a p p', P (a, p) -> P (a, p')) -> Forall P s.2 -> Forall P (Server.sys_step s i).2.
Proof.
  intros HP Hs. unfold Server.sys_step.
  destruct (s.2 !! i) as [[a p]|] eqn:Hi; [|done].
  repeat case_match; try done. simpl. apply Forall_insert; [done|].
  exact (HP a p _ (proj1 (Forall_lookup _ _) Hs i _ Hi)).
Qed.

(** Every step of [System.sstep] keeps the listening nodes, and a node
    it adds is well-formed. *)
Lemma sstep_nodes adm s s' :
  System.sstep adm s s' ->
  keeps_nodes s.1 s'.1 /\
  forall b n', s'.1 !! b = Some n' -> s.1 !! b = None -> Ring.node_wf b n'.
Proof.
  destruct 1 as [fuel net ts argv net' _ Hm | fuel net ts a bs net' reply Hh
                | net ts a n bs req o | s i]; simpl.
  - exact (main_nodes _ _ _ _ Hm).
  - pose proof (handle_request_skel _ _ _ _ _ _ Hh) as Hsk.
    split; [by apply same_skel_keeps | intros b n' Hb Hn; by destruct (same_skel_new _ _ _ _ Hsk Hb Hn)].
  - split; [intros ???; by eexists | congruence].
  - pose proof (sys_step_skel s i) as Hsk.
    split; [by apply same_skel_keeps | intros b n' Hb Hn; by destruct (same_skel_new _ _ _ _ Hsk Hb Hn)].
Qed.

Lemma keeps_bound net net' (ts : list Server.thread) :
  keeps_nodes net net' -> Forall (fun t : Server.thread => is_Some (net !! t.1)) ts ->
  Forall (fun t : Server.thread => is_Some (net' !! t.1)) ts.
Proof.
  intros Hk Hts. apply (Forall_impl _ _ _ Hts). intros t [n Hn]. destruct (Hk _ _ Hn) as (n' & Hn' & _). by exists n'.
Qed.

(** ** The invariant of runs with exits *)

Definition nodes_wf (net : Network.network) : Prop :=
  forall a n, net !! a = Some n -> Ring.node_wf a n.

Definition lsafe (s : System.state) : Prop :=
  nodes_wf s.1 /\ sys_typed s /\ Forall (fun t : Server.thread => is_Some (s.1 !! t.1)) s.2.

Lemma keeps_nodes_wf net net' :
  keeps_nodes net net' -> (forall b n', net' !! b = Some n' -> net !! b = None -> Ring.node_wf b n') ->
  nodes_wf net -> nodes_wf net'.
Proof.
  intros Hk Hnew Hwf b n' Hb. destruct (net !! b) as [n|] eqn:Hn; [|by apply Hnew].
  destruct (Hk _ _ Hn) as (n1 & Hb1 & Hs). rewrite Hb in Hb1. injection Hb1 as <-.
  exact (node_wf_skel _ _ _ Hs (Hwf _ _ Hn)).
Qed.

Lemma sstep_lsafe adm s s' : lsafe s -> System.sstep adm s s' -> lsafe s'.
Proof.
  intros (Hwf & Ht & Hb) Hst. destruct (sstep_nodes _ _ _ Hst) as [Hk Hnew].
  split; [exact (keeps_nodes_wf _ _ Hk Hnew Hwf)|]. split; [exact (sstep_typed _ _ _ Ht Hst)|].
  destruct Hst as [fuel net ts argv net' _ Hm | fuel net ts a bs net' reply Hh
                  | net ts a n bs req o Ha _ _ | s i]; simpl in *.
  - exact (keeps_bound _ _ _ Hk Hb).
  - exact (keeps_bound _ _ _ Hk Hb).
  - apply Forall_app. split; [done|]. constructor; [simpl; by exists n | done].
  - apply keeps_bound with s.1; [done|]. by apply sys_step_threads.
Qed.

Lemma exit_lsafe s a : lsafe s -> lsafe (Lifecycle.exit a s).
Proof.
  intros (Hwf & [Ht Hts] & Hb). unfold Lifecycle.exit. split; [|split; [split|]]; simpl.
  - intros b n (_ & Hb')%lookup_delete_Some. exact (Hwf _ _ Hb').
  - by apply map_Forall_delete.
  - apply Forall_forall. intros t (_ & Ht')%list_elem_of_filter. exact (proj1 (Forall_forall _ _) Hts _ Ht').
  - apply Forall_forall. intros t (Hne & Ht')%list_elem_of_filter.
    rewrite lookup_delete_ne by done. exact (proj1 (Forall_forall _ _) Hb _ Ht').
Qed.

Lemma lstep_lsafe adm s s' : lsafe s -> Lifecycle.lstep adm s s' -> lsafe s'.
Proof.
  intros Hs Hst. revert Hs. destruct Hst as [s0 s1 Hst | s0 a n _]; intros Hs; [exact (sstep_lsafe _ _ _ Hs Hst) | exact (exit_lsafe _ _ Hs)].
Qed.

Lemma lsafe_init : lsafe (∅, []).
Proof.
  split; [intros ?? Ha; simpl in Ha; by rewrite lookup_empty in Ha|].
  split; [split; [apply map_Forall_empty | constructor] | constructor].
Qed.

(** ** Theorems *)

(** C12 (invariant): in every state a run reaches in which processes
    start, serve connections, run store handler threads and exit on SIGINT
    in any order: every listening node is bound to its own address with
    the id [generate_id(ip, port)] and a port [bind] accepts, every stored
    value and successor is well-formed, every handler thread runs in a
    process that is still listening ([os._exit] leaves no thread behind),
    and every answer a thread has sent is a status dict. *)
Theorem reachable_lifecycle_safe adm s :
  Lifecycle.reachable adm s ->
  (forall a n, s.1 !! a = Some n -> Ring.node_wf a n) /\ Response.typed s.1 /\
  (forall t, t ∈ s.2 -> is_Some (s.1 !! t.1)) /\
  (forall a r, (a, Conc.Done (Some r)) ∈ s.2 -> Response.status_response r).
Proof.
  intros Hr. destruct (rtc_invariant _ lsafe _ _ lsafe_init (lstep_lsafe adm) Hr)
    as (Hwf & [Ht Hts] & Hb).
  split; [done|]. split; [done|]. split; [by apply Forall_forall|].
  intros a r Hin. exact (proj1 (Forall_forall _ _) Hts _ Hin).
Qed.

(** A bootstrap node starts, an [insert] connection starts a thread, and
    the process is interrupted before the thread runs. *)
Lemma reachable_lifecycle_safe_witness :
  let a : Network.addr := ("10.0.0.1", 5000) in
  let net : Network.network := <[a := Node.bootstrap_node "10.0.0.1" 5000]> ∅ in
  let o := Store.OpInsert (JStr "k") (JInt 1) in
  let s := Lifecycle.exit a (net, [] ++ [Server.spawn (a, o)]) in
  Lifecycle.reachable (fun _ => True) s /\
  (forall a n, s.1 !! a = Some n -> Ring.node_wf a n) /\ Response.typed s.1 /\
  (forall t, t ∈ s.2 -> is_Some (s.1 !! t.1)) /\
  (forall a r, (a, Conc.Done (Some r)) ∈ s.2 -> Response.status_response r).
Proof.
  intros a net o s.
  assert (Lifecycle.reachable (fun _ => True) s) as Hr.
  { unfold Lifecycle.reachable. eapply rtc_l.
    { apply Lifecycle.ls_sys, (System.ss_start _ 1 ∅ [] ["node.py"; "10.0.0.1"; "5000"] net);
        [done | vm_compute; reflexivity]. }
    eapply rtc_l.
    { apply Lifecycle.ls_sys, (System.ss_spawn _ net [] a (Node.bootstrap_node "10.0.0.1" 5000)
               (utf8_encode (dumps (Server.store_request o))) (Server.store_request o) o);
        [apply lookup_insert_eq | vm_compute; reflexivity | vm_compute; reflexivity]. }
    eapply rtc_l; [apply (Lifecycle.ls_exit _ _ a (Node.bootstrap_node "10.0.0.1" 5000)) | apply rtc_refl].
    apply lookup_insert_eq. }
  clearbody s. split; [exact Hr | exact (reachable_lifecycle_safe _ s Hr)].
Defined.

(** C13 (invariant): no step of a run changes the address, id or
    successor of a node that is listening before and after it; in
    particular a node whose successor has exited keeps pointing to it
    (there is no stabilisation or failure detection). *)
Theorem lstep_keeps_successor adm s s' a n n' :
  Lifecycle.lstep adm s s' -> s.1 !! a = Some n -> s'.1 !! a = Some n' ->
  Network.skel n' = Network.skel n.
Proof.
  intros Hst Ha Ha'. destruct Hst as [s s' Hst | s b m _].
  - destruct (proj1 (sstep_nodes _ _ _ Hst) _ _ Ha) as (n1 & Ha1 & Hs). congruence.
  - simpl in Ha'. apply lookup_delete_Some in Ha' as [_ Ha']. congruence.
Qed.

Definition node_A : Node.node :=
  Node.Node "10.0.0.2" 6000 10 ∅ JNull (Some (Node.descriptor 20 "10.0.0.1" 5000)).
Definition node_B : Node.node :=
  Node.Node "10.0.0.1" 5000 20 ∅ JNull (Some (Node.descriptor 20 "10.0.0.1" 5000)).
Definition net_AB : Network.network :=
  <[("10.0.0.2", 6000) := node_A]> (<[("10.0.0.1", 5000) := node_B]> ∅).

(** [B]'s process exits; [A], its satellite, still names it. *)
Lemma lstep_keeps_successor_witness :
  Lifecycle.lstep (fun _ => True) (net_AB, []) (Lifecycle.exit ("10.0.0.1", 5000) (net_AB, [])) /\
  (net_AB, @nil Server.thread).1 !! ("10.0.0.2", 6000) = Some node_A /\
  (Lifecycle.exit ("10.0.0.1", 5000) (net_AB, [])).1 !! ("10.0.0.2", 6000) = Some node_A /\
  Network.skel node_A = Network.skel node_A.
Proof.
  assert (Lifecycle.lstep (fun _ => True) (net_AB, []) (Lifecycle.exit ("10.0.0.1", 5000) (net_AB, [])))
    as Hst by (apply (Lifecycle.ls_exit _ _ _ node_B); vm_compute; reflexivity).
  assert ((net_AB, @nil Server.thread).1 !! ("10.0.0.2", 6000) = Some node_A) as H1
    by (vm_compute; reflexivity).
  assert ((Lifecycle.exit ("10.0.0.1", 5000) (net_AB, [])).1 !! ("10.0.0.2", 6000) = Some node_A)
    as H2 by (vm_compute; reflexivity).
  split; [done|]. split; [done|]. split; [done|].
  exact (lstep_keeps_successor _ _ _ _ _ _ Hst H1 H2).
Defined.

(** C14 (error): a node whose successor's address is no longer bound
    answers [find_successor(id)] with [success] and the dead node's
    descriptor when the successor's id is its own or [id] lies in
    (own id, successor id]; otherwise the forwarded request is refused
    and it answers the error dict [Connection refused].  The network does
    not change. *)
Theorem dead_successor_answers fuel net a n s sip sport x :
  net !! a = Some n -> Node.successor n = Some (Node.descriptor s sip sport) ->
  net !! (sip, sport) = None -> 0 <= sport <= 65535 -> 0 <= x < 2 ^ 160 ->
  Network.handle_request (S fuel) net a (bytes (Node.fs_request (JInt x))) =
    Some (net, Some (bytes (if (s =? Node.node_id n) || ((Node.node_id n <? x) && (x <=? s))
                            then Node.fs_success (Node.descriptor s sip sport)
                            else error_message Network.connection_refused))).
Proof.
  intros Ha Hs Hd Hp Hx.
  rewrite (handle_request_delivered _ _ _ n) by (done || by apply fs_request_fits).
  rewrite process_find_successor.
  destruct (decide (s = Node.node_id n)) as [->|Hne].
  - by rewrite (find_successor_same_id n _ _ _ _ Hs eq_refl), Z.eqb_refl.
  - rewrite (find_successor_int n _ _ _ x Hs Hne), (proj2 (Z.eqb_neq _ _) Hne). simpl orb.
    destruct (_ && _); [reflexivity|].
    unfold Network.send_request. by rewrite send_request_refused.
Qed.

(** After [B] exits, [A] is asked for the successor of 25, beyond [B]'s
    id 20: the forward to [B] is refused. *)
Lemma dead_successor_answers_witness :
  let net := delete ("10.0.0.1", 5000) net_AB in
  Network.handle_request 1 net ("10.0.0.2", 6000) (bytes (Node.fs_request (JInt 25))) =
    Some (net, Some (bytes (if (20 =? Node.node_id node_A) ||
                              ((Node.node_id node_A <? 25) && (25 <=? 20))
                            then Node.fs_success (Node.descriptor 20 "10.0.0.1" 5000)
                            else error_message Network.connection_refused))).
Proof.
  intros net. apply dead_successor_answers;
    [vm_compute; reflexivity | reflexivity | vm_compute; reflexivity | lia | split; [lia | reflexivity]].
Defined.
